(** * The skill refinement loop of as-demo (demo-container/skill-refine-loop.py)

    A shallow embedding of the test-fix loop: the text and JSON handling of
    the two sub-process wrappers ([run_skill_test], [run_fix_agent]), the
    controller [run_refinement_loop] and the command-line entry point [main],
    followed by the properties of the controller.

    Conventions.
    - A Python [str] is a list of code points ([str]); literals are written
      [lit "..."].
    - Python's [None] is [None] of an [option]; a parsed JSON document is a
      value of [json], with JSON [null] as [JNull].
    - Sub-processes belong to the environment: a deterministic world answers
      each [subprocess.run] with a [proc] outcome (completed, timed out, or
      failed to start).
    - An exception that no handler of the program catches is the [Raise]
      outcome of the [res] monad.
    - Console output ([print]) is not modelled. *)

From Stdlib Require Import String Ascii DecimalString.
From Stdlib Require Import List ZArith NArith Bool Lia.
Import ListNotations.

Set Implicit Arguments.
Set Warnings "-register-all".

(* ====================================================================== *)
(** ** Text *)
(* ====================================================================== *)

Module Text.

(** A Python string: its sequence of code points. *)
Definition str := list N.

Definition lit (s : string) : str := map N_of_ascii (list_ascii_of_string s).

(** A literal in which every apostrophe stands for a double quote, for
    writing JSON text. *)
Definition quoted (s : string) : str :=
  map (fun c => if (c =? 39)%N then 34%N else c) (lit s).

Fixpoint str_eqb (a b : str) : bool :=
  match a, b with
  | [], [] => true
  | x :: a', y :: b' => N.eqb x y && str_eqb a' b'
  | _, _ => false
  end.

(** [str(n)] for an int. *)
Definition str_of_int (z : Z) : str := lit (NilZero.string_of_int (Z.to_int z)).

(** [s[:n]] *)
Definition prefix (n : nat) (s : str) : str := firstn n s.

(** [s[-n:] if len(s) > n else s] *)
Definition last_chars (n : nat) (s : str) : str :=
  if Nat.ltb n (length s) then skipn (length s - n) s else s.

(** [sep.join(parts)] *)
Fixpoint join (sep : str) (parts : list str) : str :=
  match parts with
  | [] => []
  | [p] => p
  | p :: rest => p ++ sep ++ join sep rest
  end.

(** [str.isspace] on one code point: the characters [str.strip()] removes. *)
Definition is_space (c : N) : bool :=
  ((9 <=? c) && (c <=? 13) || (28 <=? c) && (c <=? 32)
   || (c =? 133) || (c =? 160) || (c =? 5760)
   || (8192 <=? c) && (c <=? 8202)
   || (c =? 8232) || (c =? 8233) || (c =? 8239) || (c =? 8287)
   || (c =? 12288))%N.

Fixpoint lstrip (s : str) : str :=
  match s with
  | c :: r => if is_space c then lstrip r else s
  | [] => []
  end.

(** [s.strip()] *)
Definition strip (s : str) : str := rev (lstrip (rev (lstrip s))).

(** [s.find(c)] for a one-character needle: index of the first occurrence,
    or -1. *)
Fixpoint find_char (c : N) (s : str) : Z :=
  match s with
  | [] => (-1)%Z
  | x :: r =>
      if N.eqb x c then 0%Z
      else let i := find_char c r in
           if (i <? 0)%Z then (-1)%Z else (i + 1)%Z
  end.

(** [s[i:]] for [i >= 0]. *)
Definition slice_from (i : Z) (s : str) : str := skipn (Z.to_nat i) s.

Fixpoint starts_with (p s : str) : bool :=
  match p, s with
  | [], _ => true
  | x :: p', y :: s' => N.eqb x y && starts_with p' s'
  | _ :: _, [] => false
  end.

(** [needle in s] *)
Fixpoint contains (needle s : str) : bool :=
  starts_with needle s ||
  match s with
  | [] => false
  | _ :: r => contains needle r
  end.

(** [s.lower()], on the letters A-Z.  The program only searches the result
    for the ASCII words "edited" and "updated"; no other code point
    lower-cases to a letter run that could complete such a match. *)
Definition lower_char (c : N) : N :=
  if ((65 <=? c) && (c <=? 90))%N then (c + 32)%N else c.

Definition lower (s : str) : str := map lower_char s.

End Text.

Import Text.

(* ====================================================================== *)
(** ** JSON documents and [json.loads] *)
(* ====================================================================== *)

Module Json.

(** A decoded JSON document.  An int is a [Z]; a number with a fraction or
    an exponent, and the constants NaN, Infinity and -Infinity, become a
    Python float, kept here as the literal that was read.  An object is a
    Python dict: keys in first-insertion order, one binding per key. *)
Inductive json : Type :=
| JNull
| JBool (b : bool)
| JInt (z : Z)
| JFloat (literal : str)
| JString (s : str)
| JArray (items : list json)
| JObject (members : list (str * json)).

(** [d.get(k)] on the members of a dict. *)
Fixpoint lookup (k : str) (d : list (str * json)) : option json :=
  match d with
  | [] => None
  | (k', v) :: r => if str_eqb k k' then Some v else lookup k r
  end.

(** [d[k] = v] *)
Fixpoint dict_set (k : str) (v : json) (d : list (str * json))
  : list (str * json) :=
  match d with
  | [] => [(k, v)]
  | (k', v') :: r =>
      if str_eqb k k' then (k', v) :: r else (k', v') :: dict_set k v r
  end.

(** [dict(pairs)] *)
Definition dict_of_pairs (pairs : list (str * json)) : list (str * json) :=
  fold_left (fun d kv => dict_set (fst kv) (snd kv) d) pairs [].

(** Outcome of a scanner: a value and the unread rest, a syntax error
    ([JSONDecodeError]), or recursion budget exhausted. *)
Inductive scan (A : Type) : Type :=
| Scanned (a : A) (rest : str)
| SyntaxError
| OutOfFuel.
Arguments SyntaxError {A}.
Arguments OutOfFuel {A}.

(** JSON whitespace: space, tab, line feed, carriage return. *)
Definition is_ws (c : N) : bool :=
  ((c =? 32) || (c =? 9) || (c =? 10) || (c =? 13))%N.

Fixpoint skip_ws (s : str) : str :=
  match s with
  | c :: r => if is_ws c then skip_ws r else s
  | [] => []
  end.

Definition is_digit (c : N) : bool := ((48 <=? c) && (c <=? 57))%N.

Fixpoint span_digits (s : str) : str * str :=
  match s with
  | c :: r =>
      if is_digit c then let (ds, rest) := span_digits r in (c :: ds, rest)
      else ([], s)
  | [] => ([], [])
  end.

Definition int_of_digits (ds : str) : Z :=
  fold_left (fun acc c => (10 * acc + (Z.of_N c - 48))%Z) ds 0%Z.

(** The number pattern of the scanner: an optional minus sign, then either
    a single 0 or a non-zero digit followed by digits; then optionally a dot
    with at least one digit; then optionally e or E, an optional sign and at
    least one digit.  The longest such prefix is taken.  The value is an int
    when neither fraction nor exponent matched, a float otherwise. *)
Definition match_number (s : str) : option (json * str) :=
  let (sign, s1) :=
    match s with
    | 45%N :: r => ([45%N], r)
    | _ => ([], s)
    end in
  let integer :=
    match s1 with
    | c :: r =>
        if (c =? 48)%N then Some ([c], r)
        else if is_digit c
             then let (ds, rest) := span_digits r in Some (c :: ds, rest)
             else None
    | [] => None
    end in
  match integer with
  | None => None
  | Some (ipart, s2) =>
      let (frac, s3) :=
        match s2 with
        | 46%N :: r =>
            match span_digits r with
            | ([], _) => ([], s2)
            | (ds, rest) => (46%N :: ds, rest)
            end
        | _ => ([], s2)
        end in
      let (expo, s4) :=
        match s3 with
        | e :: r =>
            if ((e =? 101) || (e =? 69))%N then
              let (esign, r1) :=
                match r with
                | c :: r' =>
                    if ((c =? 43) || (c =? 45))%N then ([c], r') else ([], r)
                | [] => ([], r)
                end in
              match span_digits r1 with
              | ([], _) => ([], s3)
              | (ds, rest) => (e :: esign ++ ds, rest)
              end
            else ([], s3)
        | [] => ([], s3)
        end in
      match frac, expo with
      | [], [] =>
          let n := int_of_digits ipart in
          Some (JInt (match sign with [] => n | _ => (- n)%Z end), s4)
      | _, _ => Some (JFloat (sign ++ ipart ++ frac ++ expo), s4)
      end
  end.

Definition hex_digit (c : N) : option N :=
  if is_digit c then Some (c - 48)%N
  else if ((97 <=? c) && (c <=? 102))%N then Some (c - 87)%N
  else if ((65 <=? c) && (c <=? 70))%N then Some (c - 55)%N
  else None.

Definition hex4 (a b c d : N) : option N :=
  match hex_digit a, hex_digit b, hex_digit c, hex_digit d with
  | Some x, Some y, Some z, Some w =>
      Some (((x * 16 + y) * 16 + z) * 16 + w)%N
  | _, _, _, _ => None
  end.

Definition simple_escape (c : N) : option N :=
  if (c =? 34)%N then Some 34%N          (* quote *)
  else if (c =? 92)%N then Some 92%N     (* backslash *)
  else if (c =? 47)%N then Some 47%N     (* slash *)
  else if (c =? 98)%N then Some 8%N      (* backspace *)
  else if (c =? 102)%N then Some 12%N    (* form feed *)
  else if (c =? 110)%N then Some 10%N    (* line feed *)
  else if (c =? 114)%N then Some 13%N    (* carriage return *)
  else if (c =? 116)%N then Some 9%N     (* tab *)
  else None.

Definition is_high_surrogate (u : N) : bool :=
  ((55296 <=? u) && (u <=? 56319))%N.
Definition is_low_surrogate (u : N) : bool :=
  ((56320 <=? u) && (u <=? 57343))%N.
Definition join_surrogates (hi lo : N) : N :=
  (65536 + (hi - 55296) * 1024 + (lo - 56320))%N.

(** [scanstring] (strict): the text after an opening quote up to the closing
    quote, with escapes decoded. *)
Fixpoint scanstring (s : str) : option (str * str) :=
  let continue (c : N) (r : option (str * str)) :=
    match r with
    | Some (body, rest) => Some (c :: body, rest)
    | None => None
    end in
  match s with
  | [] => None
  | c :: r =>
      if (c =? 34)%N then Some ([], r)
      else if (c =? 92)%N then
        match r with
        | [] => None
        | e :: r1 =>
            if (e =? 117)%N then
              match r1 with
              | h1 :: h2 :: h3 :: h4 :: r2 =>
                  match hex4 h1 h2 h3 h4 with
                  | None => None
                  | Some u =>
                      if is_high_surrogate u then
                        match r2 with
                        | 92%N :: 117%N :: r3 =>
                            match r3 with
                            | g1 :: g2 :: g3 :: g4 :: r4 =>
                                match hex4 g1 g2 g3 g4 with
                                | None => None
                                | Some u2 =>
                                    if is_low_surrogate u2
                                    then continue (join_surrogates u u2)
                                                  (scanstring r4)
                                    else continue u (scanstring r2)
                                end
                            | _ => None
                            end
                        | _ => continue u (scanstring r2)
                        end
                      else continue u (scanstring r2)
                  end
              | _ => None
              end
            else
              match simple_escape e with
              | Some x => continue x (scanstring r1)
              | None => None
              end
        end
      else if (c <=? 31)%N then None
      else continue c (scanstring r)
  end.

(** [s[0] == c], false at the end of the text. *)
Definition head_is (c : N) (s : str) : bool :=
  match s with
  | x :: _ => (x =? c)%N
  | [] => false
  end.

(** [scan_once] with [JSONObject] and [JSONArray]: one value at the head of
    the text.  Every call passes a smaller budget to the calls it makes. *)
Fixpoint scan_once (fuel : nat) (s : str) : scan json :=
  match fuel with
  | O => OutOfFuel
  | S f =>
      if head_is 34 s then
        match scanstring (tl s) with
        | Some (body, rest) => Scanned (JString body) rest
        | None => SyntaxError
        end
      else if head_is 123 s then
        let r := skip_ws (tl s) in
        if head_is 125 r then Scanned (JObject []) (tl r)
        else if head_is 34 r then
          match scan_members f (tl r) [] with
          | Scanned pairs rest => Scanned (JObject (dict_of_pairs pairs)) rest
          | SyntaxError => SyntaxError
          | OutOfFuel => OutOfFuel
          end
        else SyntaxError
      else if head_is 91 s then
        let r := skip_ws (tl s) in
        if head_is 93 r then Scanned (JArray []) (tl r)
        else
          match scan_items f r [] with
          | Scanned items rest => Scanned (JArray items) rest
          | SyntaxError => SyntaxError
          | OutOfFuel => OutOfFuel
          end
      else if starts_with (lit "null") s then Scanned JNull (skipn 4 s)
      else if starts_with (lit "true") s then Scanned (JBool true) (skipn 4 s)
      else if starts_with (lit "false") s then Scanned (JBool false) (skipn 5 s)
      else
        match match_number s with
        | Some (v, rest) => Scanned v rest
        | None =>
            if starts_with (lit "NaN") s
            then Scanned (JFloat (lit "NaN")) (skipn 3 s)
            else if starts_with (lit "Infinity") s
            then Scanned (JFloat (lit "Infinity")) (skipn 8 s)
            else if starts_with (lit "-Infinity") s
            then Scanned (JFloat (lit "-Infinity")) (skipn 9 s)
            else SyntaxError
        end
  end

(** The members of an object, from just after the opening quote of a key;
    [acc] holds the pairs read so far, latest first. *)
with scan_members (fuel : nat) (s : str) (acc : list (str * json))
  : scan (list (str * json)) :=
  match fuel with
  | O => OutOfFuel
  | S f =>
      match scanstring s with
      | None => SyntaxError
      | Some (key, r) =>
          let r1 := skip_ws r in
          if head_is 58 r1 then
            match scan_once f (skip_ws (tl r1)) with
            | Scanned v r2 =>
                let r3 := skip_ws r2 in
                if head_is 125 r3 then Scanned (rev ((key, v) :: acc)) (tl r3)
                else if head_is 44 r3 then
                  let r4 := skip_ws (tl r3) in
                  if head_is 34 r4
                  then scan_members f (tl r4) ((key, v) :: acc)
                  else SyntaxError
                else SyntaxError
            | SyntaxError => SyntaxError
            | OutOfFuel => OutOfFuel
            end
          else SyntaxError
      end
  end

(** The items of an array, from the first character of an item. *)
with scan_items (fuel : nat) (s : str) (acc : list json) : scan (list json) :=
  match fuel with
  | O => OutOfFuel
  | S f =>
      match scan_once f s with
      | Scanned v r =>
          let r1 := skip_ws r in
          if head_is 93 r1 then Scanned (rev (v :: acc)) (tl r1)
          else if head_is 44 r1 then scan_items f (skip_ws (tl r1)) (v :: acc)
          else SyntaxError
      | SyntaxError => SyntaxError
      | OutOfFuel => OutOfFuel
      end
  end.

(** Budget that [scan_once] never exhausts on [s] (see [scan_fuel]). *)
Definition budget (s : str) : nat := 2 * length s + 2.

(** [json.loads(s)]: [Some v] for the decoded document, [None] for
    [JSONDecodeError].  The whole text must be one value between optional
    whitespace.  The decoder is the grammar [json.loads] accepts with its
    defaults; limits of the interpreter (recursion depth, length of an
    integer literal) are not part of it. *)
Definition json_loads (s : str) : option json :=
  match scan_once (budget s) (skip_ws s) with
  | Scanned v rest =>
      match skip_ws rest with
      | [] => Some v
      | _ => None
      end
  | _ => None
  end.

End Json.

Import Json.

(* ====================================================================== *)
(** ** Exceptions and sub-processes *)
(* ====================================================================== *)

Module Py.

(** Exceptions the program lets escape.  [IllTyped] marks a value outside the
    type its variable is annotated with (a session id that is neither a
    string nor None, a prompt index that is not an int, ...): the model does
    not follow the program beyond that point. *)
Inductive exn : Type :=
| AttributeError
| TypeError
| KeyError
| ValueError
| IllTyped.

Inductive res (A : Type) : Type :=
| Ok (a : A)
| Raise (e : exn).
Arguments Raise {A} e.

Definition bind {A B : Type} (c : res A) (k : A -> res B) : res B :=
  match c with
  | Ok a => k a
  | Raise e => Raise e
  end.

(** What [subprocess.run(..., timeout=t)] does: the process runs to its end,
    the timeout expires first, or the call raises something else. *)
Inductive proc : Type :=
| Completed (stdout stderr : str) (returncode : Z)
| TimeoutExpired
| OtherException (message : str).

End Py.

Import Py.

Declare Scope py_scope.
Delimit Scope py_scope with py.
Notation "x <- c ;; k" := (bind c (fun x => k))
  (at level 61, c at next level, right associativity) : py_scope.
Notation "' p <- c ;; k" := (bind c (fun p => k))
  (at level 61, p pattern, c at next level, right associativity) : py_scope.

(** A Python dict read from JSON. *)
Definition dict := list (str * json).

(* ====================================================================== *)
(** ** Test runner: [run_skill_test] *)
(* ====================================================================== *)

(** The keyword arguments of one [run_skill_test] call. *)
Record SkillTestCall : Type := {
  st_scenario : str;
  st_platform : str;
  st_model : str;
  st_judge_model : str;
  st_prompt_index : option Z;
  st_fix_context : bool;
  st_verbose : bool;
  st_conversation : bool;
  st_fail_fast : bool;
  st_checkpoint_file : option str;
  st_fork_from : option Z;
  st_mock_mode : bool
}.

(** The options appended to the inner [skill-test.py] command; [skills_paths]
    is the comma-joined list of skills repositories. *)
Definition test_options (c : SkillTestCall) (skills_paths : str) : str :=
  (if st_conversation c then lit " --conversation" else [])
  ++ (if st_fail_fast c then lit " --fail-fast" else [])
  ++ match st_checkpoint_file c with
     | Some (x :: f) => lit " --checkpoint-file " ++ x :: f
     | _ => []
     end
  ++ match st_fork_from c with
     | Some k => lit " --fork-from " ++ str_of_int k
     | None => []
     end
  ++ match st_prompt_index c with
     | Some k => lit " --prompt-index " ++ str_of_int k
     | None => []
     end
  ++ (if st_fix_context c then lit " --fix-context " ++ skills_paths else [])
  ++ (if st_verbose c then lit " --verbose" else [])
  ++ (if st_mock_mode c then lit " --mock" else []).

(** Timeout of the docker run, in seconds. *)
Definition TEST_TIMEOUT : Z := 600.

(** [ctx.get("status") == "all_passed"] *)
Definition is_all_passed (ctx : dict) : bool :=
  match lookup (lit "status") ctx with
  | Some (JString s) => str_eqb s (lit "all_passed")
  | _ => false
  end.

(** The parsing of the fix-context output (the [if fix_context:] branch):
    first the whole stripped stdout, then the text from the first brace. *)
Definition read_fix_context (raw_stdout : str) : bool * option dict :=
  let stdout := strip raw_stdout in
  match json_loads stdout with
  | Some (JObject ctx) =>
      if is_all_passed ctx then (true, None) else (false, Some ctx)
  | _ =>
      let brace_idx := find_char 123 stdout in
      if (brace_idx >=? 0)%Z then
        match json_loads (slice_from brace_idx stdout) with
        | Some (JObject ctx) =>
            if is_all_passed ctx then (true, None) else (false, Some ctx)
        | _ => (false, None)
        end
      else (false, None)
  end.

(** What [run_skill_test] returns for the outcome of its docker run. *)
Definition skill_test_result (c : SkillTestCall) (p : proc)
  : bool * option dict :=
  match p with
  | TimeoutExpired => (false, None)
  | OtherException _ => (false, None)
  | Completed stdout _ returncode =>
      if st_fix_context c then read_fix_context stdout
      else ((returncode =? 0)%Z, None)
  end.

(* ====================================================================== *)
(** ** Fix agent: [run_fix_agent] *)
(* ====================================================================== *)

Record FixResult : Type := {
  success : bool;
  files_changed : list str;
  summary : str;
  session_id : option str
}.

(** One entry of [attempt_history]. *)
Record AttemptRecord : Type := {
  attempt : Z;
  files : list str;
  result : str;
  error_summary : str
}.

(** Timeout of the fix agent, in seconds. *)
Definition FIX_TIMEOUT : Z := 300.

(** [_parse_fix_agent_output]: the session id of the agent's JSON output, or
    the default when the output is not JSON or has no such key.  [.get] on a
    document that is not an object raises. *)
Definition _parse_fix_agent_output (output : str) (default_session_id : option str)
  : res (option str) :=
  match json_loads output with
  | None => Ok default_session_id
  | Some (JObject output_data) =>
      match lookup (lit "session_id") output_data with
      | None => Ok default_session_id
      | Some (JString s) => Ok (Some s)
      | Some JNull => Ok None
      | Some _ => Raise IllTyped
      end
  | Some _ => Raise AttributeError
  end.

(** The generator of [_extract_text_from_output]: the "text" of every block
    whose "type" is "text". *)
Fixpoint text_blocks (content : list json) : res (list json) :=
  match content with
  | [] => Ok []
  | JObject block :: rest =>
      (more <- text_blocks rest ;;
       match lookup (lit "type") block with
       | Some (JString t) =>
           if str_eqb t (lit "text")
           then Ok (match lookup (lit "text") block with
                    | Some v => v
                    | None => JString []
                    end :: more)
           else Ok more
       | _ => Ok more
       end)%py
  | _ :: _ => Raise AttributeError
  end.

(** The items handed to [str.join] must be strings. *)
Fixpoint all_strings (items : list json) : res (list str) :=
  match items with
  | [] => Ok []
  | JString s :: rest => (more <- all_strings rest ;; Ok (s :: more))%py
  | _ :: _ => Raise TypeError
  end.

(** [_extract_text_from_output] *)
Definition _extract_text_from_output (output : str) : res str :=
  match json_loads output with
  | None => Ok output
  | Some (JObject output_data) =>
      match lookup (lit "result") output_data with
      | Some (JString r) => Ok r
      | _ =>
          match lookup (lit "content") output_data with
          | Some (JArray content) =>
              (blocks <- text_blocks content ;;
               texts <- all_strings blocks ;;
               Ok (join [10%N] texts))%py
          | _ => Ok output
          end
      end
  | Some _ => Raise AttributeError
  end.

(** The command line of the fix agent. *)
Definition fix_agent_cmd (prompt : str) (session : option str) : list str :=
  [lit "claude"; lit "-p"; prompt; lit "--model"; lit "sonnet";
   lit "--dangerously-skip-permissions"; lit "--output-format"; lit "json"]
  ++ match session with
     | Some (c :: s) => [lit "--resume"; c :: s]
     | _ => []
     end.

(** The closing section of the repair prompt. *)
Definition task_text : str := lit "

## Your Task

Analyze the failure and make targeted changes to fix it. Focus on:

1. **If tool selection is wrong**: Update the skill description to better trigger on this type of query
2. **If tool worked but output is wrong**: Check if the skill examples or instructions need improvement
3. **If there's an API error**: Check the library code for bugs

Make minimal, focused changes. Edit the actual files - do not just describe what to change.

After making changes, provide a brief summary of what you changed and why.
".

(** The environment of a run: the world that answers sub-process calls, and
    the text helpers of Python that the model takes as given. *)
Record Env : Type := {
  World : Type;
  (** [subprocess.run] of the docker command built for a test call *)
  docker_run : World -> SkillTestCall -> Z -> proc * World;
  (** [subprocess.run] of the fix agent's command line *)
  claude_run : World -> list str -> Z -> proc * World;
  (** the head of the repair prompt: failure details, skill and library
      paths, relevant files and git history of a fix context, for a platform;
      it raises when the context lacks a field the template reads or the
      platform is unknown *)
  render_failure : dict -> str -> res str;
  (** [list(set(re.findall(...)))]: the distinct file paths named in a text *)
  file_patterns : str -> list str;
  (** [str(files)] for a list of strings *)
  repr_list : list str -> str
}.

Section Components.

Context (E : Env).

(** [run_skill_test] *)
Definition run_skill_test (w : World E) (c : SkillTestCall)
  : (bool * option dict) * World E :=
  let (p, w') := docker_run E w c TEST_TIMEOUT in
  (skill_test_result c p, w').

(** One line of the "Previous Fix Attempts" section (two with an error). *)
Definition render_attempt (h : AttemptRecord) : str :=
  lit "- Attempt " ++ str_of_int (attempt h) ++ lit ": "
  ++ match files h with
     | [] => []
     | _ :: _ => lit "Changed " ++ repr_list E (files h) ++ lit ", "
     end
  ++ lit "Result: " ++ result h ++ [10%N]
  ++ match error_summary h with
     | [] => []
     | _ :: _ => lit "  Error: " ++ error_summary h ++ [10%N]
     end.

Definition render_history (attempt_history : list AttemptRecord) : str :=
  match attempt_history with
  | [] => []
  | _ :: _ =>
      [10%N] ++ lit "## Previous Fix Attempts (this session)" ++ [10%N]
      ++ concat (map render_attempt attempt_history)
  end.

(** The repair prompt. *)
Definition fix_prompt (fix_context : dict) (platform : str)
           (attempt_history : list AttemptRecord) : res str :=
  (head <- render_failure E fix_context platform ;;
   Ok (head ++ render_history attempt_history ++ task_text))%py.

(** What [run_fix_agent] returns for the outcome of the agent's process. *)
Definition fix_agent_result (session : option str) (p : proc) : res FixResult :=
  match p with
  | TimeoutExpired =>
      Ok {| success := false; files_changed := [];
            summary := lit "Fix agent timed out"; session_id := session |}
  | OtherException e =>
      Ok {| success := false; files_changed := [];
            summary := lit "Fix agent error: " ++ e; session_id := session |}
  | Completed stdout _ returncode =>
      (new_session_id <- _parse_fix_agent_output stdout session ;;
       output <- _extract_text_from_output stdout ;;
       let changed :=
         if contains (lit "Edit") output
            || contains (lit "edited") (lower output)
            || contains (lit "updated") (lower output)
         then file_patterns E output else [] in
       Ok {| success := (returncode =? 0)%Z;
             files_changed := changed;
             summary := last_chars 500 output;
             session_id := new_session_id |})%py
  end.

(** [run_fix_agent] *)
Definition run_fix_agent (w : World E) (fix_context : dict) (platform : str)
           (session : option str) (attempt_history : list AttemptRecord)
  : res FixResult * World E :=
  match fix_prompt fix_context platform attempt_history with
  | Raise e => (Raise e, w)
  | Ok prompt =>
      let (p, w') := claude_run E w (fix_agent_cmd prompt session) FIX_TIMEOUT in
      (fix_agent_result session p, w')
  end.

(* ---------------------------------------------------------------------- *)
(** *** Main loop: [run_refinement_loop] *)

(** Arguments of [run_refinement_loop] other than [max_attempts]. *)
Record LoopArgs : Type := {
  scenario : str;
  platform : str;
  model : str;
  judge_model : str;
  verbose : bool;
  mock_mode : bool
}.

(** The variables the loop carries from one attempt to the next. *)
Record LoopState : Type := {
  fix_session_id : option str;
  attempt_history : list AttemptRecord;
  last_failing_prompt_index : option Z
}.

Definition initial_state : LoopState :=
  {| fix_session_id := None; attempt_history := [];
     last_failing_prompt_index := None |}.

(** [(fork_from, prompt_index)] of an attempt. *)
Definition fork_args (attempt : Z) (last_failing : option Z)
  : option Z * option Z :=
  if (attempt >? 1)%Z then
    match last_failing with
    | Some k => if (k >? 0)%Z then (Some (k - 1)%Z, Some k) else (None, Some 0%Z)
    | None => (None, None)
    end
  else (None, None).

Definition checkpoint_path (a : LoopArgs) : str :=
  lit "/tmp/checkpoints/" ++ platform a ++ lit "_" ++ scenario a ++ lit ".json".

Definition test_call (a : LoopArgs) (attempt : Z) (last_failing : option Z)
  : SkillTestCall :=
  {| st_scenario := scenario a;
     st_platform := platform a;
     st_model := model a;
     st_judge_model := judge_model a;
     st_prompt_index := snd (fork_args attempt last_failing);
     st_fix_context := true;
     st_verbose := verbose a;
     st_conversation := true;
     st_fail_fast := true;
     st_checkpoint_file := Some (checkpoint_path a);
     st_fork_from := fst (fork_args attempt last_failing);
     st_mock_mode := mock_mode a |}.

(** A text field of the failure that the loop slices: absent gives the
    default, a string is itself, anything else cannot be sliced as text. *)
Definition text_field (failure : dict) (key : str) (default : str) : res str :=
  match lookup key failure with
  | None => Ok default
  | Some (JString s) => Ok s
  | Some (JArray _) | Some (JObject _) => Raise IllTyped
  | Some _ => Raise TypeError
  end.

(** What the loop reads from a fix context once a test failed with one:
    [failure.get("prompt_index")] and the refinement suggestion kept in the
    attempt record. *)
Definition read_failure (fix_ctx : dict) : res (option Z * str) :=
  match match lookup (lit "failure") fix_ctx with
        | Some v => v
        | None => JObject []
        end with
  | JObject failure =>
      (_ <- text_field failure (lit "prompt_text") (lit "unknown") ;;
       suggestion <- text_field failure (lit "refinement_suggestion") [] ;;
       match lookup (lit "prompt_index") failure with
       | None | Some JNull => Ok (None, prefix 100 suggestion)
       | Some (JInt k) => Ok (Some k, prefix 100 suggestion)
       | Some _ => Raise IllTyped
       end)%py
  | _ => Raise AttributeError
  end.

(** The call of the fix agent made in an attempt. *)
Record FixLog : Type := {
  fx_context : dict;
  fx_session_id : option str;
  fx_history : list AttemptRecord;
  fx_result : res FixResult
}.

(** How an attempt ends. *)
Inductive Step : Type :=
| Passed                                  (* return True *)
| NoContext                               (* continue, nothing recorded *)
| Fixed (fx : FixLog) (next : LoopState)  (* fix agent ran; next iteration *)
| Crashed (fx : option FixLog) (e : exn). (* an exception leaves the loop *)

(** One iteration of the loop, as observed. *)
Record AttemptLog : Type := {
  al_attempt : Z;
  al_before : LoopState;
  al_call : SkillTestCall;
  al_verdict : bool * option dict;
  al_step : Step
}.

(** The body of the [for] loop. *)
Definition attempt_body (a : LoopArgs) (st : LoopState) (w : World E)
           (attempt : Z) : AttemptLog * World E :=
  let call := test_call a attempt (last_failing_prompt_index st) in
  let (verdict, w1) := run_skill_test w call in
  let log := fun step =>
    {| al_attempt := attempt; al_before := st; al_call := call;
       al_verdict := verdict; al_step := step |} in
  let (all_passed, fix_ctx) := verdict in
  if all_passed then (log Passed, w1)
  else
    match fix_ctx with
    | None | Some [] => (log NoContext, w1)
    | Some ctx =>
        match read_failure ctx with
        | Raise e => (log (Crashed None e), w1)
        | Ok (failing_index, suggestion) =>
            let (fix_result, w2) :=
              run_fix_agent w1 ctx (platform a) (fix_session_id st)
                            (attempt_history st) in
            let fx := {| fx_context := ctx;
                         fx_session_id := fix_session_id st;
                         fx_history := attempt_history st;
                         fx_result := fix_result |} in
            match fix_result with
            | Raise e => (log (Crashed (Some fx) e), w2)
            | Ok r =>
                (log (Fixed fx
                   {| fix_session_id := session_id r;
                      attempt_history :=
                        attempt_history st ++
                        [{| attempt := attempt;
                            files := files_changed r;
                            result := lit "still failing";
                            error_summary := suggestion |}];
                      last_failing_prompt_index := failing_index |}), w2)
            end
        end
    end.

(** The loop over the remaining attempt numbers: the value returned (or the
    exception), the attempts made, and the world left behind. *)
Fixpoint attempts_from (a : LoopArgs) (numbers : list Z) (st : LoopState)
         (w : World E) : res bool * list AttemptLog * World E :=
  match numbers with
  | [] => (Ok false, [], w)
  | n :: rest =>
      let (log, w') := attempt_body a st w n in
      match al_step log with
      | Passed => (Ok true, [log], w')
      | NoContext =>
          let '(r, logs, w'') := attempts_from a rest st w' in
          (r, log :: logs, w'')
      | Fixed _ next =>
          let '(r, logs, w'') := attempts_from a rest next w' in
          (r, log :: logs, w'')
      | Crashed _ e => (Raise e, [log], w')
      end
  end.

(** [range(1, max_attempts + 1)] *)
Definition attempt_numbers (max_attempts : Z) : list Z :=
  map Z.of_nat (seq 1 (Z.to_nat max_attempts)).

(** [run_refinement_loop] *)
Definition run_refinement_loop (a : LoopArgs) (max_attempts : Z) (w : World E)
  : res bool * list AttemptLog * World E :=
  attempts_from a (attempt_numbers max_attempts) initial_state w.

End Components.

(* ====================================================================== *)
(** ** Configuration and [main] *)
(* ====================================================================== *)

Record PlatformConfig : Type := {
  skills_path_env : str;
  default_subdir : str;
  plugin_name : str;
  lib_name : str;
  lib_package : str;
  env_vars : list str;
  mock_env_var : str;
  scenarios_path : str
}.

Definition PLATFORM_CONFIG : list (str * PlatformConfig) :=
  [ (lit "confluence",
     {| skills_path_env := lit "CONFLUENCE_SKILLS_PATH";
        default_subdir := lit "Confluence-Assistant-Skills";
        plugin_name := lit "confluence-assistant-skills";
        lib_name := lit "confluence-as";
        lib_package := lit "confluence_as";
        env_vars := [lit "CONFLUENCE_API_TOKEN"; lit "CONFLUENCE_EMAIL";
                     lit "CONFLUENCE_SITE_URL"];
        mock_env_var := lit "CONFLUENCE_MOCK_MODE";
        scenarios_path := lit "confluence" |});
    (lit "jira",
     {| skills_path_env := lit "JIRA_SKILLS_PATH";
        default_subdir := lit "Jira-Assistant-Skills";
        plugin_name := lit "jira-assistant-skills";
        lib_name := lit "jira-as";
        lib_package := lit "jira_as";
        env_vars := [lit "JIRA_API_TOKEN"; lit "JIRA_EMAIL"; lit "JIRA_SITE_URL"];
        mock_env_var := lit "JIRA_MOCK_MODE";
        scenarios_path := lit "jira" |});
    (lit "splunk",
     {| skills_path_env := lit "SPLUNK_SKILLS_PATH";
        default_subdir := lit "Splunk-Assistant-Skills";
        plugin_name := lit "splunk-assistant-skills";
        lib_name := lit "splunk-as";
        lib_package := lit "splunk_as";
        env_vars := [lit "SPLUNK_URL"; lit "SPLUNK_USERNAME";
                     lit "SPLUNK_PASSWORD"; lit "SPLUNK_HEC_TOKEN"];
        mock_env_var := lit "SPLUNK_MOCK_MODE";
        scenarios_path := lit "splunk" |}) ].

Fixpoint platform_config (table : list (str * PlatformConfig)) (platform : str)
  : option PlatformConfig :=
  match table with
  | [] => None
  | (name, config) :: rest =>
      if str_eqb platform name then Some config
      else platform_config rest platform
  end.

Definition CROSS_PLATFORM_REQUIRED : list str :=
  [lit "confluence"; lit "jira"; lit "splunk"].

(** [get_required_platforms] *)
Definition get_required_platforms (platform : str) : list str :=
  if str_eqb platform (lit "cross-platform") || str_eqb platform (lit "all")
  then CROSS_PLATFORM_REQUIRED
  else [platform].

(** The machine the program runs on: the process environment, which paths
    exist, and the module constant SKILLS_BASE_PATH.  A path is the string
    that names it; [p / name] appends a component. *)
Record Host : Type := {
  environ : str -> option str;
  path_exists : str -> bool;
  SKILLS_BASE_PATH : str
}.

Definition path_join (p name : str) : str := p ++ lit "/" ++ name.

(** [get_skills_path] *)
Definition get_skills_path (h : Host) (platform : str) : res str :=
  match platform_config PLATFORM_CONFIG platform with
  | None => Raise ValueError
  | Some config =>
      match environ h (skills_path_env config) with
      | Some p => Ok p
      | None => Ok (path_join (SKILLS_BASE_PATH h) (default_subdir config))
      end
  end.

(** The values [--platform] accepts. *)
Inductive PlatformChoice : Type :=
| Confluence | Jira | Splunk | CrossPlatform | AllPlatforms.

Definition platform_name (p : PlatformChoice) : str :=
  match p with
  | Confluence => lit "confluence"
  | Jira => lit "jira"
  | Splunk => lit "splunk"
  | CrossPlatform => lit "cross-platform"
  | AllPlatforms => lit "all"
  end.

(** The parsed command line. *)
Record Args : Type := {
  arg_scenario : str;
  arg_platform : PlatformChoice;
  arg_max_attempts : Z;
  arg_model : str;
  arg_judge_model : str;
  arg_mock : bool;
  arg_verbose : bool
}.

(** The plugin directory of a platform is found under [plugins/] or directly
    under the skills path. *)
Definition plugin_found (h : Host) (platform : str) : res bool :=
  (skills_path <- get_skills_path h platform ;;
   match platform_config PLATFORM_CONFIG platform with
   | None => Raise KeyError
   | Some config =>
       let plugin_path :=
         path_join (path_join skills_path (lit "plugins")) (plugin_name config) in
       if path_exists h plugin_path then Ok true
       else Ok (path_exists h (path_join skills_path (plugin_name config)))
   end)%py.

(** The first loop of [main]: [Ok false] is [sys.exit(1)]. *)
Fixpoint plugins_found (h : Host) (platforms : list str) : res bool :=
  match platforms with
  | [] => Ok true
  | p :: rest =>
      (found <- plugin_found h p ;;
       if found then plugins_found h rest else Ok false)%py
  end.

(** The second loop of [main]: one warning for each platform whose first
    credential variable is unset or empty. *)
Fixpoint credential_warnings (h : Host) (platforms : list str) : list str :=
  match platforms with
  | [] => []
  | p :: rest =>
      match platform_config PLATFORM_CONFIG p with
      | Some config =>
          match env_vars config with
          | primary_env :: _ =>
              match environ h primary_env with
              | Some (_ :: _) => credential_warnings h rest
              | _ => (lit "Warning: " ++ primary_env ++ lit " not set for " ++ p)
                       :: credential_warnings h rest
              end
          | [] => credential_warnings h rest
          end
      | None => credential_warnings h rest
      end
  end.

(** How the process ends. *)
Inductive Exit : Type :=
| ExitStatus (code : Z)
| Uncaught (e : exn).

Record MainRun : Type := {
  exit : Exit;
  warnings : list str;
  attempts : list AttemptLog
}.

(** [main], after the command line is parsed. *)
Definition main (E : Env) (h : Host) (args : Args) (w : World E)
  : MainRun * World E :=
  let required := get_required_platforms (platform_name (arg_platform args)) in
  match plugins_found h required with
  | Raise e => ({| exit := Uncaught e; warnings := []; attempts := [] |}, w)
  | Ok false => ({| exit := ExitStatus 1; warnings := []; attempts := [] |}, w)
  | Ok true =>
      let warned := credential_warnings h required in
      let '(r, logs, w') :=
        run_refinement_loop E
          {| scenario := arg_scenario args;
             platform := platform_name (arg_platform args);
             model := arg_model args;
             judge_model := arg_judge_model args;
             verbose := arg_verbose args;
             mock_mode := arg_mock args |}
          (arg_max_attempts args) w in
      ({| exit := match r with
                  | Ok true => ExitStatus 0
                  | Ok false => ExitStatus 1
                  | Raise e => Uncaught e
                  end;
          warnings := warned; attempts := logs |}, w')
  end.


(* ====================================================================== *)
(** * Notions used to state the properties *)
(* ====================================================================== *)

(** ** Runs of the loop as a relation *)

(** The state an attempt hands to the next iteration, if there is one. *)
Definition state_after (log : AttemptLog) : option LoopState :=
  match al_step log with
  | Passed => None
  | NoContext => Some (al_before log)
  | Fixed _ next => Some next
  | Crashed _ _ => None
  end.

(** The value the loop returns when it stops at this attempt. *)
Definition stops_with (log : AttemptLog) : option (res bool) :=
  match al_step log with
  | Passed => Some (Ok true)
  | Crashed _ e => Some (Raise e)
  | _ => None
  end.

(** The test reported a failure without a usable context: [not fix_ctx]. *)
Definition no_context (verdict : bool * option dict) : Prop :=
  snd verdict = None \/ snd verdict = Some [].

(** The call of the fix agent made in an attempt, if any. *)
Definition fix_of (log : AttemptLog) : option FixLog :=
  match al_step log with
  | Fixed fx _ => Some fx
  | Crashed (Some fx) _ => Some fx
  | _ => None
  end.

Section Runs.

Context (E : Env) (a : LoopArgs).

(** [Run numbers st logs r]: iterating over [numbers] from state [st] makes
    the attempts [logs] and ends with [r]. *)
Inductive Run : list Z -> LoopState -> list AttemptLog -> res bool -> Prop :=
| Run_exhausted st :
    Run [] st [] (Ok false)
| Run_stop n rest st w log r :
    log = fst (attempt_body E a st w n) ->
    stops_with log = Some r ->
    Run (n :: rest) st [log] r
| Run_continue n rest st w log next logs r :
    log = fst (attempt_body E a st w n) ->
    state_after log = Some next ->
    Run rest next logs r ->
    Run (n :: rest) st (log :: logs) r.

End Runs.

Section Steps.

Context (E : Env) (a : LoopArgs).

(** What an attempt may do, given the state before it, its number and the
    verdict of its test. *)
Inductive StepOf (st : LoopState) (n : Z) (verdict : bool * option dict)
  : Step -> Prop :=
| StepOf_passed :
    fst verdict = true ->
    StepOf st n verdict Passed
| StepOf_no_context :
    fst verdict = false -> no_context verdict ->
    StepOf st n verdict NoContext
| StepOf_unreadable ctx e :
    verdict = (false, Some ctx) -> ctx <> [] ->
    read_failure ctx = Raise e ->
    StepOf st n verdict (Crashed None e)
| StepOf_fix_raised ctx index suggestion w e :
    verdict = (false, Some ctx) -> ctx <> [] ->
    read_failure ctx = Ok (index, suggestion) ->
    fst (run_fix_agent E w ctx (platform a) (fix_session_id st)
           (attempt_history st)) = Raise e ->
    StepOf st n verdict
      (Crashed (Some {| fx_context := ctx;
                        fx_session_id := fix_session_id st;
                        fx_history := attempt_history st;
                        fx_result := Raise e |}) e)
| StepOf_fixed ctx index suggestion w r :
    verdict = (false, Some ctx) -> ctx <> [] ->
    read_failure ctx = Ok (index, suggestion) ->
    fst (run_fix_agent E w ctx (platform a) (fix_session_id st)
           (attempt_history st)) = Ok r ->
    StepOf st n verdict
      (Fixed {| fx_context := ctx;
                fx_session_id := fix_session_id st;
                fx_history := attempt_history st;
                fx_result := Ok r |}
             {| fix_session_id := session_id r;
                attempt_history :=
                  attempt_history st ++
                  [{| attempt := n; files := files_changed r;
                      result := lit "still failing";
                      error_summary := suggestion |}];
                last_failing_prompt_index := index |}).

End Steps.

(** The parts of what the loop functions return. *)
Definition outcome_of {W : Type} (run : res bool * list AttemptLog * W)
  : res bool := fst (fst run).

Definition attempts_of {W : Type} (run : res bool * list AttemptLog * W)
  : list AttemptLog := snd (fst run).

(** [x] occurs in [s] as a contiguous piece. *)
Definition infix (x s : str) : Prop := exists pre post, s = pre ++ x ++ post.

(** The prompt index an attempt reports: that of its fix context, when the
    test failed with a context the loop could read. *)
Definition reported_index (log : AttemptLog) : option (option Z) :=
  match al_verdict log with
  | (false, Some (m :: ctx)) =>
      match read_failure (m :: ctx) with
      | Ok (index, _) => Some index
      | Raise _ => None
      end
  | _ => None
  end.

(** The index reported by the most recent of [logs] that failed with
    context, or [current] when none did. *)
Fixpoint last_reported (logs : list AttemptLog) (current : option Z)
  : option Z :=
  match logs with
  | [] => current
  | log :: rest =>
      last_reported rest
        (match reported_index log with
         | Some index => index
         | None => current
         end)
  end.

(** The test of an attempt failed with a context the loop acts on. *)
Definition has_context (log : AttemptLog) : bool :=
  match al_verdict log with
  | (false, Some (_ :: _)) => true
  | _ => false
  end.

(** The record appended to the attempt history by an attempt in which the
    fix agent returned. *)
Definition record_of (log : AttemptLog) : list AttemptRecord :=
  match al_step log with
  | Fixed fx _ =>
      match fx_result fx, read_failure (fx_context fx) with
      | Ok r, Ok (_, suggestion) =>
          [{| attempt := al_attempt log;
              files := files_changed r;
              result := lit "still failing";
              error_summary := suggestion |}]
      | _, _ => []
      end
  | _ => []
  end.

(** The session id in force after a call of the fix agent that returned. *)
Definition session_after (fx : FixLog) : option str :=
  match fx_result fx with
  | Ok r => session_id r
  | Raise _ => fx_session_id fx
  end.

(** The calls of the fix agent made in a run, in order. *)
Definition fix_calls (logs : list AttemptLog) : list FixLog :=
  flat_map (fun log => match fix_of log with
                       | Some fx => [fx]
                       | None => []
                       end) logs.

(** The session id the agent's process hands back: the "session_id" of its
    JSON output.  [Some None] is an explicit null. *)
Definition returned_session (p : proc) : option (option str) :=
  match p with
  | Completed stdout _ _ =>
      match json_loads stdout with
      | Some (JObject output_data) =>
          match lookup (lit "session_id") output_data with
          | Some (JString s) => Some (Some s)
          | Some JNull => Some None
          | _ => None
          end
      | _ => None
      end
  | _ => None
  end.

(** Successive fix calls of one run: each is given the session id in force
    after the one before it, and only the last one may have raised. *)
Fixpoint session_chain (current : option str) (calls : list FixLog) : Prop :=
  match calls with
  | [] => True
  | fx :: rest =>
      fx_session_id fx = current
      /\ (rest = [] \/ exists r, fx_result fx = Ok r)
      /\ session_chain (session_after fx) rest
  end.

(* ---------------------------------------------------------------------- *)
(** *** The output parser as the specification words it (section 4.5)

    [extractJson] follows the three steps of the specification; it is what
    [read_fix_context] is compared with. *)

(** The text from its first opening brace on. *)
Fixpoint from_first_brace (s : str) : option str :=
  match s with
  | [] => None
  | c :: r => if (c =? 123)%N then Some s else from_first_brace r
  end.

(** Parsing a text as a JSON object. *)
Definition loads_object (s : str) : option dict :=
  match json_loads s with
  | Some (JObject members) => Some members
  | _ => None
  end.

Definition extractJson (rawText : str) : option dict :=
  let text := strip rawText in
  match loads_object text with
  | Some object => Some object                      (* (a) the whole text *)
  | None =>
      match from_first_brace text with
      | Some tail => loads_object tail              (* (b) from the first brace *)
      | None => None                                (* (c) nothing structured *)
      end
  end.

(** How the test runner reads an extracted object: all passed, or a failure
    with its context, or a failure without one. *)
Definition verdict_of (extracted : option dict) : bool * option dict :=
  match extracted with
  | Some ctx => if is_all_passed ctx then (true, None) else (false, Some ctx)
  | None => (false, None)
  end.

(* ====================================================================== *)
(** ** A scripted world

    A world that plays back two scripts: the outcomes of the successive test
    runs and the outcomes of the successive fix-agent runs.  A script that
    has run out answers with a timeout. *)
(* ====================================================================== *)

Module Scripted.

Definition world : Type := list proc * list proc.

Definition next_test (w : world) (_ : SkillTestCall) (_ : Z) : proc * world :=
  match fst w with
  | [] => (TimeoutExpired, w)
  | p :: rest => (p, (rest, snd w))
  end.

Definition next_fix (w : world) (_ : list str) (_ : Z) : proc * world :=
  match snd w with
  | [] => (TimeoutExpired, w)
  | p :: rest => (p, (fst w, rest))
  end.

(** The text helpers are kept small: the prompt head names the platform, the
    only file ever recognised in the agent's answer is skills/page/SKILL.md,
    and a list is shown between brackets. *)
Definition env : Env :=
  {| World := world;
     docker_run := next_test;
     claude_run := next_fix;
     render_failure :=
       fun _ platform => Ok (lit "A " ++ platform ++ lit " test has failed.");
     file_patterns :=
       fun text => if contains (lit "skills/page/SKILL.md") text
                   then [lit "skills/page/SKILL.md"] else [];
     repr_list := fun l => lit "[" ++ join (lit ", ") l ++ lit "]" |}.

Definition args : LoopArgs :=
  {| scenario := lit "page"; platform := lit "confluence";
     model := lit "sonnet"; judge_model := lit "haiku";
     verbose := false; mock_mode := true |}.

Definition completed (stdout : string) : proc := Completed (quoted stdout) [] 0.

(** Outputs of skill-test.py. *)
Definition all_passed : proc := completed "{'status': 'all_passed'}".

Definition failing_at_2 : proc :=
  completed "Running scenario page
{'failure': {'prompt_index': 2, 'prompt_text': 'List the pages of the space', 'refinement_suggestion': 'Mention the space key'}}".

Definition failing_at_3 : proc :=
  completed "{'failure': {'prompt_index': 3, 'prompt_text': 'Delete the page', 'refinement_suggestion': 'Ask for confirmation'}}".

Definition no_json : proc := completed "docker: image not found".

(** Outputs of the fix agent. *)
Definition fixed_new_session : proc :=
  completed "{'session_id': 'sess-1', 'result': 'I edited skills/page/SKILL.md'}".

Definition fixed_same_session : proc :=
  completed "{'result': 'I updated the examples'}".

(** The scenario of the specification: three steps; step 2 fails at the
    first attempt, step 3 at the second, and the third attempt passes. *)
Definition three_steps : world :=
  ([failing_at_2; failing_at_3; all_passed],
   [fixed_new_session; fixed_same_session]).

(** The first test gives no context; the later ones fail at step 2. *)
Definition blind_first : world :=
  ([no_json; failing_at_2; failing_at_2],
   [fixed_new_session; fixed_same_session]).

(** The fix agent times out at its second call. *)
Definition agent_stalls : world :=
  ([failing_at_2; failing_at_2; failing_at_2],
   [fixed_new_session; TimeoutExpired; fixed_same_session]).

Definition run_three_steps := run_refinement_loop env args 3 three_steps.
Definition run_blind_first := run_refinement_loop env args 3 blind_first.
Definition run_agent_stalls := run_refinement_loop env args 3 agent_stalls.

(** A world in which every sub-process times out. *)
Definition silent : world := ([], []).

(** A fix context as the test runner hands it over. *)
Definition sample_context : dict :=
  [(lit "failure", JObject [(lit "prompt_index", JInt 2)])].

Definition blank : AttemptLog :=
  {| al_attempt := 0; al_before := initial_state;
     al_call := test_call args 0 None;
     al_verdict := (false, None); al_step := NoContext |}.

(** The [i]-th attempt of a run (counting from 0). *)
Definition log_at (i : nat) (run : res bool * list AttemptLog * world)
  : AttemptLog := nth i (attempts_of run) blank.

Definition no_fix : FixLog :=
  {| fx_context := []; fx_session_id := None; fx_history := [];
     fx_result := Raise IllTyped |}.

(** The [j]-th call of the fix agent in a run (counting from 0). *)
Definition fix_at (j : nat) (run : res bool * list AttemptLog * world)
  : FixLog := nth j (fix_calls (attempts_of run)) no_fix.

(** A machine with every plugin directory in place and no credentials. *)
Definition host_without_credentials : Host :=
  {| environ := fun _ => None;
     path_exists := fun _ => true;
     SKILLS_BASE_PATH := lit "/work" |}.

(** A machine with credentials but without the plugin directories. *)
Definition host_without_plugins : Host :=
  {| environ := fun name =>
       if str_eqb name (lit "CONFLUENCE_API_TOKEN") then Some (lit "token")
       else None;
     path_exists := fun _ => false;
     SKILLS_BASE_PATH := lit "/work" |}.

Definition command_line : Args :=
  {| arg_scenario := lit "page"; arg_platform := Confluence;
     arg_max_attempts := 3; arg_model := lit "sonnet";
     arg_judge_model := lit "haiku"; arg_mock := true;
     arg_verbose := false |}.

End Scripted.

(* ====================================================================== *)
(** * Notions used to state further properties *)
(* ====================================================================== *)

(** The part of [s] read before [rest] ends with the character [c]. *)
Definition closed_by (c : N) (s rest : str) : Prop :=
  exists used, s = used ++ c :: rest.

(** The text ends with the character [c]. *)
Definition ends_with (c : N) (s : str) : Prop := closed_by c s [].


(** A content block of the agent's answer: an object whose "type" is [kind]
    and, for the type "text", whose "text" is the string [text].  Blocks of
    other types hold what they like. *)
Definition is_block (kind text : str) (v : json) : Prop :=
  exists members,
    v = JObject members
    /\ lookup (lit "type") members = Some (JString kind)
    /\ (str_eqb kind (lit "text") = true ->
        lookup (lit "text") members = Some (JString text)).

(** The texts of the blocks of type "text", in order. *)
Definition texts_of (blocks : list (str * str)) : list str :=
  map snd (filter (fun b => str_eqb (fst b) (lit "text")) blocks).

(* ====================================================================== *)
(** * The docker command of [run_skill_test] *)
(* ====================================================================== *)

(** The list [cmd] that [run_skill_test] hands to [subprocess.run].  Paths
    are the strings that name them, as for [Host]; [AS_DEMO_PATH] is the
    module constant, the directory above that of the script.  The [mkdir] of
    the checkpoint directory on the host adds nothing to the command and is
    left out: the command is the one built when it succeeds. *)

Section DockerCommand.

Context (h : Host) (AS_DEMO_PATH : str).

(** [PLATFORM_CONFIG[p]] *)
Definition config_of (p : str) : res PlatformConfig :=
  match platform_config PLATFORM_CONFIG p with
  | Some config => Ok config
  | None => Raise KeyError
  end.

(** [os.environ.get(var, '')] *)
Definition environ_get (var : str) : str :=
  match environ h var with
  | Some value => value
  | None => []
  end.

(** The first loop: the credentials of every required platform and, in mock
    mode, its mock switch. *)
Fixpoint credential_options (mock_mode : bool) (platforms : list str)
  : res (list str) :=
  match platforms with
  | [] => Ok []
  | p :: rest =>
      (config <- config_of p ;;
       more <- credential_options mock_mode rest ;;
       Ok (flat_map (fun var => [lit "-e"; var ++ lit "=" ++ environ_get var])
                    (env_vars config)
           ++ (if mock_mode
               then [lit "-e"; mock_env_var config ++ lit "=true"]
               else [])
           ++ more))%py
  end.

(** The credential files of Claude, when they exist. *)
Definition secret_mounts : list str :=
  let secrets_dir := path_join AS_DEMO_PATH (lit "secrets") in
  (if path_exists h (path_join secrets_dir (lit ".credentials.json"))
   then [lit "-v";
         secrets_dir
         ++ lit "/.credentials.json:/home/devuser/.claude/.credentials.json:ro"]
   else [])
  ++ (if path_exists h (path_join secrets_dir (lit ".claude.json"))
      then [lit "-v";
            secrets_dir
            ++ lit "/.claude.json:/home/devuser/.claude/.claude.json:ro"]
      else []).

(** The second loop: the plugin and the library of every required platform,
    when they exist. *)
Fixpoint source_mounts (platforms : list str) : res (list str) :=
  match platforms with
  | [] => Ok []
  | p :: rest =>
      (config <- config_of p ;;
       skills_path <- get_skills_path h p ;;
       let under_plugins :=
         path_join (path_join skills_path (lit "plugins")) (plugin_name config) in
       let plugin_path :=
         if path_exists h under_plugins then under_plugins
         else path_join skills_path (plugin_name config) in
       let lib_path := path_join skills_path (lib_name config) in
       more <- source_mounts rest ;;
       Ok ((if path_exists h plugin_path
            then [lit "-v";
                  plugin_path ++ lit ":/home/devuser/.claude/plugins/cache/"
                  ++ plugin_name config ++ lit "/" ++ plugin_name config
                  ++ lit "/dev:ro"]
            else [])
           ++ (if path_exists h lib_path
               then [lit "-v";
                     lib_path ++ lit ":/opt/" ++ lib_name config ++ lit ":ro"]
               else [])
           ++ more))%py
  end.

(** The third loop: [(lib_installs, symlink_cmds)]. *)
Fixpoint setup_commands (platforms : list str) : res (list str * list str) :=
  match platforms with
  | [] => Ok ([], [])
  | p :: rest =>
      (config <- config_of p ;;
       more <- setup_commands rest ;;
       let lib_path := lit "/opt/" ++ lib_name config in
       let plugin_cache :=
         lit "/home/devuser/.claude/plugins/cache/" ++ plugin_name config
         ++ lit "/" ++ plugin_name config in
       Ok ((lit "pip install -q -e " ++ lib_path ++ lit " 2>/dev/null")
             :: fst more,
           (lit "rm -f " ++ plugin_cache
            ++ lit "/*[0-9]* 2>/dev/null; ln -sf dev " ++ plugin_cache
            ++ lit "/latest 2>/dev/null")
             :: snd more))%py
  end.

(** [scenario_path] *)
Definition scenario_file (platform scenario : str) : res str :=
  if str_eqb platform (lit "cross-platform") || str_eqb platform (lit "all")
  then Ok (lit "/workspace/scenarios/cross-platform/" ++ scenario
           ++ lit ".prompts")
  else
    (config <- config_of platform ;;
     Ok (lit "/workspace/scenarios/" ++ scenarios_path config ++ lit "/"
         ++ scenario ++ lit ".prompts"))%py.

(** [str(get_skills_path(p)) for p in required_platforms] *)
Fixpoint skills_paths_of (platforms : list str) : res (list str) :=
  match platforms with
  | [] => Ok []
  | p :: rest =>
      (path <- get_skills_path h p ;;
       more <- skills_paths_of rest ;;
       Ok (path :: more))%py
  end.

(** [inner_cmd] *)
Definition inner_command (c : SkillTestCall) : res str :=
  let required_platforms := get_required_platforms (st_platform c) in
  (setup <- setup_commands required_platforms ;;
   let install_cmd := join (lit "; ") (fst setup) in
   let symlink_cmd := join (lit "; ") (snd setup) in
   scenario_path <- scenario_file (st_platform c) (st_scenario c) ;;
   paths <- (if st_fix_context c then skills_paths_of required_platforms
             else Ok []) ;;
   Ok (install_cmd ++ lit "; "
       ++ symlink_cmd ++ lit "; "
       ++ lit "mkdir -p /tmp/checkpoints; "
       ++ lit "python /workspace/skill-test.py " ++ scenario_path ++ lit " "
       ++ lit "--model " ++ st_model c
       ++ lit " --judge-model " ++ st_judge_model c
       ++ test_options c (join (lit ",") paths)))%py.

(** [cmd] *)
Definition docker_command (c : SkillTestCall) : res (list str) :=
  let required_platforms := get_required_platforms (st_platform c) in
  (credentials <- credential_options (st_mock_mode c) required_platforms ;;
   sources <- source_mounts required_platforms ;;
   inner_cmd <- inner_command c ;;
   Ok ([lit "docker"; lit "run"; lit "--rm"]
       ++ credentials
       ++ [lit "-e"; lit "SKILL_TEST_PLATFORM=" ++ st_platform c]
       ++ secret_mounts
       ++ sources
       ++ [lit "-v"; lit "/tmp/checkpoints:/tmp/checkpoints"]
       ++ [lit "--entrypoint"; lit "bash"; lit "as-demo-container:latest";
           lit "-c"]
       ++ [inner_cmd]))%py.

End DockerCommand.

(** The arguments made of a list of options, each a flag and its value. *)
Definition flags (options : list (str * str)) : list str :=
  flat_map (fun o => [fst o; snd o]) options.

(** The command holds the option [flag value]. *)
Definition has_option (flag value : str) (cmd : list str) : Prop :=
  exists before after, cmd = before ++ flag :: value :: after.

(** The platform is one of the table, or a mode that stands for all. *)
Definition known_platform (platform : str) : bool :=
  str_eqb platform (lit "cross-platform") || str_eqb platform (lit "all")
  || match platform_config PLATFORM_CONFIG platform with
     | Some _ => true
     | None => false
     end.

(** What an option of the command may be: a variable of the environment, or
    a mount that is read-only. *)
Definition env_option (o : str * str) : Prop := fst o = lit "-e".

Definition read_only_mount (o : str * str) : Prop :=
  fst o = lit "-v" /\ exists source, snd o = source ++ lit ":ro".

(* ====================================================================== *)
(** ** Further scripted inputs *)
(* ====================================================================== *)

Module Samples.

Import Scripted.

(** The output of a test run that is a JSON list around the verdict. *)
Definition list_output : str := quoted "[{'status': 'all_passed'}]".

(** A line of log, and the failure object printed after it. *)
Definition log_line : str := lit "Running scenario page" ++ [10%N].

Definition failure_text : str := quoted "{'failure': {'prompt_index': 2}}".

(** The fix agent answers with a JSON list. *)
Definition agent_prints_list : world :=
  ([failing_at_2; all_passed], [completed "[1, 2]"]).

(** The fix agent answers with plain text. *)
Definition plain_answer : str := lit "I could not find the skill".

Definition agent_prints_text : world :=
  ([], [Completed plain_answer [] 1]).

(** An answer of the fix agent made of content blocks. *)
Definition answer_in_blocks : str :=
  quoted "{'content': [{'type': 'text', 'text': 'I edited the skill.'}, {'type': 'tool_use', 'name': 'Edit'}, {'type': 'text', 'text': 'Done.'}]}".

Definition answer_data : dict :=
  [(lit "content",
    JArray [JObject [(lit "type", JString (lit "text"));
                     (lit "text", JString (lit "I edited the skill."))];
            JObject [(lit "type", JString (lit "tool_use"));
                     (lit "name", JString (lit "Edit"))];
            JObject [(lit "type", JString (lit "text"));
                     (lit "text", JString (lit "Done."))]])].

Definition answer_content : list json :=
  match lookup (lit "content") answer_data with
  | Some (JArray content) => content
  | _ => []
  end.

Definition answer_blocks : list (str * str) :=
  [(lit "text", lit "I edited the skill."); (lit "tool_use", []);
   (lit "text", lit "Done.")].

(** What the agent returns for [fixed_new_session]. *)
Definition new_session_result : FixResult :=
  {| success := true;
     files_changed := [lit "skills/page/SKILL.md"];
     summary := lit "I edited skills/page/SKILL.md";
     session_id := Some (lit "sess-1") |}.

(** A command line that asks for no attempt. *)
Definition no_attempts_line : Args :=
  {| arg_scenario := lit "page"; arg_platform := Confluence;
     arg_max_attempts := 0; arg_model := lit "sonnet";
     arg_judge_model := lit "haiku"; arg_mock := true;
     arg_verbose := false |}.

(** The directory above that of the script. *)
Definition as_demo : str := lit "/work/as-demo/src".

(** The call of the second attempt after a failure at prompt 2. *)
Definition second_call : SkillTestCall := test_call args 2 (Some 2%Z).

(** The same call for a platform that the table does not know. *)
Definition unknown_call : SkillTestCall :=
  test_call {| scenario := lit "page"; platform := lit "github";
               model := lit "sonnet"; judge_model := lit "haiku";
               verbose := false; mock_mode := true |} 2 (Some 2%Z).

Definition command_on (h : Host) : list str :=
  match docker_command h as_demo second_call with
  | Ok cmd => cmd
  | Raise _ => []
  end.

Definition confluence_config : PlatformConfig :=
  match platform_config PLATFORM_CONFIG (lit "confluence") with
  | Some config => config
  | None =>
      {| skills_path_env := []; default_subdir := []; plugin_name := [];
         lib_name := []; lib_package := []; env_vars := [];
         mock_env_var := []; scenarios_path := [] |}
  end.

End Samples.
(* ====================================================================== *)
(** * Properties *)
(* ====================================================================== *)

Section RunFacts.

Context (E : Env) (a : LoopArgs).

Lemma attempt_body_log (st : LoopState) (w : World E) (n : Z) :
  let log := fst (attempt_body E a st w n) in
  al_attempt log = n /\ al_before log = st
  /\ al_call log = test_call a n (last_failing_prompt_index st)
  /\ al_verdict log = fst (run_skill_test E w (al_call log))
  /\ StepOf E a st n (al_verdict log) (al_step log).
Proof.
  unfold attempt_body.
  destruct (run_skill_test E w (test_call a n (last_failing_prompt_index st)))
    as [[all_passed fix_ctx] w1] eqn:Htest.
  destruct all_passed.
  - cbn. rewrite Htest. repeat split. now constructor.
  - destruct fix_ctx as [[|m ctx]|].
    + cbn. rewrite Htest. repeat split. constructor; [reflexivity | now right].
    + destruct (read_failure (m :: ctx)) as [[index suggestion]|e] eqn:Hread.
      * destruct (run_fix_agent E w1 (m :: ctx) (platform a) (fix_session_id st)
                    (attempt_history st)) as [[r|e] w2] eqn:Hfix;
          cbn; rewrite Htest; repeat split.
        -- eapply StepOf_fixed with (w := w1); eauto; try discriminate.
           now rewrite Hfix.
        -- eapply StepOf_fix_raised with (w := w1); eauto; try discriminate.
           now rewrite Hfix.
      * cbn. rewrite Htest. repeat split.
        eapply StepOf_unreadable; eauto; discriminate.
    + cbn. rewrite Htest. repeat split. constructor; [reflexivity | now left].
Qed.

(** The loop function makes a run. *)
Lemma attempts_from_Run (numbers : list Z) :
  forall st w,
    Run E a numbers st (snd (fst (attempts_from E a numbers st w)))
        (fst (fst (attempts_from E a numbers st w))).
Proof.
  induction numbers as [|n rest IH]; intros st w; cbn [attempts_from].
  - constructor.
  - destruct (attempt_body E a st w n) as [log w'] eqn:Hbody.
    assert (Hlog : log = fst (attempt_body E a st w n)) by now rewrite Hbody.
    destruct (al_step log) eqn:Hstep.
    + cbn. eapply Run_stop; eauto. unfold stops_with. now rewrite Hstep.
    + specialize (IH st w').
      destruct (attempts_from E a rest st w') as [[r logs] w''].
      cbn in *. eapply Run_continue; eauto.
      unfold state_after. rewrite Hstep.
      f_equal. rewrite Hlog.
      now destruct (attempt_body_log st w n) as (_ & -> & _).
    + specialize (IH next w').
      destruct (attempts_from E a rest next w') as [[r logs] w''].
      cbn in *. eapply Run_continue; eauto.
      unfold state_after. now rewrite Hstep.
    + cbn. eapply Run_stop; eauto. unfold stops_with. now rewrite Hstep.
Qed.


Lemma Run_In_body (numbers : list Z) (st : LoopState) (logs : list AttemptLog)
      (r : res bool) :
  Run E a numbers st logs r ->
  forall log, In log logs ->
  exists st' w n, log = fst (attempt_body E a st' w n).
Proof.
  induction 1 as [st | n rest st w log r Hlog Hstop
                 | n rest st w log next logs r Hlog Hnext Hrun IH];
    intros l Hin.
  - destruct Hin.
  - destruct Hin as [<-|[]]. eauto.
  - destruct Hin as [<-|Hin]; eauto.
Qed.

Lemma loop_is_Run (max_attempts : Z) (w : World E) :
  Run E a (attempt_numbers max_attempts) initial_state
      (attempts_of (run_refinement_loop E a max_attempts w))
      (outcome_of (run_refinement_loop E a max_attempts w)).
Proof. apply attempts_from_Run. Qed.

End RunFacts.

Lemma infix_app_l (x s t : str) : infix x s -> infix x (s ++ t).
Proof.
  intros (pre & post & ->). exists pre, (post ++ t).
  now rewrite <- !app_assoc.
Qed.

Lemma infix_app_r (x s t : str) : infix x t -> infix x (s ++ t).
Proof.
  intros (pre & post & ->). exists (s ++ pre), post.
  now rewrite <- !app_assoc.
Qed.

Lemma infix_refl (x : str) : infix x x.
Proof. exists [], []. now rewrite app_nil_r. Qed.

Lemma test_options_fork (c : SkillTestCall) (f p : Z) (paths : str) :
  st_fork_from c = Some f -> st_prompt_index c = Some p ->
  infix (lit " --fork-from " ++ str_of_int f
         ++ lit " --prompt-index " ++ str_of_int p)
        (test_options c paths).
Proof.
  intros Hf Hp. unfold test_options. rewrite Hf, Hp.
  do 3 apply infix_app_r.
  rewrite !app_assoc. do 3 apply infix_app_l.
  rewrite <- !app_assoc. apply infix_refl.
Qed.

Lemma fork_args_positive (n k : Z) :
  (1 < n)%Z -> (0 < k)%Z -> fork_args n (Some k) = (Some (k - 1)%Z, Some k).
Proof.
  intros Hn Hk. unfold fork_args.
  replace (n >? 1)%Z with true by lia. now replace (k >? 0)%Z with true by lia.
Qed.

Lemma fork_args_zero (n : Z) :
  (1 < n)%Z -> fork_args n (Some 0%Z) = (None, Some 0%Z).
Proof.
  intros Hn. unfold fork_args. now replace (n >? 1)%Z with true by lia.
Qed.

Lemma fork_args_unknown (n : Z) : fork_args n None = (None, None).
Proof. unfold fork_args. now destruct (n >? 1)%Z. Qed.

(** C1. In every run, an attempt after the first is started from the last
    failing prompt index recorded before it: for an index [k > 0] the test is
    called with fork point [k - 1] and prompt index [k] (and both reach the
    command line of skill-test.py); for index 0 it is called without a fork
    point and with prompt index 0; with no index recorded it is called with
    neither. *)
Theorem C1_fork_point (E : Env) (a : LoopArgs) (max_attempts : Z)
        (w : World E) (log : AttemptLog) :
  In log (attempts_of (run_refinement_loop E a max_attempts w)) ->
  (1 < al_attempt log)%Z ->
  (forall k, last_failing_prompt_index (al_before log) = Some k -> (0 < k)%Z ->
     st_fork_from (al_call log) = Some (k - 1)%Z
     /\ st_prompt_index (al_call log) = Some k
     /\ forall paths,
          infix (lit " --fork-from " ++ str_of_int (k - 1)
                 ++ lit " --prompt-index " ++ str_of_int k)
                (test_options (al_call log) paths))
  /\ (last_failing_prompt_index (al_before log) = Some 0%Z ->
      st_fork_from (al_call log) = None
      /\ st_prompt_index (al_call log) = Some 0%Z)
  /\ (last_failing_prompt_index (al_before log) = None ->
      st_fork_from (al_call log) = None
      /\ st_prompt_index (al_call log) = None).
Proof.
  intros Hin Hn.
  destruct (Run_In_body (loop_is_Run E a max_attempts w) log Hin)
    as (st & w' & n & ->).
  destruct (attempt_body_log E a st w' n) as (Hn' & Hst & Hcall & _).
  rewrite Hn' in Hn. rewrite Hst. clear Hn' Hst.
  split; [|split].
  - intros k Hk Hpos.
    assert (Hf : st_fork_from (al_call (fst (attempt_body E a st w' n)))
                 = Some (k - 1)%Z)
      by (rewrite Hcall, Hk; cbn [test_call st_fork_from];
          now rewrite fork_args_positive).
    assert (Hp : st_prompt_index (al_call (fst (attempt_body E a st w' n)))
                 = Some k)
      by (rewrite Hcall, Hk; cbn [test_call st_prompt_index];
          now rewrite fork_args_positive).
    repeat split; auto. intros paths. now apply test_options_fork.
  - intros Hk. rewrite Hcall, Hk. cbn [test_call st_fork_from st_prompt_index].
    now rewrite fork_args_zero.
  - intros Hk. rewrite Hcall, Hk. cbn [test_call st_fork_from st_prompt_index].
    now rewrite fork_args_unknown.
Qed.

Section IndexFacts.

Context (E : Env) (a : LoopArgs).

Lemma state_after_index (st : LoopState) (w : World E) (n : Z) (next : LoopState) :
  state_after (fst (attempt_body E a st w n)) = Some next ->
  last_failing_prompt_index next =
    match reported_index (fst (attempt_body E a st w n)) with
    | Some index => index
    | None => last_failing_prompt_index st
    end.
Proof.
  destruct (attempt_body_log E a st w n) as (_ & Hst & _ & _ & Hstep).
  unfold state_after, reported_index.
  destruct Hstep as [Hv | Hv Hno | ctx e Hv Hne Hread
                    | ctx index suggestion w1 e Hv Hne Hread Hfix
                    | ctx index suggestion w1 r Hv Hne Hread Hfix];
    intros Hnext; try discriminate.
  - injection Hnext as <-. rewrite Hst.
    destruct (al_verdict (fst (attempt_body E a st w n))) as [b c].
    unfold no_context in Hno. cbn in Hv, Hno. subst b.
    now destruct Hno as [-> | ->].
  - injection Hnext as <-. rewrite Hv.
    destruct ctx as [|m ctx]; [congruence|]. now rewrite Hread.
Qed.

Lemma Run_index (numbers : list Z) (st : LoopState) (logs : list AttemptLog)
      (r : res bool) :
  Run E a numbers st logs r ->
  forall i log, nth_error logs i = Some log ->
    last_failing_prompt_index (al_before log)
    = last_reported (firstn i logs) (last_failing_prompt_index st)
    /\ al_call log = test_call a (al_attempt log)
                       (last_failing_prompt_index (al_before log)).
Proof.
  induction 1 as [st | n rest st w log r Hlog Hstop
                 | n rest st w log next logs r Hlog Hnext Hrun IH];
    intros i l Hi.
  - now destruct i.
  - destruct i as [|[|i]]; try discriminate. injection Hi as <-.
    subst log. destruct (attempt_body_log E a st w n) as (-> & -> & -> & _).
    now split.
  - destruct i as [|i].
    + injection Hi as <-. subst log.
      destruct (attempt_body_log E a st w n) as (-> & -> & -> & _).
      now split.
    + cbn in Hi. destruct (IH i l Hi) as [Hidx Hcall]. split; [|exact Hcall].
      rewrite Hidx. cbn [firstn last_reported]. f_equal.
      subst log. now apply state_after_index.
Qed.

Lemma Run_no_context_keeps (numbers : list Z) (st : LoopState)
      (logs : list AttemptLog) (r : res bool) :
  Run E a numbers st logs r ->
  forall i l1 l2,
    nth_error logs i = Some l1 -> nth_error logs (S i) = Some l2 ->
    no_context (al_verdict l1) ->
    al_before l2 = al_before l1 /\ al_step l1 = NoContext.
Proof.
  induction 1 as [st | n rest st w log r Hlog Hstop
                 | n rest st w log next logs r Hlog Hnext Hrun IH];
    intros i l1 l2 H1 H2 Hno.
  - now destruct i.
  - destruct i as [|i]; cbn in H1, H2; [discriminate | now destruct i].
  - destruct i as [|i].
    + injection H1 as <-. cbn in H2.
      assert (Hl2 : al_before l2 = next).
      { inversion Hrun; subst; cbn in H2; try discriminate;
          injection H2 as <-; apply attempt_body_log. }
      rewrite Hl2. clear IH Hrun H2 Hl2. subst log.
      destruct (attempt_body_log E a st w n) as (_ & Hst & _ & _ & Hstep).
      unfold state_after in Hnext. rewrite Hst.
      destruct Hstep as [Hv | Hv Hno' | ctx e Hv Hne Hread
                        | ctx index suggestion w1 e Hv Hne Hread Hfix
                        | ctx index suggestion w1 r' Hv Hne Hread Hfix];
        try discriminate.
      * injection Hnext as <-. now rewrite Hst.
      * exfalso. rewrite Hv in Hno. destruct Hno as [Hno|Hno]; cbn in Hno;
          congruence.
    + cbn in H1, H2. eauto.
Qed.

End IndexFacts.

Lemma last_reported_none (logs : list AttemptLog) (current : option Z) :
  (forall l, In l logs -> no_context (al_verdict l)) ->
  last_reported logs current = current.
Proof.
  revert current; induction logs as [|log logs IH]; intros current Hall;
    [reflexivity|].
  cbn [last_reported]. rewrite IH by (intros; apply Hall; now right).
  assert (Hno : no_context (al_verdict log)) by (apply Hall; now left).
  unfold reported_index. destruct (al_verdict log) as [b [[|m c]|]];
    destruct b; try reflexivity.
  destruct Hno as [Hno|Hno]; cbn in Hno; discriminate.
Qed.

(** C10. Within a run the recorded last failing prompt index changes only at
    an attempt that fails with a failure context: (1) before every attempt it
    is the index reported by the most recent earlier attempt that failed with
    context (none recorded when there is no such attempt), and the test call
    of the attempt is computed from exactly that index; (2) an attempt that
    fails with no context leaves it as it was for the next attempt; (3) as
    long as no attempt has produced a context, every attempt is called with
    neither fork point nor prompt index, that is, from the beginning. *)
Theorem C10_index_only_from_context (E : Env) (a : LoopArgs) (max_attempts : Z)
        (w : World E) :
  let logs := attempts_of (run_refinement_loop E a max_attempts w) in
  (forall i log, nth_error logs i = Some log ->
     last_failing_prompt_index (al_before log)
       = last_reported (firstn i logs) None
     /\ al_call log
        = test_call a (al_attempt log) (last_reported (firstn i logs) None))
  /\ (forall i l1 l2,
        nth_error logs i = Some l1 -> nth_error logs (S i) = Some l2 ->
        no_context (al_verdict l1) ->
        last_failing_prompt_index (al_before l2)
          = last_failing_prompt_index (al_before l1)
        /\ al_call l2 = test_call a (al_attempt l2)
                          (last_failing_prompt_index (al_before l1)))
  /\ (forall i log, nth_error logs i = Some log ->
        (forall l, In l (firstn i logs) -> no_context (al_verdict l)) ->
        st_fork_from (al_call log) = None
        /\ st_prompt_index (al_call log) = None).
Proof.
  intros logs. pose proof (loop_is_Run E a max_attempts w) as Hrun.
  fold logs in Hrun. split; [|split].
  - intros i log Hi. destruct (Run_index Hrun i Hi) as [Hidx Hcall].
    cbn in Hidx. split; [exact Hidx|]. now rewrite <- Hidx.
  - intros i l1 l2 H1 H2 Hno.
    destruct (Run_no_context_keeps Hrun i H1 H2 Hno) as [Hsame _].
    destruct (Run_index Hrun (S i) H2) as [_ Hcall].
    rewrite <- Hsame. now split.
  - intros i log Hi Hall. destruct (Run_index Hrun i Hi) as [Hidx Hcall].
    cbn in Hidx. rewrite last_reported_none in Hidx by exact Hall.
    rewrite Hcall, Hidx. cbn. now rewrite fork_args_unknown.
Qed.

Section CountFacts.

Context (E : Env) (a : LoopArgs).

Lemma Run_numbers (numbers : list Z) (st : LoopState) (logs : list AttemptLog)
      (r : res bool) :
  Run E a numbers st logs r ->
  length logs <= length numbers
  /\ map al_attempt logs = firstn (length logs) numbers.
Proof.
  induction 1 as [st | n rest st w log r Hlog Hstop
                 | n rest st w log next logs r Hlog Hnext Hrun [IHlen IHmap]].
  - split; [apply le_n | reflexivity].
  - subst log. destruct (attempt_body_log E a st w n) as (Hn & _).
    cbn. rewrite Hn. split; [lia | reflexivity].
  - subst log. destruct (attempt_body_log E a st w n) as (Hn & _).
    cbn. rewrite Hn, IHmap. split; [lia | reflexivity].
Qed.

Lemma stops_with_step (log : AttemptLog) (r : res bool) :
  stops_with log = Some r ->
  state_after log = None
  /\ (r = Ok true /\ al_step log = Passed
      \/ exists fx e, r = Raise e /\ al_step log = Crashed fx e).
Proof.
  unfold stops_with, state_after. destruct (al_step log); intros H;
    try discriminate; injection H as <-; split; eauto.
Qed.

Lemma passed_iff (st : LoopState) (w : World E) (n : Z) :
  let log := fst (attempt_body E a st w n) in
  al_step log = Passed <-> fst (al_verdict log) = true.
Proof.
  destruct (attempt_body_log E a st w n) as (_ & _ & _ & _ & Hstep).
  cbn zeta. split; intros H.
  - rewrite H in Hstep. now inversion Hstep.
  - destruct Hstep as [Hv | Hv Hno | ctx e Hv Hne Hread
                      | ctx index suggestion w1 e Hv Hne Hread Hfix
                      | ctx index suggestion w1 r' Hv Hne Hread Hfix];
      try reflexivity; try (rewrite Hv in H; discriminate); congruence.
Qed.

(** A run without a success and without an escaping exception uses up all
    the attempt numbers and returns False. *)
Lemma Run_exhausts (numbers : list Z) (st : LoopState) (logs : list AttemptLog)
      (r : res bool) :
  Run E a numbers st logs r ->
  (forall log, In log logs -> fst (al_verdict log) = false) ->
  (forall e, r <> Raise e) ->
  length logs = length numbers /\ r = Ok false.
Proof.
  induction 1 as [st | n rest st w log r Hlog Hstop
                 | n rest st w log next logs r Hlog Hnext Hrun IH];
    intros Hfail Hraise.
  - now split.
  - exfalso. destruct (stops_with_step log Hstop) as [_ [[-> Hp] | (fx & e & -> & _)]].
    + subst log. apply passed_iff in Hp.
      rewrite Hfail in Hp by now left. discriminate.
    + now apply (Hraise e).
  - destruct IH as [Hlen Hr]; [intros; apply Hfail; now right | exact Hraise |].
    cbn. now rewrite Hlen.
Qed.

(** A success ends the run at once. *)
Lemma Run_success_last (numbers : list Z) (st : LoopState)
      (logs : list AttemptLog) (r : res bool) :
  Run E a numbers st logs r ->
  forall i log, nth_error logs i = Some log -> fst (al_verdict log) = true ->
    r = Ok true /\ length logs = S i /\ al_step log = Passed.
Proof.
  induction 1 as [st | n rest st w log r Hlog Hstop
                 | n rest st w log next logs r Hlog Hnext Hrun IH];
    intros i l Hi Hpass.
  - now destruct i.
  - destruct i as [|[|i]]; try discriminate. injection Hi as <-.
    assert (Hp : al_step log = Passed) by (subst log; now apply passed_iff).
    unfold stops_with in Hstop. rewrite Hp in Hstop. injection Hstop as <-.
    now repeat split.
  - destruct i as [|i].
    + injection Hi as <-. exfalso.
      assert (Hp : al_step log = Passed) by (subst log; now apply passed_iff).
      unfold state_after in Hnext. now rewrite Hp in Hnext.
    + cbn in Hi. destruct (IH i l Hi Hpass) as (? & ? & ?).
      cbn. repeat split; auto.
Qed.

(** After an attempt that hands a state on, the next attempt number, if there
    is one, is tried from that state. *)
Lemma Run_next (numbers : list Z) (st : LoopState) (logs : list AttemptLog)
      (r : res bool) :
  Run E a numbers st logs r ->
  forall i log handed n',
    nth_error logs i = Some log -> state_after log = Some handed ->
    nth_error numbers (S i) = Some n' ->
    exists next, nth_error logs (S i) = Some next
                 /\ al_attempt next = n' /\ al_before next = handed.
Proof.
  induction 1 as [st | n rest st w log r Hlog Hstop
                 | n rest st w log next logs r Hlog Hnext Hrun IH];
    intros i l handed n' Hi Hafter Hn'.
  - now destruct i.
  - destruct i as [|[|i]]; try discriminate. injection Hi as <-.
    apply stops_with_step in Hstop. destruct Hstop as [Hnone _]. congruence.
  - destruct i as [|i].
    + injection Hi as <-. rewrite Hnext in Hafter. injection Hafter as <-.
      cbn in Hn'. cbn [nth_error].
      inversion Hrun as [st' | n0 rest0 st' w' log' r' Hl' Hs'
                        | n0 rest0 st' w' log' next' logs' r' Hl' Hs' Hr'];
        subst; cbn in Hn'; try discriminate; injection Hn' as <-;
        eexists; (split; [reflexivity|]);
        match goal with
        | |- context [attempt_body E a ?s ?w0 ?k] =>
            destruct (attempt_body_log E a s w0 k) as (-> & -> & _)
        end; now split.
    + cbn in Hi, Hn'. cbn [nth_error]. eauto.
Qed.

End CountFacts.

Lemma attempt_numbers_length (m : Z) :
  length (attempt_numbers m) = Z.to_nat m.
Proof. unfold attempt_numbers. now rewrite length_map, length_seq. Qed.

Lemma firstn_seq_le (k start len : nat) :
  k <= len -> firstn k (seq start len) = seq start k.
Proof.
  revert start len; induction k as [|k IH]; intros start [|len] Hk;
    try reflexivity; [lia|].
  cbn. f_equal. apply IH. lia.
Qed.

Lemma attempt_numbers_firstn (k : nat) (m : Z) :
  k <= Z.to_nat m ->
  firstn k (attempt_numbers m) = attempt_numbers (Z.of_nat k).
Proof.
  intros Hk. unfold attempt_numbers.
  now rewrite firstn_map, firstn_seq_le, Nat2Z.id.
Qed.

Lemma attempt_numbers_nth (m : Z) (i : nat) :
  i < Z.to_nat m ->
  nth_error (attempt_numbers m) i = Some (Z.of_nat (S i)).
Proof.
  intros Hi. unfold attempt_numbers.
  rewrite nth_error_map, nth_error_seq.
  destruct (Nat.ltb_spec i (Z.to_nat m)); [|lia].
  reflexivity.
Qed.


Section HistoryFacts.

Context (E : Env) (a : LoopArgs).

Lemma no_context_step (st : LoopState) (w : World E) (n : Z) :
  let log := fst (attempt_body E a st w n) in
  fst (al_verdict log) = false -> no_context (al_verdict log) ->
  al_step log = NoContext.
Proof.
  destruct (attempt_body_log E a st w n) as (_ & _ & _ & _ & Hstep).
  cbn zeta. intros Hfail Hno.
  destruct Hstep as [Hv | Hv Hno' | ctx e Hv Hne Hread
                    | ctx index suggestion w1 e Hv Hne Hread Hfix
                    | ctx index suggestion w1 r' Hv Hne Hread Hfix];
    try reflexivity; try congruence;
    exfalso; rewrite Hv in Hno; destruct Hno as [Hno|Hno]; cbn in Hno;
    congruence.
Qed.

(** What an attempt hands on: the history grows by [record_of], the session
    id is the one the fix agent returned, if it was called. *)
Lemma state_after_history (st : LoopState) (w : World E) (n : Z)
      (next : LoopState) :
  let log := fst (attempt_body E a st w n) in
  state_after log = Some next ->
  attempt_history next = attempt_history st ++ record_of log
  /\ fix_session_id next = match fix_of log with
                           | Some fx => session_after fx
                           | None => fix_session_id st
                           end
  /\ (has_context log = true ->
      exists fx r suggestion,
        al_step log = Fixed fx next /\ fx_result fx = Ok r
        /\ record_of log = [{| attempt := n; files := files_changed r;
                               result := lit "still failing";
                               error_summary := suggestion |}])
  /\ (has_context log = false -> al_step log = NoContext /\ next = st).
Proof.
  destruct (attempt_body_log E a st w n) as (Hn & Hst & _ & _ & Hstep).
  cbn zeta. unfold state_after, record_of, fix_of, has_context, session_after.
  destruct Hstep as [Hv | Hv Hno | ctx e Hv Hne Hread
                    | ctx index suggestion w1 e Hv Hne Hread Hfix
                    | ctx index suggestion w1 r' Hv Hne Hread Hfix];
    intros Hnext; try discriminate.
  - injection Hnext as <-. rewrite Hst. rewrite app_nil_r.
    repeat split; auto.
    destruct (al_verdict (fst (attempt_body E a st w n))) as [b c].
    unfold no_context in Hno. cbn in Hv, Hno. subst b.
    destruct Hno as [-> | ->]; discriminate.
  - injection Hnext as <-. cbn. rewrite Hread, Hn, Hv.
    repeat split; auto.
    + intros _. do 3 eexists. repeat split.
    + destruct ctx; [congruence | discriminate].
    + destruct ctx; [congruence | discriminate].
Qed.

Lemma fix_of_inputs (st : LoopState) (w : World E) (n : Z) (fx : FixLog) :
  fix_of (fst (attempt_body E a st w n)) = Some fx ->
  fx_session_id fx = fix_session_id st
  /\ fx_history fx = attempt_history st
  /\ has_context (fst (attempt_body E a st w n)) = true
  /\ exists w1, fx_result fx
                = fst (run_fix_agent E w1 (fx_context fx) (platform a)
                         (fx_session_id fx) (fx_history fx)).
Proof.
  destruct (attempt_body_log E a st w n) as (_ & _ & _ & _ & Hstep).
  unfold fix_of, has_context.
  destruct Hstep as [Hv | Hv Hno | ctx e Hv Hne Hread
                    | ctx index suggestion w1 e Hv Hne Hread Hfix
                    | ctx index suggestion w1 r' Hv Hne Hread Hfix];
    intros Hfx; try discriminate; injection Hfx as <-; cbn; rewrite Hv;
    (repeat split; auto; [destruct ctx; congruence | eauto]).
Qed.

Lemma Run_number_at (numbers : list Z) (st : LoopState)
      (logs : list AttemptLog) (r : res bool) :
  Run E a numbers st logs r ->
  forall i log, nth_error logs i = Some log ->
    nth_error numbers i = Some (al_attempt log).
Proof.
  induction 1 as [st | n rest st w log r Hlog Hstop
                 | n rest st w log next logs r Hlog Hnext Hrun IH];
    intros i l Hi.
  - now destruct i.
  - destruct i as [|[|i]]; try discriminate. injection Hi as <-.
    subst log. cbn. f_equal. symmetry. apply attempt_body_log.
  - destruct i as [|i].
    + injection Hi as <-. subst log. cbn. f_equal. symmetry.
      apply attempt_body_log.
    + cbn in Hi |- *. eauto.
Qed.

(** The history and the session id before each attempt of a run. *)
Lemma Run_history (numbers : list Z) (st : LoopState)
      (logs : list AttemptLog) (r : res bool) :
  Run E a numbers st logs r ->
  forall i log, nth_error logs i = Some log ->
    attempt_history (al_before log)
      = attempt_history st ++ flat_map record_of (firstn i logs)
    /\ map attempt (flat_map record_of (firstn i logs))
       = map al_attempt (filter has_context (firstn i logs))
    /\ (forall h, In h (flat_map record_of (firstn i logs)) ->
          result h = lit "still failing").
Proof.
  induction 1 as [st | n rest st w log r Hlog Hstop
                 | n rest st w log next logs r Hlog Hnext Hrun IH];
    intros i l Hi.
  - now destruct i.
  - destruct i as [|[|i]]; try discriminate. injection Hi as <-.
    subst log. destruct (attempt_body_log E a st w n) as (_ & -> & _).
    cbn. rewrite app_nil_r. repeat split. intros h [].
  - destruct i as [|i].
    + injection Hi as <-. subst log.
      destruct (attempt_body_log E a st w n) as (_ & -> & _).
      cbn. rewrite app_nil_r. repeat split. intros h [].
    + cbn in Hi. destruct (IH i l Hi) as (Hhist & Hmap & Hres).
      subst log.
      destruct (state_after_history st w n Hnext) as (Hh & _ & Hctx & Hno).
      destruct (attempt_body_log E a st w n) as (Hn & _).
      cbn [firstn flat_map filter].
      rewrite Hhist, Hh, <- app_assoc. split; [reflexivity|].
      destruct (has_context (fst (attempt_body E a st w n))) eqn:Hc.
      * destruct (Hctx eq_refl) as (fx & r0 & sg & _ & _ & Hrec).
        rewrite Hrec. cbn. rewrite Hmap, Hn. split; [reflexivity|].
        intros h [<-|Hin]; [reflexivity | now apply Hres].
      * destruct (Hno eq_refl) as [Hstep _].
        unfold record_of. rewrite Hstep. cbn. now split.
Qed.

Lemma Run_session (numbers : list Z) (st : LoopState)
      (logs : list AttemptLog) (r : res bool) :
  Run E a numbers st logs r ->
  forall i l1 l2,
    nth_error logs i = Some l1 -> nth_error logs (S i) = Some l2 ->
    fix_session_id (al_before l2)
    = match fix_of l1 with
      | Some fx => session_after fx
      | None => fix_session_id (al_before l1)
      end.
Proof.
  induction 1 as [st | n rest st w log r Hlog Hstop
                 | n rest st w log next logs r Hlog Hnext Hrun IH];
    intros i l1 l2 H1 H2.
  - now destruct i.
  - destruct i as [|i]; cbn in H1, H2; [discriminate | now destruct i].
  - destruct i as [|i].
    + injection H1 as <-. cbn in H2.
      assert (Hl2 : al_before l2 = next).
      { inversion Hrun; subst; cbn in H2; try discriminate;
          injection H2 as <-; apply attempt_body_log. }
      rewrite Hl2. subst log.
      destruct (state_after_history st w n Hnext) as (_ & Hs & _).
      destruct (attempt_body_log E a st w n) as (_ & -> & _).
      exact Hs.
    + cbn in H1, H2. eauto.
Qed.

End HistoryFacts.


Section SessionFacts.

Context (E : Env) (a : LoopArgs).

Lemma Run_session_chain (numbers : list Z) (st : LoopState)
      (logs : list AttemptLog) (r : res bool) :
  Run E a numbers st logs r ->
  session_chain (fix_session_id st) (fix_calls logs).
Proof.
  induction 1 as [st | n rest st w log r Hlog Hstop
                 | n rest st w log next logs r Hlog Hnext Hrun IH].
  - exact I.
  - unfold fix_calls. cbn. destruct (fix_of log) as [fx|] eqn:Hfx; [|exact I].
    subst log. destruct (fix_of_inputs E a st w n Hfx) as (Hs & _).
    cbn. auto.
  - unfold fix_calls. cbn [flat_map]. fold (fix_calls logs).
    subst log.
    destruct (state_after_history E a st w n Hnext) as (_ & Hs & Hctx & _).
    destruct (fix_of (fst (attempt_body E a st w n))) as [fx|] eqn:Hfx.
    + destruct (fix_of_inputs E a st w n Hfx) as (Hin & _ & Hc & _).
      destruct (Hctx Hc) as (fx' & r0 & sg & Hstep & Hres & _).
      assert (fx' = fx) by (unfold fix_of in Hfx; rewrite Hstep in Hfx; congruence).
      subst fx'. cbn. rewrite <- Hs. repeat split; eauto.
    + cbn. now rewrite <- Hs.
Qed.

Lemma session_chain_nth (calls : list FixLog) :
  forall current j fx1 fx2,
    session_chain current calls ->
    nth_error calls j = Some fx1 -> nth_error calls (S j) = Some fx2 ->
    fx_session_id fx2 = session_after fx1 /\ exists r, fx_result fx1 = Ok r.
Proof.
  induction calls as [|fx rest IH]; intros current j fx1 fx2 Hc H1 H2.
  - now destruct j.
  - destruct Hc as (Hs & Hlast & Hrest). destruct j as [|j].
    + injection H1 as <-. cbn in H2. destruct rest as [|fx' rest]; [discriminate|].
      injection H2 as <-. destruct Hrest as (Hs' & _). split; [exact Hs'|].
      destruct Hlast as [Hnil | Hok]; [discriminate | exact Hok].
    + cbn in H1, H2. eauto.
Qed.

(** The session id in the result of a fix call that returned: the one the
    process handed back, else the one the call was given. *)
Lemma run_fix_agent_session (w : World E) (ctx : dict) (session : option str)
      (history : list AttemptRecord) (r : FixResult) :
  fst (run_fix_agent E w ctx (platform a) session history) = Ok r ->
  exists prompt,
    fix_prompt E ctx (platform a) history = Ok prompt
    /\ session_id r
       = match returned_session
                 (fst (claude_run E w (fix_agent_cmd prompt session) FIX_TIMEOUT))
         with
         | Some token => token
         | None => session
         end.
Proof.
  unfold run_fix_agent.
  destruct (fix_prompt E ctx (platform a) history) as [prompt|e]; [|discriminate].
  destruct (claude_run E w (fix_agent_cmd prompt session) FIX_TIMEOUT)
    as [p w'] eqn:Hp.
  cbn [fst]. intros Hr. exists prompt. split; [reflexivity|].
  rewrite Hp. clear Hp.
  destruct p as [stdout stderr rc| |msg];
    unfold fix_agent_result in Hr; unfold returned_session; cbn [fst].
  - unfold _parse_fix_agent_output in Hr.
    destruct (json_loads stdout) as [[| | | | | |d]|]; cbn [bind] in Hr;
      try discriminate.
    + destruct (lookup (lit "session_id") d) as [[| | | |s| |]|];
        cbn [bind] in Hr; try discriminate;
        (destruct (_extract_text_from_output stdout); cbn [bind] in Hr;
         [injection Hr as <-; reflexivity | discriminate]).
    + destruct (_extract_text_from_output stdout); cbn [bind] in Hr;
        [injection Hr as <-; reflexivity | discriminate].
  - now injection Hr as <-.
  - now injection Hr as <-.
Qed.

End SessionFacts.

Lemma fix_calls_In (logs : list AttemptLog) (fx : FixLog) :
  In fx (fix_calls logs) <-> exists log, In log logs /\ fix_of log = Some fx.
Proof.
  unfold fix_calls. rewrite in_flat_map. split.
  - intros (log & Hin & Hfx). exists log. split; [exact Hin|].
    destruct (fix_of log); [destruct Hfx as [->|[]]; reflexivity | destruct Hfx].
  - intros (log & Hin & Hfx). exists log. split; [exact Hin|].
    rewrite Hfx. now left.
Qed.


(** C5 (as the loop does it). An attempt whose test fails without a failure
    context calls no fix agent and records nothing: the loop state (attempt
    history, session id, last failing index) is handed on as it was, and as
    long as attempts remain the next one is made from that same state. *)
Theorem C5_no_context_continues (E : Env) (a : LoopArgs) (max_attempts : Z)
        (w : World E) :
  let logs := attempts_of (run_refinement_loop E a max_attempts w) in
  forall i log,
    nth_error logs i = Some log ->
    fst (al_verdict log) = false -> no_context (al_verdict log) ->
    fix_of log = None
    /\ state_after log = Some (al_before log)
    /\ ((al_attempt log < max_attempts)%Z ->
        exists next,
          nth_error logs (S i) = Some next
          /\ al_attempt next = (al_attempt log + 1)%Z
          /\ al_before next = al_before log).
Proof.
  intros logs i log Hi Hfail Hno.
  pose proof (loop_is_Run E a max_attempts w) as Hrun. fold logs in Hrun.
  assert (Hin : In log logs) by (eapply nth_error_In; eauto).
  destruct (Run_In_body Hrun log Hin) as (st & w' & n & Hlog).
  assert (Hstep : al_step log = NoContext)
    by (subst log; now apply no_context_step).
  assert (Hafter : state_after log = Some (al_before log))
    by (unfold state_after; now rewrite Hstep).
  split; [unfold fix_of; now rewrite Hstep|]. split; [exact Hafter|].
  intros Hmore.
  pose proof (Run_number_at Hrun i Hi) as Hnum.
  assert (Hlt : i < Z.to_nat max_attempts).
  { rewrite <- (attempt_numbers_length max_attempts).
    apply nth_error_Some. congruence. }
  rewrite attempt_numbers_nth in Hnum by exact Hlt.
  injection Hnum as Hnum.
  assert (Hlt' : S i < Z.to_nat max_attempts) by lia.
  destruct (Run_next Hrun i Hi Hafter (attempt_numbers_nth _ Hlt'))
    as (next & Hnext & Hn & Hb).
  exists next. repeat split; auto. lia.
Qed.

Lemma infix_concat_In (parts : list str) (p : str) :
  In p parts -> infix p (concat parts).
Proof.
  induction parts as [|q parts IH]; intros Hin; [destruct Hin|].
  cbn [concat]. destruct Hin as [->|Hin].
  - apply infix_app_l, infix_refl.
  - now apply infix_app_r, IH.
Qed.

Lemma render_history_In (E : Env) (history : list AttemptRecord)
      (h : AttemptRecord) :
  In h history -> infix (render_attempt E h) (render_history E history).
Proof.
  intros Hin. unfold render_history.
  destruct history as [|h0 rest]; [destruct Hin|].
  do 3 apply infix_app_r. apply infix_concat_In. now apply in_map.
Qed.

Lemma render_attempt_label (E : Env) (h : AttemptRecord) :
  infix (lit "Result: " ++ result h) (render_attempt E h)
  /\ (files h <> [] ->
      infix (lit "Changed " ++ repr_list E (files h)) (render_attempt E h)).
Proof.
  unfold render_attempt. split.
  - do 4 apply infix_app_r.
    rewrite (app_assoc (lit "Result: ") (result h)).
    apply infix_app_l, infix_refl.
  - intros Hne. destruct (files h) as [|f fs] eqn:Hf; [congruence|].
    cbv beta iota. do 3 apply infix_app_r. apply infix_app_l.
    rewrite (app_assoc (lit "Changed ")). apply infix_app_l, infix_refl.
Qed.

(** C6 (as the loop does it). Every call of the fix agent is given the
    attempt history of the run so far, which holds exactly one entry for
    every earlier attempt that failed with a failure context, in attempt
    order, and none for an earlier attempt that failed without one.  Each
    entry carries the number of its attempt and the label "still failing".
    The repair prompt of the call contains the rendering of every entry, and
    that rendering shows the label, and the files changed when there are
    any. *)
Theorem C6_history_to_fix_agent (E : Env) (a : LoopArgs) (max_attempts : Z)
        (w : World E) :
  let logs := attempts_of (run_refinement_loop E a max_attempts w) in
  forall i log fx,
    nth_error logs i = Some log -> fix_of log = Some fx ->
    fx_history fx = flat_map record_of (firstn i logs)
    /\ map attempt (fx_history fx)
       = map al_attempt (filter has_context (firstn i logs))
    /\ (forall h, In h (fx_history fx) -> result h = lit "still failing")
    /\ (exists w1,
          fx_result fx
          = fst (run_fix_agent E w1 (fx_context fx) (platform a)
                   (fx_session_id fx) (fx_history fx)))
    /\ (forall prompt h,
          fix_prompt E (fx_context fx) (platform a) (fx_history fx) = Ok prompt ->
          In h (fx_history fx) ->
          infix (render_attempt E h) prompt
          /\ infix (lit "Result: " ++ result h) (render_attempt E h)
          /\ (files h <> [] ->
              infix (lit "Changed " ++ repr_list E (files h))
                    (render_attempt E h))).
Proof.
  intros logs i log fx Hi Hfx.
  pose proof (loop_is_Run E a max_attempts w) as Hrun. fold logs in Hrun.
  destruct (Run_history Hrun i Hi) as (Hhist & Hmap & Hres).
  assert (Hin : In log logs) by (eapply nth_error_In; eauto).
  destruct (Run_In_body Hrun log Hin) as (st & w' & n & Hlog).
  subst log.
  destruct (fix_of_inputs E a st w' n Hfx) as (_ & Hh & _ & Hcall).
  destruct (attempt_body_log E a st w' n) as (_ & Hst & _).
  rewrite Hst in Hhist. cbn in Hhist. rewrite <- Hh in Hhist.
  split; [exact Hhist|]. split; [now rewrite Hhist|].
  split; [intros h Hinh; apply Hres; now rewrite <- Hhist|].
  split; [exact Hcall|].
  intros prompt h Hp Hinh. split; [|apply render_attempt_label].
  unfold fix_prompt in Hp.
  destruct (render_failure E (fx_context fx) (platform a)) as [head|e];
    [|discriminate].
  cbn [bind] in Hp. injection Hp as <-.
  apply infix_app_r, infix_app_l. now apply render_history_In.
Qed.

(** ** The decoder always has budget enough *)

Lemma skip_ws_length (s : str) : length (skip_ws s) <= length s.
Proof.
  induction s as [|c r IH]; cbn; [lia|]. destruct (is_ws c); cbn; lia.
Qed.

Lemma skip_ws_cons (s : str) (c : N) (rest : str) :
  skip_ws s = c :: rest -> length rest < length s.
Proof.
  intros H. pose proof (skip_ws_length s) as Hl. rewrite H in Hl. cbn in Hl. lia.
Qed.

Lemma span_digits_length (s ds rest : str) :
  span_digits s = (ds, rest) -> length rest <= length s.
Proof.
  revert ds rest; induction s as [|c r IH]; intros ds rest; cbn.
  - intros [= <- <-]. cbn. lia.
  - destruct (is_digit c).
    + destruct (span_digits r) as [ds' rest'] eqn:Hr. intros [= <- <-].
      specialize (IH _ _ eq_refl). lia.
    + intros [= <- <-]. cbn. lia.
Qed.

Lemma scanstring_length (s body rest : str) :
  scanstring s = Some (body, rest) -> length rest < length s.
Proof.
  remember (length s) as n eqn:Hn. revert s body rest Hn.
  induction n as [n IH] using lt_wf_ind. intros s body rest Hn.
  assert (Hrec : forall t b r', length t < n ->
            scanstring t = Some (b, r') -> length r' < n).
  { intros t b r' Ht Hs. specialize (IH _ Ht t b r' eq_refl Hs). lia. }
  assert (Hcont : forall (c : N) t b r', length t < n ->
            match scanstring t with
            | Some (body0, rest0) => Some (c :: body0, rest0)
            | None => None
            end = Some (b, r') -> length r' < n).
  { intros c t b r' Ht Hs.
    destruct (scanstring t) as [[b0 r0]|] eqn:Hst; [|discriminate].
    injection Hs as _ <-. eapply Hrec; eauto. }
  destruct s as [|c r]; cbn [scanstring]; [discriminate|].
  cbn [length] in Hn.
  destruct (c =? 34)%N; [intros [= <- <-]; lia|].
  destruct (c =? 92)%N.
  - destruct r as [|e r1]; [discriminate|]. cbn [length] in Hn.
    destruct (e =? 117)%N.
    + destruct r1 as [|h1 [|h2 [|h3 [|h4 r2]]]]; try discriminate.
      cbn [length] in Hn.
      destruct (hex4 h1 h2 h3 h4) as [u|]; [|discriminate].
      destruct (is_high_surrogate u).
      * destruct r2 as [|x1 r2']; [eapply Hcont; cbn [length] in *; lia|].
        destruct (x1 =? 92)%N eqn:Hx1.
        -- apply N.eqb_eq in Hx1. subst x1.
           destruct r2' as [|x2 r3]; [eapply Hcont; cbn [length] in *; lia|].
           destruct (x2 =? 117)%N eqn:Hx2.
           ++ apply N.eqb_eq in Hx2. subst x2.
              destruct r3 as [|g1 [|g2 [|g3 [|g4 r4]]]]; try discriminate.
              destruct (hex4 g1 g2 g3 g4) as [u2|]; [|discriminate].
              destruct (is_low_surrogate u2); eapply Hcont; cbn [length] in *; lia.
           ++ assert (Hm : forall A (x y : A),
                        match x2 with 117%N => x | _ => y end = y).
              { intros A x y. apply N.eqb_neq in Hx2.
                destruct x2 as [|p]; [reflexivity|].
                do 7 (destruct p as [p|p|]; try reflexivity). congruence. }
              rewrite Hm. eapply Hcont; cbn [length] in *; lia.
        -- assert (Hm : forall A (x y : A),
                     match x1 with 92%N => x | _ => y end = y).
           { intros A x y. apply N.eqb_neq in Hx1.
             destruct x1 as [|p]; [reflexivity|].
             do 7 (destruct p as [p|p|]; try reflexivity). congruence. }
           rewrite Hm. eapply Hcont; cbn [length] in *; lia.
      * eapply Hcont; cbn [length] in *; lia.
    + destruct (simple_escape e); [|discriminate]. eapply Hcont; cbn [length] in *; lia.
  - destruct (c <=? 31)%N; [discriminate|]. eapply Hcont; cbn [length] in *; lia.
Qed.

Lemma match_number_length (s : str) (v : json) (rest : str) :
  match_number s = Some (v, rest) -> length rest < length s.
Proof.
  unfold match_number.
  set (signed := match s with 45%N :: r => ([45%N], r) | _ => ([], s) end).
  assert (Hsigned : length (snd signed) <= length s).
  { subst signed. destruct s as [|c r]; [cbn; lia|].
    destruct (N.eq_dec c 45) as [->|Hc]; [cbn; lia|].
    destruct c as [|p]; [cbn; lia|].
    do 6 (destruct p as [p|p|]; try (cbn; lia)). }
  destruct signed as [sign s1]. cbn [snd] in Hsigned.
  set (integer := match s1 with
                  | [] => None
                  | c :: r =>
                      if (c =? 48)%N then Some ([c], r)
                      else if is_digit c
                           then let (ds, rest0) := span_digits r in
                                Some (c :: ds, rest0)
                           else None
                  end).
  assert (Hint : forall ipart s2, integer = Some (ipart, s2) ->
                                  length s2 < length s1).
  { subst integer. intros ipart s2. destruct s1 as [|c r]; [discriminate|].
    destruct (c =? 48)%N; [intros [= <- <-]; cbn; lia|].
    destruct (is_digit c); [|discriminate].
    destruct (span_digits r) as [ds rest0] eqn:Hsp. intros [= <- <-].
    apply span_digits_length in Hsp. cbn. lia. }
  destruct integer as [[ipart s2]|]; [|discriminate].
  specialize (Hint _ _ eq_refl).
  set (fraction := match s2 with
                   | 46%N :: r =>
                       match span_digits r with
                       | ([], _) => ([], s2)
                       | (ds, rest0) => (46%N :: ds, rest0)
                       end
                   | _ => ([], s2)
                   end).
  assert (Hfrac : length (snd fraction) <= length s2).
  { subst fraction. destruct s2 as [|c r]; [cbn; lia|].
    destruct (N.eq_dec c 46) as [->|Hc].
    - destruct (span_digits r) as [[|d ds] rest0] eqn:Hsp; cbn [snd]; [lia|].
      apply span_digits_length in Hsp. cbn. lia.
    - destruct c as [|p]; [cbn; lia|].
      do 6 (destruct p as [p|p|]; try (cbn; lia)). }
  destruct fraction as [frac s3]. cbn [snd] in Hfrac.
  set (exponent := match s3 with
                   | [] => ([], s3)
                   | e :: r =>
                       if ((e =? 101) || (e =? 69))%N
                       then
                         let (esign, r1) :=
                           match r with
                           | [] => ([], r)
                           | c :: r' =>
                               if ((c =? 43) || (c =? 45))%N
                               then ([c], r') else ([], r)
                           end in
                         match span_digits r1 with
                         | ([], _) => ([], s3)
                         | (ds, rest0) => (e :: esign ++ ds, rest0)
                         end
                       else ([], s3)
                   end).
  assert (Hexp : length (snd exponent) <= length s3).
  { subst exponent. destruct s3 as [|e r]; [cbn; lia|].
    destruct ((e =? 101) || (e =? 69))%N; [|cbn; lia].
    set (signed_exp := match r with
                       | [] => ([], r)
                       | c :: r' =>
                           if ((c =? 43) || (c =? 45))%N
                           then ([c], r') else ([], r)
                       end).
    assert (Hse : length (snd signed_exp) <= length r).
    { subst signed_exp. destruct r as [|c r']; [cbn; lia|].
      destruct ((c =? 43) || (c =? 45))%N; cbn; lia. }
    destruct signed_exp as [esign r1]. cbn [snd] in Hse.
    destruct (span_digits r1) as [[|d ds] rest0] eqn:Hsp; cbn [snd]; [lia|].
    apply span_digits_length in Hsp. cbn. lia. }
  destruct exponent as [expo s4]. cbn [snd] in Hexp.
  destruct frac, expo; intros [= _ <-]; lia.
Qed.

Lemma starts_with_length (p s : str) :
  starts_with p s = true -> length p <= length s.
Proof.
  revert s; induction p as [|x p IH]; intros [|y s]; cbn; intros H;
    try discriminate; try lia.
  apply andb_true_iff in H. destruct H as [_ H]. apply IH in H. lia.
Qed.

Lemma skipn_starts_with (p s : str) :
  starts_with p s = true -> p <> [] ->
  length (skipn (length p) s) < length s.
Proof.
  intros H Hp. apply starts_with_length in H. rewrite length_skipn.
  destruct p; [congruence|]. cbn [length] in *. lia.
Qed.

Lemma head_is_length (c : N) (s : str) :
  head_is c s = true -> length (tl s) < length s.
Proof. destruct s; cbn; [discriminate | lia]. Qed.

Lemma tl_length (s : str) : length (tl s) <= length s.
Proof. destruct s; cbn; lia. Qed.

(** The case of a literal word ([null], [true], ...) in [scan_length]. *)
Ltac literal_case :=
  match goal with
  | H : starts_with ?word ?s = true |- _ =>
      let Hk := fresh "Hk" in
      let Heq := fresh "Heq" in
      assert (Hk : length (skipn (length word) s) < length s)
        by (apply skipn_starts_with; [exact H | discriminate]);
      intros Heq; injection Heq as _ <-; exact Hk
  end.

(** A scanner that succeeds has read at least one character. *)
Lemma scan_length (fuel : nat) :
  (forall s v r, scan_once fuel s = Scanned v r -> length r < length s)
  /\ (forall s acc v r,
        scan_members fuel s acc = Scanned v r -> length r < length s)
  /\ (forall s acc v r,
        scan_items fuel s acc = Scanned v r -> length r < length s).
Proof.
  induction fuel as [|f (IHv & IHm & IHi)];
    [repeat split; intros; discriminate|].
  split; [|split].
  - intros s v r. cbn [scan_once].
    destruct (head_is 34 s) eqn:Hq.
    { destruct (scanstring (tl s)) as [[body rest]|] eqn:Hs; [|discriminate].
      intros [= _ <-]. apply scanstring_length in Hs.
      apply head_is_length in Hq. lia. }
    destruct (head_is 123 s) eqn:Hb.
    { apply head_is_length in Hb.
      pose proof (skip_ws_length (tl s)) as Hw.
      destruct (head_is 125 (skip_ws (tl s))) eqn:Hc.
      { intros [= _ <-]. apply head_is_length in Hc. lia. }
      destruct (head_is 34 (skip_ws (tl s))) eqn:Hk; [|discriminate].
      apply head_is_length in Hk.
      destruct (scan_members f (tl (skip_ws (tl s))) []) as [pairs rest| |] eqn:Hm;
        try discriminate.
      intros [= _ <-]. apply IHm in Hm. lia. }
    destruct (head_is 91 s) eqn:Ha.
    { apply head_is_length in Ha.
      pose proof (skip_ws_length (tl s)) as Hw.
      destruct (head_is 93 (skip_ws (tl s))) eqn:Hc.
      { intros [= _ <-]. apply head_is_length in Hc. lia. }
      destruct (scan_items f (skip_ws (tl s)) []) as [items rest| |] eqn:Hi;
        try discriminate.
      intros [= _ <-]. apply IHi in Hi. lia. }
    destruct (starts_with (lit "null") s) eqn:H1.
    { literal_case. }
    destruct (starts_with (lit "true") s) eqn:H2.
    { literal_case. }
    destruct (starts_with (lit "false") s) eqn:H3.
    { literal_case. }
    destruct (match_number s) as [[v0 rest]|] eqn:Hn.
    { intros [= _ <-]. now apply match_number_length in Hn. }
    destruct (starts_with (lit "NaN") s) eqn:H4.
    { literal_case. }
    destruct (starts_with (lit "Infinity") s) eqn:H5.
    { literal_case. }
    destruct (starts_with (lit "-Infinity") s) eqn:H6; [|discriminate].
    literal_case.
  - intros s acc v r. cbn [scan_members].
    destruct (scanstring s) as [[key r0]|] eqn:Hs; [|discriminate].
    apply scanstring_length in Hs. cbv zeta.
    pose proof (skip_ws_length r0) as Hw0.
    destruct (head_is 58 (skip_ws r0)) eqn:Hc; [|discriminate].
    apply head_is_length in Hc.
    pose proof (skip_ws_length (tl (skip_ws r0))) as Hw1.
    destruct (scan_once f (skip_ws (tl (skip_ws r0)))) as [v0 r2| |] eqn:Hv;
      try discriminate.
    apply IHv in Hv. pose proof (skip_ws_length r2) as Hw2.
    destruct (head_is 125 (skip_ws r2)) eqn:He.
    { intros [= _ <-]. apply head_is_length in He. lia. }
    destruct (head_is 44 (skip_ws r2)) eqn:Hcm; [|discriminate].
    apply head_is_length in Hcm.
    pose proof (skip_ws_length (tl (skip_ws r2))) as Hw3.
    destruct (head_is 34 (skip_ws (tl (skip_ws r2)))) eqn:Hk; [|discriminate].
    apply head_is_length in Hk. intros Hm. apply IHm in Hm. lia.
  - intros s acc v r. cbn [scan_items].
    destruct (scan_once f s) as [v0 r0| |] eqn:Hv; try discriminate.
    apply IHv in Hv. cbv zeta. pose proof (skip_ws_length r0) as Hw.
    destruct (head_is 93 (skip_ws r0)) eqn:He.
    { intros [= _ <-]. apply head_is_length in He. lia. }
    destruct (head_is 44 (skip_ws r0)) eqn:Hcm; [|discriminate].
    apply head_is_length in Hcm.
    pose proof (skip_ws_length (tl (skip_ws r0))) as Hw1.
    intros Hi. apply IHi in Hi. lia.
Qed.

(** With a budget of twice the length of the text (and a little), no scanner
    runs out of budget. *)
Lemma scan_fuel (fuel : nat) :
  (forall s, 2 * length s + 1 <= fuel -> scan_once fuel s <> OutOfFuel)
  /\ (forall s acc,
        2 * length s + 2 <= fuel -> scan_members fuel s acc <> OutOfFuel)
  /\ (forall s acc,
        2 * length s + 2 <= fuel -> scan_items fuel s acc <> OutOfFuel).
Proof.
  induction fuel as [|f (IHv & IHm & IHi)]; [repeat split; intros; lia|].
  destruct (scan_length f) as (Lv & Lm & Li).
  split; [|split].
  - intros s Hf. cbn [scan_once].
    destruct (head_is 34 s).
    { destruct (scanstring (tl s)) as [[body rest]|]; discriminate. }
    destruct (head_is 123 s) eqn:Hb.
    { apply head_is_length in Hb.
      pose proof (skip_ws_length (tl s)) as Hw. cbv zeta.
      destruct (head_is 125 (skip_ws (tl s))); [discriminate|].
      destruct (head_is 34 (skip_ws (tl s))) eqn:Hk; [|discriminate].
      apply head_is_length in Hk.
      destruct (scan_members f (tl (skip_ws (tl s))) []) eqn:Hm;
        try discriminate.
      exfalso. revert Hm. apply IHm. lia. }
    destruct (head_is 91 s) eqn:Ha.
    { apply head_is_length in Ha.
      pose proof (skip_ws_length (tl s)) as Hw. cbv zeta.
      destruct (head_is 93 (skip_ws (tl s))); [discriminate|].
      destruct (scan_items f (skip_ws (tl s)) []) eqn:Hi; try discriminate.
      exfalso. revert Hi. apply IHi. lia. }
    destruct (starts_with (lit "null") s); [discriminate|].
    destruct (starts_with (lit "true") s); [discriminate|].
    destruct (starts_with (lit "false") s); [discriminate|].
    destruct (match_number s) as [[v0 rest]|]; [discriminate|].
    destruct (starts_with (lit "NaN") s); [discriminate|].
    destruct (starts_with (lit "Infinity") s); [discriminate|].
    destruct (starts_with (lit "-Infinity") s); discriminate.
  - intros s acc Hf. cbn [scan_members].
    destruct (scanstring s) as [[key r0]|] eqn:Hs; [|discriminate].
    apply scanstring_length in Hs. cbv zeta.
    pose proof (skip_ws_length r0) as Hw0.
    destruct (head_is 58 (skip_ws r0)) eqn:Hc; [|discriminate].
    apply head_is_length in Hc.
    pose proof (skip_ws_length (tl (skip_ws r0))) as Hw1.
    destruct (scan_once f (skip_ws (tl (skip_ws r0)))) as [v0 r2| |] eqn:Hv;
      try discriminate.
    + apply Lv in Hv. pose proof (skip_ws_length r2) as Hw2.
      destruct (head_is 125 (skip_ws r2)); [discriminate|].
      destruct (head_is 44 (skip_ws r2)) eqn:Hcm; [|discriminate].
      apply head_is_length in Hcm.
      pose proof (skip_ws_length (tl (skip_ws r2))) as Hw3.
      destruct (head_is 34 (skip_ws (tl (skip_ws r2)))) eqn:Hk; [|discriminate].
      apply head_is_length in Hk. apply IHm. lia.
    + exfalso. revert Hv. apply IHv. lia.
  - intros s acc Hf. cbn [scan_items].
    destruct (scan_once f s) as [v0 r0| |] eqn:Hv; try discriminate.
    + apply Lv in Hv. cbv zeta. pose proof (skip_ws_length r0) as Hw.
      destruct (head_is 93 (skip_ws r0)); [discriminate|].
      destruct (head_is 44 (skip_ws r0)) eqn:Hcm; [|discriminate].
      apply head_is_length in Hcm.
      pose proof (skip_ws_length (tl (skip_ws r0))) as Hw1.
      apply IHi. lia.
    + exfalso. revert Hv. apply IHv. lia.
Qed.

(** [json_loads] returns [None] only for a text that is not a JSON document:
    its scan never stops for lack of budget. *)
Lemma json_loads_budget (s : str) :
  scan_once (budget s) (skip_ws s) <> OutOfFuel.
Proof.
  apply scan_fuel. unfold budget. pose proof (skip_ws_length s). lia.
Qed.

(** ** The output parser *)

Lemma find_char_brace (s : str) :
  (find_char 123 s = (-1)%Z /\ from_first_brace s = None)
  \/ ((0 <= find_char 123 s)%Z
      /\ from_first_brace s = Some (slice_from (find_char 123 s) s)).
Proof.
  induction s as [|c r IH]; cbn [find_char from_first_brace].
  - now left.
  - destruct (c =? 123)%N; [right; split; [lia | reflexivity]|].
    destruct IH as [[Hi Hn] | [Hi Hs]].
    + left. rewrite Hi. now split.
    + right. destruct (Z.ltb_spec (find_char 123 r) 0); [lia|].
      split; [lia|]. rewrite Hs. unfold slice_from.
      replace (Z.to_nat (find_char 123 r + 1)) with (S (Z.to_nat (find_char 123 r)))
        by lia.
      reflexivity.
Qed.

Lemma read_fix_context_extract (raw : str) :
  read_fix_context raw = verdict_of (extractJson raw).
Proof.
  unfold read_fix_context, extractJson, loads_object.
  set (stdout := strip raw).
  destruct (json_loads stdout) as [[| | | | | |ctx]|]; try reflexivity;
    (destruct (find_char_brace stdout) as [[Hi Hn] | [Hi Hs]];
     [ rewrite Hi, Hn; reflexivity
     | rewrite Hs; destruct (Z.geb_spec (find_char 123 stdout) 0); [|lia];
       destruct (json_loads (slice_from (find_char 123 stdout) stdout))
         as [[| | | | | |ctx']|]; reflexivity ]).
Qed.


(** ** The two sub-process wrappers under timeouts and errors *)


(** C8. Every test run is started with the timeout of 600 seconds.  When it
    times out, or [subprocess.run] raises anything else, [run_skill_test]
    returns "failed, no fix context"; the loop then takes the attempt as a
    failure without context: it neither returns success nor lets an
    exception escape, and calls no fix agent. *)
Theorem C8_test_timeout (E : Env) (w w' : World E) (c : SkillTestCall)
        (p : proc) :
  docker_run E w c TEST_TIMEOUT = (p, w') ->
  p = TimeoutExpired \/ (exists message, p = OtherException message) ->
  run_skill_test E w c = ((false, None), w')
  /\ TEST_TIMEOUT = 600%Z
  /\ (forall a st n,
        c = test_call a n (last_failing_prompt_index st) ->
        al_verdict (fst (attempt_body E a st w n)) = (false, None)
        /\ al_step (fst (attempt_body E a st w n)) = NoContext
        /\ snd (attempt_body E a st w n) = w').
Proof.
  intros Hrun Hp.
  assert (Htest : run_skill_test E w c = ((false, None), w')).
  { unfold run_skill_test. rewrite Hrun.
    now destruct Hp as [-> | [message ->]]. }
  split; [exact Htest|]. split; [reflexivity|].
  intros a st n ->. unfold attempt_body. rewrite Htest. now cbn.
Qed.

(** ** Setup errors in [main] *)

Lemma plugin_found_known (h : Host) (p : str) :
  In p CROSS_PLATFORM_REQUIRED -> exists found, plugin_found h p = Ok found.
Proof.
  intros [<- | [<- | [<- | []]]]; unfold plugin_found, get_skills_path;
    match goal with
    | |- context [platform_config PLATFORM_CONFIG ?name] =>
        let c := eval vm_compute in (platform_config PLATFORM_CONFIG name) in
        change (platform_config PLATFORM_CONFIG name) with c
    end;
    cbv beta iota;
    match goal with
    | |- context [environ h ?v] => destruct (environ h v)
    end;
    cbn [bind];
    match goal with
    | |- context [if path_exists h ?q then _ else _] =>
        destruct (path_exists h q)
    end; eauto.
Qed.

Lemma plugins_found_known (h : Host) (platforms : list str) :
  (forall p, In p platforms -> In p CROSS_PLATFORM_REQUIRED) ->
  exists found, plugins_found h platforms = Ok found.
Proof.
  induction platforms as [|p rest IH]; intros Hall; cbn [plugins_found].
  - eauto.
  - destruct (@plugin_found_known h p) as [found ->]; [apply Hall; now left|].
    cbn [bind]. destruct found; [|eauto].
    apply IH. intros q Hq. apply Hall. now right.
Qed.

Lemma required_known (choice : PlatformChoice) (p : str) :
  In p (get_required_platforms (platform_name choice)) ->
  In p CROSS_PLATFORM_REQUIRED.
Proof.
  destruct choice; vm_compute; intros H;
    repeat (destruct H as [H|H]; [subst p; auto 6|]); destruct H.
Qed.


(* ====================================================================== *)
(** * The properties on scripted runs *)
(* ====================================================================== *)

Import Scripted.

(** In the three-step scenario the second attempt forks from checkpoint 1
    and resumes at prompt 2. *)
Lemma C1_fork_point_witness :
  In (log_at 1 run_three_steps) (attempts_of run_three_steps)
  /\ (1 < al_attempt (log_at 1 run_three_steps))%Z
  /\ last_failing_prompt_index (al_before (log_at 1 run_three_steps)) = Some 2%Z
  /\ st_fork_from (al_call (log_at 1 run_three_steps)) = Some 1%Z
  /\ st_prompt_index (al_call (log_at 1 run_three_steps)) = Some 2%Z.
Proof.
  assert (Hin : In (log_at 1 run_three_steps) (attempts_of run_three_steps))
    by (vm_compute; right; left; reflexivity).
  assert (Hlt : (1 < al_attempt (log_at 1 run_three_steps))%Z)
    by (vm_compute; reflexivity).
  assert (Hk : last_failing_prompt_index (al_before (log_at 1 run_three_steps))
               = Some 2%Z) by (vm_compute; reflexivity).
  destruct (C1_fork_point env args 3 three_steps _ Hin Hlt) as (Hpos & _ & _).
  destruct (Hpos 2%Z Hk ltac:(lia)) as (Hf & Hp & _).
  exact (conj Hin (conj Hlt (conj Hk (conj Hf Hp)))).
Defined.



(** The blind first attempt of [blind_first] hands the initial state on to
    the second attempt. *)
Lemma C5_no_context_continues_witness :
  nth_error (attempts_of run_blind_first) 0 = Some (log_at 0 run_blind_first)
  /\ fst (al_verdict (log_at 0 run_blind_first)) = false
  /\ no_context (al_verdict (log_at 0 run_blind_first))
  /\ (al_attempt (log_at 0 run_blind_first) < 3)%Z
  /\ fix_of (log_at 0 run_blind_first) = None
  /\ exists next,
       nth_error (attempts_of run_blind_first) 1 = Some next
       /\ al_attempt next = (al_attempt (log_at 0 run_blind_first) + 1)%Z
       /\ al_before next = al_before (log_at 0 run_blind_first).
Proof.
  assert (H0 : nth_error (attempts_of run_blind_first) 0
               = Some (log_at 0 run_blind_first))
    by (vm_compute; reflexivity).
  assert (Hfail : fst (al_verdict (log_at 0 run_blind_first)) = false)
    by (vm_compute; reflexivity).
  assert (Hno : no_context (al_verdict (log_at 0 run_blind_first)))
    by (left; vm_compute; reflexivity).
  assert (Hlt : (al_attempt (log_at 0 run_blind_first) < 3)%Z)
    by (vm_compute; reflexivity).
  destruct (C5_no_context_continues env args 3 blind_first 0 H0 Hfail Hno)
    as (Hfix & _ & Hnext).
  exact (conj H0 (conj Hfail (conj Hno (conj Hlt (conj Hfix (Hnext Hlt)))))).
Defined.

(** C5, as the specification has it, fails on [blind_first]: the first
    attempt fails without context, and no record of it is in the attempt
    history, neither before the second attempt nor in the history given to
    the fix agent later. *)
Lemma C5_counterexample :
  al_verdict (log_at 0 run_blind_first) = (false, None)
  /\ al_attempt (log_at 0 run_blind_first) = 1%Z
  /\ attempt_history (al_before (log_at 1 run_blind_first)) = []
  /\ map attempt (attempt_history (al_before (log_at 2 run_blind_first)))
     = [2%Z].
Proof. vm_compute. repeat split. Qed.

(** The history given to the fix agent in the third attempt of
    [blind_first] has the one entry of the second attempt. *)
Lemma C6_history_to_fix_agent_witness :
  nth_error (attempts_of run_blind_first) 2 = Some (log_at 2 run_blind_first)
  /\ fix_of (log_at 2 run_blind_first) = Some (fix_at 1 run_blind_first)
  /\ map attempt (fx_history (fix_at 1 run_blind_first))
     = map al_attempt
         (filter has_context (firstn 2 (attempts_of run_blind_first)))
  /\ map attempt (fx_history (fix_at 1 run_blind_first)) = [2%Z].
Proof.
  assert (H2 : nth_error (attempts_of run_blind_first) 2
               = Some (log_at 2 run_blind_first))
    by (vm_compute; reflexivity).
  assert (Hfx : fix_of (log_at 2 run_blind_first)
                = Some (fix_at 1 run_blind_first))
    by (vm_compute; reflexivity).
  destruct (C6_history_to_fix_agent env args 3 blind_first 2 H2 Hfx)
    as (_ & Hmap & _).
  assert (Hval : map attempt (fx_history (fix_at 1 run_blind_first)) = [2%Z])
    by (vm_compute; reflexivity).
  exact (conj H2 (conj Hfx (conj Hmap Hval))).
Defined.

(** C6, as the specification has it, fails on [blind_first]: the fix agent
    is called in the second attempt with an empty history although one
    attempt was made before, and in the third attempt with one entry
    although two were made. *)
Lemma C6_counterexample :
  al_attempt (log_at 1 run_blind_first) = 2%Z
  /\ fix_of (log_at 1 run_blind_first) = Some (fix_at 0 run_blind_first)
  /\ fx_history (fix_at 0 run_blind_first) = []
  /\ al_attempt (log_at 2 run_blind_first) = 3%Z
  /\ fix_of (log_at 2 run_blind_first) = Some (fix_at 1 run_blind_first)
  /\ length (fx_history (fix_at 1 run_blind_first)) = 1.
Proof. vm_compute. repeat split. Qed.


(** A test run that times out. *)
Lemma C8_test_timeout_witness :
  docker_run env silent (test_call args 1 None) TEST_TIMEOUT
    = (TimeoutExpired, silent)
  /\ run_skill_test env silent (test_call args 1 None)
     = ((false, None), silent)
  /\ al_step (fst (attempt_body env args initial_state silent 1)) = NoContext.
Proof.
  assert (Hrun : docker_run env silent (test_call args 1 None) TEST_TIMEOUT
                 = (TimeoutExpired, silent)) by reflexivity.
  destruct (C8_test_timeout env silent (test_call args 1 None) Hrun
              (or_introl eq_refl)) as (Htest & _ & Hloop).
  destruct (Hloop args initial_state 1%Z eq_refl) as (_ & Hstep & _).
  exact (conj Hrun (conj Htest Hstep)).
Defined.



(** In [blind_first] the second attempt, after the blind first one, is still
    started without any index, and the third from the index the second
    reported. *)
Lemma C10_index_only_from_context_witness :
  nth_error (attempts_of run_blind_first) 0 = Some (log_at 0 run_blind_first)
  /\ nth_error (attempts_of run_blind_first) 1 = Some (log_at 1 run_blind_first)
  /\ no_context (al_verdict (log_at 0 run_blind_first))
  /\ last_failing_prompt_index (al_before (log_at 1 run_blind_first))
     = last_failing_prompt_index (al_before (log_at 0 run_blind_first))
  /\ st_fork_from (al_call (log_at 1 run_blind_first)) = None
  /\ st_prompt_index (al_call (log_at 1 run_blind_first)) = None.
Proof.
  assert (H0 : nth_error (attempts_of run_blind_first) 0
               = Some (log_at 0 run_blind_first))
    by (vm_compute; reflexivity).
  assert (H1 : nth_error (attempts_of run_blind_first) 1
               = Some (log_at 1 run_blind_first))
    by (vm_compute; reflexivity).
  assert (Hno : no_context (al_verdict (log_at 0 run_blind_first)))
    by (left; vm_compute; reflexivity).
  destruct (C10_index_only_from_context env args 3 blind_first)
    as (_ & Hkeep & Hstart).
  destruct (Hkeep 0 _ _ H0 H1 Hno) as [Hsame _].
  assert (Hall : forall l, In l (firstn 1 (attempts_of run_blind_first)) ->
                           no_context (al_verdict l)).
  { intros l Hin. vm_compute in Hin. destruct Hin as [<- | []].
    left; reflexivity. }
  destruct (Hstart 1 _ H1 Hall) as [Hf Hp].
  exact (conj H0 (conj H1 (conj Hno (conj Hsame (conj Hf Hp))))).
Defined.

(* ====================================================================== *)
(** * Further properties of the code *)
(* ====================================================================== *)

(** ** Where a scanned value ends *)

Lemma closed_by_cons (c x : N) (s rest : str) :
  closed_by c s rest -> closed_by c (x :: s) rest.
Proof. intros [used ->]. now exists (x :: used). Qed.

Lemma closed_by_app (c : N) (pre s rest : str) :
  closed_by c s rest -> closed_by c (pre ++ s) rest.
Proof. intros [used ->]. exists (pre ++ used). now rewrite app_assoc. Qed.

Lemma closed_by_here (c : N) (rest : str) : closed_by c (c :: rest) rest.
Proof. now exists []. Qed.

Lemma skip_ws_split (s : str) : exists ws, s = ws ++ skip_ws s.
Proof.
  induction s as [|c r [ws IH]]; [now exists []|].
  cbn. destruct (is_ws c); [|now exists []].
  exists (c :: ws). cbn. now rewrite <- IH.
Qed.

Lemma closed_by_skip_ws (c : N) (s rest : str) :
  closed_by c (skip_ws s) rest -> closed_by c s rest.
Proof.
  intros H. destruct (skip_ws_split s) as [ws Hs]. rewrite Hs.
  now apply closed_by_app.
Qed.

Lemma head_is_split (c : N) (s : str) : head_is c s = true -> s = c :: tl s.
Proof.
  destruct s as [|x r]; cbn; [discriminate|].
  intros H. apply N.eqb_eq in H. now subst.
Qed.

Lemma closed_by_tl (c x : N) (s rest : str) :
  head_is x s = true -> closed_by c (tl s) rest -> closed_by c s rest.
Proof.
  intros Hx H. rewrite (head_is_split _ _ Hx). now apply closed_by_cons.
Qed.

Lemma closed_by_head (c : N) (s : str) :
  head_is c s = true -> closed_by c s (tl s).
Proof. intros H. rewrite (head_is_split _ _ H) at 1. apply closed_by_here. Qed.

Lemma starts_with_split (p s : str) :
  starts_with p s = true -> s = p ++ skipn (length p) s.
Proof.
  revert s; induction p as [|x p IH]; intros [|y s]; cbn; intros H;
    try discriminate; try reflexivity.
  apply andb_true_iff in H. destruct H as [Hxy H]. apply N.eqb_eq in Hxy.
  subst y. f_equal. now apply IH.
Qed.

(** The closing quote of a scanned string. *)
Lemma scanstring_closed (s body rest : str) :
  scanstring s = Some (body, rest) -> closed_by 34 s rest.
Proof.
  remember (length s) as n eqn:Hn. revert s body rest Hn.
  induction n as [n IH] using lt_wf_ind. intros s body rest Hn.
  assert (Hcont : forall (c : N) t b r', length t < n ->
            match scanstring t with
            | Some (body0, rest0) => Some (c :: body0, rest0)
            | None => None
            end = Some (b, r') -> closed_by 34 t r').
  { intros c t b r' Ht Hs.
    destruct (scanstring t) as [[b0 r0]|] eqn:Hst; [|discriminate].
    injection Hs as _ <-. eapply (IH _ Ht t b0 r0 eq_refl Hst). }
  destruct s as [|c r]; cbn [scanstring]; [discriminate|].
  cbn [length] in Hn.
  destruct (c =? 34)%N eqn:Hq.
  { apply N.eqb_eq in Hq. subst c. intros [= <- <-]. apply closed_by_here. }
  destruct (c =? 92)%N.
  - destruct r as [|e r1]; [discriminate|]. cbn [length] in Hn.
    destruct (e =? 117)%N.
    + destruct r1 as [|h1 [|h2 [|h3 [|h4 r2]]]]; try discriminate.
      cbn [length] in Hn.
      destruct (hex4 h1 h2 h3 h4) as [u|]; [|discriminate].
      destruct (is_high_surrogate u).
      * destruct r2 as [|x1 r2'].
        { intros H. do 6 apply closed_by_cons. eapply Hcont; [|exact H].
          cbn [length] in *; lia. }
        destruct (x1 =? 92)%N eqn:Hx1.
        -- apply N.eqb_eq in Hx1. subst x1.
           destruct r2' as [|x2 r3].
           { intros H. do 6 apply closed_by_cons. eapply Hcont; [|exact H].
             cbn [length] in *; lia. }
           destruct (x2 =? 117)%N eqn:Hx2.
           ++ apply N.eqb_eq in Hx2. subst x2.
              destruct r3 as [|g1 [|g2 [|g3 [|g4 r4]]]]; try discriminate.
              destruct (hex4 g1 g2 g3 g4) as [u2|]; [|discriminate].
              destruct (is_low_surrogate u2); intros H.
              ** do 12 apply closed_by_cons. eapply Hcont; [|exact H].
                 cbn [length] in *; lia.
              ** do 6 apply closed_by_cons. eapply Hcont; [|exact H].
                 cbn [length] in *; lia.
           ++ assert (Hm : forall A (x y : A),
                        match x2 with 117%N => x | _ => y end = y).
              { intros A x y. apply N.eqb_neq in Hx2.
                destruct x2 as [|p]; [reflexivity|].
                do 7 (destruct p as [p|p|]; try reflexivity). congruence. }
              rewrite Hm. intros H. do 6 apply closed_by_cons.
              eapply Hcont; [|exact H]. cbn [length] in *; lia.
        -- assert (Hm : forall A (x y : A),
                     match x1 with 92%N => x | _ => y end = y).
           { intros A x y. apply N.eqb_neq in Hx1.
             destruct x1 as [|p]; [reflexivity|].
             do 7 (destruct p as [p|p|]; try reflexivity). congruence. }
           rewrite Hm. intros H. do 6 apply closed_by_cons.
           eapply Hcont; [|exact H]. cbn [length] in *; lia.
      * intros H. do 6 apply closed_by_cons. eapply Hcont; [|exact H].
        cbn [length] in *; lia.
    + destruct (simple_escape e); [|discriminate]. intros H.
      do 2 apply closed_by_cons. eapply Hcont; [|exact H].
      cbn [length] in *; lia.
  - destruct (c <=? 31)%N; [discriminate|]. intros H.
    apply closed_by_cons. eapply Hcont; [|exact H]. cbn [length] in *; lia.
  Unshelve. all: exact 0%N.
Qed.

Lemma span_digits_split (s ds rest : str) :
  span_digits s = (ds, rest) ->
  s = ds ++ rest /\ Forall (fun c => is_digit c = true) ds.
Proof.
  revert ds rest; induction s as [|c r IH]; intros ds rest; cbn.
  - intros [= <- <-]. now split.
  - destruct (is_digit c) eqn:Hc.
    + destruct (span_digits r) as [ds' rest'] eqn:Hr. intros [= <- <-].
      destruct (IH _ _ eq_refl) as [-> Hall]. split; [reflexivity|].
      now constructor.
    + intros [= <- <-]. now split.
Qed.

Lemma digits_end (ds : str) :
  ds <> [] -> Forall (fun c => is_digit c = true) ds ->
  exists pre c, ds = pre ++ [c] /\ is_digit c = true.
Proof.
  intros Hne Hall. destruct (exists_last Hne) as (pre & c & ->).
  exists pre, c. split; [reflexivity|].
  apply Forall_app in Hall. destruct Hall as [_ Hc]. now inversion Hc.
Qed.

(** The two character patterns of [match_number] as tests. *)
Lemma match_minus (A : Type) (s : str) (f : str -> A) (d : A) :
  match s with 45%N :: r => f r | _ => d end
  = if head_is 45 s then f (tl s) else d.
Proof.
  destruct s as [|c r]; [reflexivity|]. cbn [head_is tl].
  destruct c as [|p]; [reflexivity|].
  do 6 (destruct p as [p|p|]; try reflexivity).
Qed.

Lemma match_dot (A : Type) (s : str) (f : str -> A) (d : A) :
  match s with 46%N :: r => f r | _ => d end
  = if head_is 46 s then f (tl s) else d.
Proof.
  destruct s as [|c r]; [reflexivity|]. cbn [head_is tl].
  destruct c as [|p]; [reflexivity|].
  do 6 (destruct p as [p|p|]; try reflexivity).
Qed.

Lemma match_number_closed (s : str) (v : json) (rest : str) :
  match_number s = Some (v, rest) ->
  exists c, closed_by c s rest /\ is_digit c = true.
Proof.
  unfold match_number. rewrite match_minus.
  match goal with
  | |- (let (_, _) := ?t in _) = _ -> _ => set (signed := t)
  end.
  assert (Hsigned : s = fst signed ++ snd signed).
  { subst signed. destruct (head_is 45 s) eqn:Hm; [|reflexivity].
    now apply head_is_split in Hm. }
  destruct signed as [sign s1]. cbn [fst snd] in Hsigned.
  set (integer := match s1 with
                  | [] => None
                  | c :: r =>
                      if (c =? 48)%N then Some ([c], r)
                      else if is_digit c
                           then let (ds, rest0) := span_digits r in
                                Some (c :: ds, rest0)
                           else None
                  end).
  assert (Hint : forall ipart s2, integer = Some (ipart, s2) ->
            s1 = ipart ++ s2
            /\ exists pre c, ipart = pre ++ [c] /\ is_digit c = true).
  { subst integer. intros ipart s2. destruct s1 as [|c r]; [discriminate|].
    destruct (c =? 48)%N eqn:H0.
    - intros [= <- <-]. split; [reflexivity|]. exists [], c. split; [reflexivity|].
      apply N.eqb_eq in H0. now subst c.
    - destruct (is_digit c) eqn:Hc; [|discriminate].
      destruct (span_digits r) as [ds rest0] eqn:Hsp. intros [= <- <-].
      apply span_digits_split in Hsp. destruct Hsp as [-> Hall].
      split; [reflexivity|]. apply digits_end; [discriminate|].
      now constructor. }
  destruct integer as [[ipart s2]|]; [|discriminate].
  destruct (Hint _ _ eq_refl) as (Hs1 & ipre & ic & Hipart & Hic). clear Hint.
  rewrite match_dot.
  match goal with
  | |- (let (_, _) := ?t in _) = _ -> _ => set (fraction := t)
  end.
  assert (Hfrac : s2 = fst fraction ++ snd fraction
            /\ (fst fraction = []
                \/ exists pre c, fst fraction = pre ++ [c] /\ is_digit c = true)).
  { subst fraction. destruct (head_is 46 s2) eqn:Hdot;
      [|split; [reflexivity | now left]].
    destruct (span_digits (tl s2)) as [[|d ds] rest0] eqn:Hsp; cbn [fst snd];
      [split; [reflexivity | now left]|].
    apply span_digits_split in Hsp. destruct Hsp as [Htl Hall].
    split; [rewrite (head_is_split _ _ Hdot) at 1; now rewrite Htl|]. right.
    destruct (digits_end (ds := d :: ds)) as (pre & c & Hpre & Hc');
      [discriminate | exact Hall |].
    exists (46%N :: pre), c. split; [|exact Hc']. cbn. now rewrite Hpre. }
  destruct fraction as [frac s3]. cbn [fst snd] in Hfrac.
  destruct Hfrac as [Hs2 Hfrac].
  set (exponent := match s3 with
                   | [] => ([], s3)
                   | e :: r =>
                       if ((e =? 101) || (e =? 69))%N
                       then
                         let (esign, r1) :=
                           match r with
                           | [] => ([], r)
                           | c :: r' =>
                               if ((c =? 43) || (c =? 45))%N
                               then ([c], r') else ([], r)
                           end in
                         match span_digits r1 with
                         | ([], _) => ([], s3)
                         | (ds, rest0) => (e :: esign ++ ds, rest0)
                         end
                       else ([], s3)
                   end).
  assert (Hexp : s3 = fst exponent ++ snd exponent
            /\ (fst exponent = []
                \/ exists pre c, fst exponent = pre ++ [c] /\ is_digit c = true)).
  { subst exponent. destruct s3 as [|e r]; [split; [reflexivity | now left]|].
    destruct ((e =? 101) || (e =? 69))%N; [|split; [reflexivity | now left]].
    set (signed_exp := match r with
                       | [] => ([], r)
                       | c :: r' =>
                           if ((c =? 43) || (c =? 45))%N
                           then ([c], r') else ([], r)
                       end).
    assert (Hse : r = fst signed_exp ++ snd signed_exp).
    { subst signed_exp. destruct r as [|c r']; [reflexivity|].
      destruct ((c =? 43) || (c =? 45))%N; reflexivity. }
    destruct signed_exp as [esign r1]. cbn [fst snd] in Hse.
    destruct (span_digits r1) as [[|d ds] rest0] eqn:Hsp; cbn [fst snd];
      [split; [reflexivity | now left]|].
    apply span_digits_split in Hsp. destruct Hsp as [Hr1 Hall].
    split; [rewrite Hse, Hr1; cbn; now rewrite <- app_assoc|]. right.
    destruct (digits_end (ds := d :: ds)) as (pre & c & Hpre & Hc');
      [discriminate | exact Hall |].
    exists (e :: esign ++ pre), c. split; [|exact Hc'].
    cbn. rewrite Hpre. now rewrite <- app_assoc. }
  destruct exponent as [expo s4]. cbn [fst snd] in Hexp.
  destruct Hexp as [Hs3 Hexp].
  assert (Hused : s = (sign ++ ipart ++ frac ++ expo) ++ s4).
  { rewrite Hsigned, Hs1, Hs2, Hs3. now rewrite <- !app_assoc. }
  assert (Hend : exists pre c, sign ++ ipart ++ frac ++ expo = pre ++ [c]
                               /\ is_digit c = true).
  { destruct Hexp as [-> | (pre & c & -> & Hc)].
    - rewrite app_nil_r. destruct Hfrac as [-> | (pre & c & -> & Hc)].
      + rewrite app_nil_r. exists (sign ++ ipre), ic. split; [|exact Hic].
        rewrite Hipart. now rewrite app_assoc.
      + exists (sign ++ ipart ++ pre), c. split; [|exact Hc].
        now rewrite <- !app_assoc.
    - exists (sign ++ ipart ++ frac ++ pre), c. split; [|exact Hc].
      now rewrite <- !app_assoc. }
  destruct Hend as (pre & c & Hpre & Hc).
  assert (Hclosed : closed_by c s s4).
  { exists pre. rewrite Hused, Hpre. now rewrite <- app_assoc. }
  destruct frac, expo; intros [= _ <-]; eauto.
Qed.

Lemma match_number_kind (s : str) (v : json) (rest : str) :
  match_number s = Some (v, rest) ->
  (exists z, v = JInt z) \/ (exists l, v = JFloat l).
Proof.
  unfold match_number.
  repeat match goal with
         | |- context [let (_, _) := ?t in _] => destruct t
         | |- context [match ?t with Some _ => _ | None => _ end] => destruct t
         | |- context [match ?t with [] => _ | _ :: _ => _ end] => destruct t
         end;
    try discriminate; intros [= <- _]; eauto.
Qed.

Lemma literal_closed (word : str) (c : N) (pre s : str) :
  word = pre ++ [c] -> starts_with word s = true ->
  closed_by c s (skipn (length word) s).
Proof.
  intros Hw Hs. apply starts_with_split in Hs. exists pre.
  rewrite Hs at 1. rewrite Hw. now rewrite <- app_assoc.
Qed.

(** The case of a literal word in [scan_closed]: the word is read, and its
    last letter is not a closing brace. *)
Ltac literal_closed_case word c pre :=
  let Heq := fresh "Heq" in
  intros Heq; injection Heq as <- <-; exists c;
  split; [ apply (@literal_closed word c pre);
           [reflexivity | assumption]
         | discriminate ].

(** Where a scanned value ends: an object with a closing brace, anything
    else with another character; members end with the closing brace of
    their object and items with the closing bracket of their array. *)
Lemma scan_closed (fuel : nat) :
  (forall s v r, scan_once fuel s = Scanned v r ->
     exists c, closed_by c s r
               /\ match v with JObject _ => c = 125%N | _ => c <> 125%N end)
  /\ (forall s acc v r,
        scan_members fuel s acc = Scanned v r -> closed_by 125 s r)
  /\ (forall s acc v r,
        scan_items fuel s acc = Scanned v r -> closed_by 93 s r).
Proof.
  induction fuel as [|f (IHv & IHm & IHi)];
    [repeat split; intros; discriminate|].
  split; [|split].
  - intros s v r. cbn [scan_once].
    destruct (head_is 34 s) eqn:Hq.
    { destruct (scanstring (tl s)) as [[body rest]|] eqn:Hs; [|discriminate].
      intros [= <- <-]. exists 34%N. split; [|discriminate].
      eapply closed_by_tl; [exact Hq|]. eapply scanstring_closed; eauto. }
    destruct (head_is 123 s) eqn:Hb.
    { cbv zeta. destruct (head_is 125 (skip_ws (tl s))) eqn:Hc.
      { intros [= <- <-]. exists 125%N. split; [|reflexivity].
        eapply closed_by_tl; [exact Hb|]. apply closed_by_skip_ws.
        now apply closed_by_head. }
      destruct (head_is 34 (skip_ws (tl s))) eqn:Hk; [|discriminate].
      destruct (scan_members f (tl (skip_ws (tl s))) []) as [pairs rest| |] eqn:Hm;
        try discriminate.
      intros [= <- <-]. exists 125%N. split; [|reflexivity].
      eapply closed_by_tl; [exact Hb|]. apply closed_by_skip_ws.
      eapply closed_by_tl; [exact Hk|]. eapply IHm; eauto. }
    destruct (head_is 91 s) eqn:Ha.
    { cbv zeta. destruct (head_is 93 (skip_ws (tl s))) eqn:Hc.
      { intros [= <- <-]. exists 93%N. split; [|discriminate].
        eapply closed_by_tl; [exact Ha|]. apply closed_by_skip_ws.
        now apply closed_by_head. }
      destruct (scan_items f (skip_ws (tl s)) []) as [items rest| |] eqn:Hi;
        try discriminate.
      intros [= <- <-]. exists 93%N. split; [|discriminate].
      eapply closed_by_tl; [exact Ha|]. apply closed_by_skip_ws.
      eapply IHi; eauto. }
    destruct (starts_with (lit "null") s) eqn:H1.
    { literal_closed_case (lit "null") 108%N (lit "nul"). }
    destruct (starts_with (lit "true") s) eqn:H2.
    { literal_closed_case (lit "true") 101%N (lit "tru"). }
    destruct (starts_with (lit "false") s) eqn:H3.
    { literal_closed_case (lit "false") 101%N (lit "fals"). }
    destruct (match_number s) as [[v0 rest]|] eqn:Hn.
    { intros [= <- <-].
      destruct (match_number_closed _ Hn) as (c & Hc & Hd). exists c.
      split; [exact Hc|].
      assert (Hne : c <> 125%N) by (intros ->; discriminate).
      destruct (match_number_kind _ Hn) as [[z ->] | [l ->]]; exact Hne. }
    destruct (starts_with (lit "NaN") s) eqn:H4.
    { literal_closed_case (lit "NaN") 78%N (lit "Na"). }
    destruct (starts_with (lit "Infinity") s) eqn:H5.
    { literal_closed_case (lit "Infinity") 121%N (lit "Infinit"). }
    destruct (starts_with (lit "-Infinity") s) eqn:H6; [|discriminate].
    literal_closed_case (lit "-Infinity") 121%N (lit "-Infinit").
  - intros s acc v r. cbn [scan_members].
    destruct (scanstring s) as [[key r0]|] eqn:Hs; [|discriminate].
    apply scanstring_closed in Hs. destruct Hs as [used0 Hs]. cbv zeta.
    destruct (head_is 58 (skip_ws r0)) eqn:Hc; [|discriminate].
    destruct (scan_once f (skip_ws (tl (skip_ws r0)))) as [v0 r2| |] eqn:Hv;
      try discriminate.
    apply IHv in Hv. destruct Hv as (c0 & Hv & _).
    assert (Hpre : forall c rest, closed_by c r2 rest -> closed_by c s rest).
    { intros c rest Hr2. rewrite Hs.
      apply closed_by_app. apply closed_by_cons. apply closed_by_skip_ws.
      eapply closed_by_tl; [exact Hc|]. apply closed_by_skip_ws.
      destruct Hv as [used1 ->]. apply closed_by_app. now apply closed_by_cons. }
    destruct (head_is 125 (skip_ws r2)) eqn:He.
    { intros [= _ <-]. apply Hpre. apply closed_by_skip_ws.
      now apply closed_by_head. }
    destruct (head_is 44 (skip_ws r2)) eqn:Hcm; [|discriminate].
    destruct (head_is 34 (skip_ws (tl (skip_ws r2)))) eqn:Hk; [|discriminate].
    intros Hm. apply IHm in Hm. apply Hpre. apply closed_by_skip_ws.
    eapply closed_by_tl; [exact Hcm|]. apply closed_by_skip_ws.
    eapply closed_by_tl; [exact Hk|]. exact Hm.
  - intros s acc v r. cbn [scan_items].
    destruct (scan_once f s) as [v0 r0| |] eqn:Hv; try discriminate.
    apply IHv in Hv. destruct Hv as (c0 & [used0 Hv] & _). cbv zeta.
    assert (Hpre : forall c rest, closed_by c r0 rest -> closed_by c s rest).
    { intros c rest Hr0. rewrite Hv. apply closed_by_app.
      now apply closed_by_cons. }
    destruct (head_is 93 (skip_ws r0)) eqn:He.
    { intros [= _ <-]. apply Hpre. apply closed_by_skip_ws.
      now apply closed_by_head. }
    destruct (head_is 44 (skip_ws r0)) eqn:Hcm; [|discriminate].
    intros Hi. apply IHi in Hi. apply Hpre. apply closed_by_skip_ws.
    eapply closed_by_tl; [exact Hcm|]. apply closed_by_skip_ws. exact Hi.
Qed.

(** Only a text that begins with an opening brace scans as an object. *)
Lemma scan_object_head (fuel : nat) (s : str) (o : list (str * json))
      (r : str) :
  scan_once fuel s = Scanned (JObject o) r -> head_is 123 s = true.
Proof.
  destruct fuel as [|f]; [discriminate|]. cbn [scan_once].
  destruct (head_is 34 s).
  { destruct (scanstring (tl s)) as [[body rest]|]; discriminate. }
  destruct (head_is 123 s); [reflexivity|].
  destruct (head_is 91 s).
  { cbv zeta. destruct (head_is 93 (skip_ws (tl s))); [discriminate|].
    destruct (scan_items f (skip_ws (tl s)) []); discriminate. }
  destruct (starts_with (lit "null") s); [discriminate|].
  destruct (starts_with (lit "true") s); [discriminate|].
  destruct (starts_with (lit "false") s); [discriminate|].
  destruct (match_number s) as [[v0 rest]|] eqn:Hn.
  { intros [= -> _]. destruct (match_number_kind _ Hn) as [[z H] | [l H]];
      discriminate. }
  destruct (starts_with (lit "NaN") s); [discriminate|].
  destruct (starts_with (lit "Infinity") s); [discriminate|].
  destruct (starts_with (lit "-Infinity") s); discriminate.
Qed.

(** ** What [strip] leaves *)

Lemma is_ws_space (c : N) : is_ws c = true -> is_space c = true.
Proof.
  unfold is_ws, is_space. intros H.
  repeat (apply orb_true_iff in H; destruct H as [H|H]);
    apply N.eqb_eq in H; subst c; reflexivity.
Qed.

Lemma lstrip_head (s : str) (c : N) (r : str) :
  lstrip s = c :: r -> is_space c = false.
Proof.
  induction s as [|x s IH]; cbn; [discriminate|].
  destruct (is_space x) eqn:Hx; [exact IH|]. now intros [= <- _].
Qed.

Lemma lstrip_spaces (s : str) :
  Forall (fun c => is_space c = true) s -> lstrip s = [].
Proof.
  induction 1 as [|c s Hc _ IH]; cbn; [reflexivity|]. now rewrite Hc.
Qed.

(** Stripping on the left stops at the first character that is no space. *)
Lemma lstrip_app (a : str) (c : N) (b : str) :
  is_space c = false -> lstrip (a ++ c :: b) = lstrip a ++ c :: b.
Proof.
  intros Hc. induction a as [|x a IH]; cbn; [now rewrite Hc|].
  destruct (is_space x); [exact IH | reflexivity].
Qed.

Lemma strip_last (s pre : str) (c : N) :
  strip s = pre ++ [c] -> is_space c = false.
Proof.
  unfold strip. intros H.
  assert (Hrev : lstrip (rev (lstrip s)) = c :: rev pre).
  { rewrite <- (rev_involutive (lstrip (rev (lstrip s)))), H.
    now rewrite rev_app_distr. }
  exact (lstrip_head _ Hrev).
Qed.

(** Text around a document that begins and ends with characters that are no
    spaces: [strip] removes the spaces after it and those that begin the
    text before it, nothing else. *)
Lemma strip_around (pre doc trail : str) (first last : N) (middle : str) :
  doc = first :: middle -> is_space first = false ->
  (exists body, doc = body ++ [last]) -> is_space last = false ->
  Forall (fun c => is_space c = true) trail ->
  strip (pre ++ doc ++ trail) = lstrip pre ++ doc.
Proof.
  intros Hdoc Hfirst [body Hbody] Hlast Htrail. unfold strip.
  assert (H1 : lstrip (pre ++ doc ++ trail) = lstrip pre ++ doc ++ trail).
  { rewrite Hdoc. cbn [app]. now apply lstrip_app. }
  rewrite H1, !rev_app_distr.
  assert (H2 : rev doc = last :: rev body).
  { rewrite Hbody, rev_app_distr. reflexivity. }
  rewrite H2, <- !app_assoc. cbn [app].
  rewrite lstrip_app by exact Hlast.
  rewrite lstrip_spaces by (apply Forall_rev; exact Htrail).
  cbn [app]. change (last :: rev body ++ rev (lstrip pre))
    with ((last :: rev body) ++ rev (lstrip pre)).
  rewrite <- H2, rev_app_distr, !rev_involutive. reflexivity.
Qed.

(** ** The first brace *)

Lemma from_first_brace_split (s u : str) :
  from_first_brace s = Some u ->
  exists pre, s = pre ++ u /\ head_is 123 u = true.
Proof.
  induction s as [|c r IH]; cbn [from_first_brace]; [discriminate|].
  destruct (c =? 123)%N eqn:Hc.
  - intros [= <-]. exists []. split; [reflexivity|]. exact Hc.
  - intros H. destruct (IH H) as (pre & -> & Hu). now exists (c :: pre).
Qed.

Lemma find_char_suffix (c : N) (a b : str) :
  find_char c (a ++ b) = (-1)%Z -> find_char c b = (-1)%Z.
Proof.
  induction a as [|x a IH]; cbn [app find_char]; [auto|].
  destruct (N.eqb x c); [discriminate|].
  destruct (Z.ltb_spec (find_char c (a ++ b)) 0); [|lia].
  intros _. apply IH.
  assert (Hge : forall s, (-1 <= find_char c s)%Z).
  { induction s as [|y s IHs]; cbn [find_char]; [lia|].
    destruct (N.eqb y c); [lia|].
    destruct (Z.ltb_spec (find_char c s) 0); lia. }
  specialize (Hge (a ++ b)). lia.
Qed.

Lemma from_first_brace_app (pre doc : str) :
  find_char 123 pre = (-1)%Z -> head_is 123 doc = true ->
  from_first_brace (pre ++ doc) = Some doc.
Proof.
  intros Hpre Hdoc. induction pre as [|c pre IH]; cbn [app].
  - destruct doc as [|d doc]; [discriminate|]. cbn in Hdoc |- *.
    now rewrite Hdoc.
  - cbn [find_char] in Hpre. cbn [from_first_brace].
    destruct (c =? 123)%N; [discriminate|]. apply IH.
    destruct (Z.ltb_spec (find_char 123 pre) 0); [|lia].
    assert (Hge : forall s, (-1 <= find_char 123 s)%Z).
    { induction s as [|y s IHs]; cbn [find_char]; [lia|].
      destruct (N.eqb y 123); [lia|].
      destruct (Z.ltb_spec (find_char 123 s) 0); lia. }
    specialize (Hge pre). lia.
Qed.

Lemma lstrip_suffix (s : str) : exists spaces, s = spaces ++ lstrip s.
Proof.
  induction s as [|c s [spaces IH]]; [now exists []|].
  cbn. destruct (is_space c); [|now exists []].
  exists (c :: spaces). cbn. now rewrite <- IH.
Qed.

(** ** Documents and their last character *)

Lemma skip_ws_all (s : str) :
  skip_ws s = [] -> Forall (fun c => is_ws c = true) s.
Proof.
  induction s as [|c s IH]; cbn; [constructor|].
  destruct (is_ws c) eqn:Hc; [|discriminate]. intros H. constructor; auto.
Qed.

Lemma closed_by_unique (c d : N) (s : str) :
  ends_with c s -> ends_with d s -> c = d.
Proof.
  intros [u1 H1] [u2 H2]. rewrite H1 in H2.
  change (u1 ++ [c] = u2 ++ [d]) in H2.
  apply app_inj_tail in H2. now destruct H2.
Qed.

(** A text without spaces at its end that decodes as a document ends with
    the last character of the document: a closing brace for an object, and
    only for an object. *)
Lemma json_loads_last (t : str) (v : json) :
  json_loads t = Some v ->
  (forall pre c, t = pre ++ [c] -> is_space c = false) ->
  exists c, ends_with c t
            /\ match v with JObject _ => c = 125%N | _ => c <> 125%N end.
Proof.
  unfold json_loads. intros Hload Hend.
  destruct (scan_once (budget t) (skip_ws t)) as [v0 rest| |] eqn:Hscan;
    try discriminate.
  destruct (skip_ws rest) eqn:Hrest; [|discriminate].
  injection Hload as <-.
  destruct (scan_closed (budget t)) as (Hv & _ & _).
  destruct (Hv _ _ _ Hscan) as (c & Hc & Hkind).
  apply closed_by_skip_ws in Hc. exists c. split; [|exact Hkind].
  destruct rest as [|x rest']; [exact Hc|]. exfalso.
  destruct (@exists_last _ (x :: rest')) as (body & z & Hz); [discriminate|].
  apply skip_ws_all in Hrest. rewrite Hz in Hrest.
  apply Forall_app in Hrest. destruct Hrest as [_ Hzws].
  inversion Hzws as [|? ? Hws _]; subst.
  destruct Hc as [used Hused].
  assert (Hsp : is_space z = false).
  { apply (Hend (used ++ c :: body)). rewrite Hused, Hz.
    now rewrite <- app_assoc. }
  apply is_ws_space in Hws. congruence.
Qed.

(** Only a text whose first character after JSON whitespace is an opening
    brace decodes as an object. *)
Lemma json_loads_object_head (t : str) (o : list (str * json)) :
  json_loads t = Some (JObject o) -> head_is 123 (skip_ws t) = true.
Proof.
  unfold json_loads.
  destruct (scan_once (budget t) (skip_ws t)) as [v0 rest| |] eqn:Hscan;
    try discriminate.
  destruct (skip_ws rest); [|discriminate]. intros [= ->].
  eapply scan_object_head; eauto.
Qed.

(** ** Test runner: what the reading of the output tolerates *)



(** X3. What [run_skill_test] can return: a pass only for a process that
    ran to its end, and never together with a context; a context only with
    a failure, only in fix-context mode, and never one whose status is
    all_passed.  In fix-context mode, as the loop uses it, the exit code and
    the error output of the process play no role. *)
Theorem X3_test_result_shape (c : SkillTestCall) (p : proc) :
  (fst (skill_test_result c p) = true ->
     snd (skill_test_result c p) = None
     /\ exists stdout stderr rc, p = Completed stdout stderr rc)
  /\ (forall ctx, snd (skill_test_result c p) = Some ctx ->
        fst (skill_test_result c p) = false
        /\ is_all_passed ctx = false
        /\ st_fix_context c = true)
  /\ (forall a n index stdout stderr stderr' rc rc',
        skill_test_result (test_call a n index) (Completed stdout stderr rc)
        = skill_test_result (test_call a n index) (Completed stdout stderr' rc')).
Proof.
  assert (Hread : forall raw,
            (fst (read_fix_context raw) = true -> snd (read_fix_context raw) = None)
            /\ (forall ctx, snd (read_fix_context raw) = Some ctx ->
                  fst (read_fix_context raw) = false /\ is_all_passed ctx = false)).
  { intros raw. rewrite read_fix_context_extract.
    destruct (extractJson raw) as [o|]; cbn [verdict_of].
    - destruct (is_all_passed o) eqn:Ho; cbn; split; try discriminate; auto.
      intros ctx [= <-]. now split.
    - cbn. split; discriminate. }
  split; [|split].
  - destruct p as [stdout stderr rc| |message]; cbn [skill_test_result];
      try discriminate.
    intros H. split; [|eauto].
    destruct (st_fix_context c); [now apply Hread | reflexivity].
  - intros ctx. destruct p as [stdout stderr rc| |message];
      cbn [skill_test_result]; try discriminate.
    destruct (st_fix_context c); [|discriminate].
    intros H. destruct (proj2 (Hread stdout) ctx H). now repeat split.
  - reflexivity.
Qed.

(** X4. With [max_attempts] zero or negative the loop, called for a platform
    that the command line accepts, runs no test and no fix agent and returns
    False; [main] then exits with status 1. *)
Theorem X4_no_attempts (E : Env) (max_attempts : Z) :
  (max_attempts <= 0)%Z ->
  (forall a w choice,
     platform a = platform_name choice ->
     run_refinement_loop E a max_attempts w = (Ok false, [], w))
  /\ (forall h args w,
        arg_max_attempts args = max_attempts ->
        plugins_found h
          (get_required_platforms (platform_name (arg_platform args))) = Ok true ->
        exit (fst (main E h args w)) = ExitStatus 1
        /\ attempts (fst (main E h args w)) = []
        /\ snd (main E h args w) = w).
Proof.
  intros Hmax.
  assert (Hloop : forall a w,
            run_refinement_loop E a max_attempts w = (Ok false, [], w)).
  { intros a w. unfold run_refinement_loop, attempt_numbers.
    replace (Z.to_nat max_attempts) with 0 by lia. reflexivity. }
  split; [intros a w choice _; apply Hloop|].
  intros h args w Hargs Hfound. unfold main. rewrite Hfound, Hargs, Hloop.
  now cbn.
Qed.

(** ** The loop: histories, contexts and indices along a run *)

Lemma run_attempt_number (E : Env) (a : LoopArgs) (max_attempts : Z)
      (w : World E) (i : nat) (log : AttemptLog) :
  nth_error (attempts_of (run_refinement_loop E a max_attempts w)) i = Some log ->
  al_attempt log = Z.of_nat (S i) /\ i < Z.to_nat max_attempts.
Proof.
  intros Hi. pose proof (loop_is_Run E a max_attempts w) as Hrun.
  pose proof (Run_number_at Hrun i Hi) as Hnum.
  assert (Hlt : i < Z.to_nat max_attempts).
  { rewrite <- (attempt_numbers_length max_attempts).
    apply nth_error_Some. congruence. }
  rewrite attempt_numbers_nth in Hnum by exact Hlt.
  injection Hnum as Hnum. now split.
Qed.

Lemma record_of_attempt (log : AttemptLog) (h : AttemptRecord) :
  In h (record_of log) -> attempt h = al_attempt log.
Proof.
  unfold record_of. destruct (al_step log) as [| |fx next|fx e];
    try (intros []).
  destruct (fx_result fx) as [r|e]; [|intros []].
  destruct (read_failure (fx_context fx)) as [[index suggestion]|e];
    [|intros []].
  now intros [<-|[]].
Qed.

Lemma record_of_length (log : AttemptLog) : length (record_of log) <= 1.
Proof.
  unfold record_of. destruct (al_step log) as [| |fx next|fx e]; cbn; try lia.
  destruct (fx_result fx) as [r|e]; cbn; [|lia].
  destruct (read_failure (fx_context fx)) as [[index suggestion]|e]; cbn; lia.
Qed.

Lemma flat_map_record_length (logs : list AttemptLog) :
  length (flat_map record_of logs) <= length logs.
Proof.
  induction logs as [|log logs IH]; cbn; [lia|].
  rewrite length_app. pose proof (record_of_length log). lia.
Qed.

(** X5. The attempt history of a run only grows: the history before a later
    attempt begins with the history before any earlier attempt.  Before the
    attempt with number n it has fewer than n entries, and each entry
    carries the number of an earlier attempt. *)
Theorem X5_history_grows (E : Env) (a : LoopArgs) (max_attempts : Z)
        (w : World E) :
  let logs := attempts_of (run_refinement_loop E a max_attempts w) in
  forall i j li lj,
    i <= j -> nth_error logs i = Some li -> nth_error logs j = Some lj ->
    (exists added,
       attempt_history (al_before lj) = attempt_history (al_before li) ++ added)
    /\ (Z.of_nat (length (attempt_history (al_before li))) < al_attempt li)%Z
    /\ (forall h, In h (attempt_history (al_before li)) ->
          (1 <= attempt h < al_attempt li)%Z).
Proof.
  intros logs i j li lj Hij Hi Hj.
  pose proof (loop_is_Run E a max_attempts w) as Hrun. fold logs in Hrun.
  destruct (Run_history Hrun i Hi) as (Hhi & _ & _).
  destruct (Run_history Hrun j Hj) as (Hhj & _ & _).
  cbn [initial_state attempt_history app] in Hhi, Hhj.
  destruct (run_attempt_number E a max_attempts w i Hi) as [Hni _].
  split; [|split].
  - exists (flat_map record_of (skipn i (firstn j logs))).
    rewrite Hhi, Hhj, <- flat_map_app. f_equal.
    rewrite <- (firstn_skipn i (firstn j logs)) at 1. f_equal.
    rewrite firstn_firstn. now rewrite Nat.min_l.
  - rewrite Hhi, Hni.
    pose proof (flat_map_record_length (firstn i logs)) as Hlen.
    pose proof (firstn_le_length i logs). lia.
  - intros h Hin. rewrite Hhi in Hin. apply in_flat_map in Hin.
    destruct Hin as (log & Hlog & Hh).
    apply record_of_attempt in Hh. rewrite Hh, Hni.
    apply In_nth_error in Hlog. destruct Hlog as [k Hk].
    assert (Hki : k < i).
    { assert (Hlen : k < length (firstn i logs))
        by (apply nth_error_Some; congruence).
      pose proof (firstn_le_length i logs). rewrite length_firstn in Hlen. lia. }
    rewrite nth_error_firstn in Hk.
    destruct (Nat.ltb_spec k i); [|lia].
    destruct (run_attempt_number E a max_attempts w k Hk) as [-> _]. lia.
Qed.

Lemma text_field_value (failure : dict) (key default value : str) :
  text_field failure key default = Ok value ->
  (lookup key failure = None /\ value = default)
  \/ lookup key failure = Some (JString value).
Proof.
  unfold text_field.
  destruct (lookup key failure) as [[| | | |s| |]|]; intros H;
    try discriminate; injection H as <-; auto.
Qed.

(** What [read_failure] hands to the loop: the first 100 characters of the
    refinement suggestion (none when the failure has no suggestion), and the
    prompt index of the failure. *)
Lemma read_failure_value (ctx : dict) (index : option Z) (summary : str) :
  read_failure ctx = Ok (index, summary) ->
  exists failure suggestion,
    (lookup (lit "failure") ctx = Some (JObject failure)
     \/ lookup (lit "failure") ctx = None /\ failure = [])
    /\ summary = prefix 100 suggestion
    /\ (lookup (lit "refinement_suggestion") failure = None /\ suggestion = []
        \/ lookup (lit "refinement_suggestion") failure
           = Some (JString suggestion))
    /\ (index = None /\ (lookup (lit "prompt_index") failure = None
                         \/ lookup (lit "prompt_index") failure = Some JNull)
        \/ exists k, index = Some k
                     /\ lookup (lit "prompt_index") failure = Some (JInt k)).
Proof.
  unfold read_failure.
  destruct (lookup (lit "failure") ctx) as [[| | | | | |failure]|] eqn:Hf;
    try discriminate.
  - destruct (text_field failure (lit "prompt_text") (lit "unknown"));
      cbn [bind]; [|discriminate].
    destruct (text_field failure (lit "refinement_suggestion") [])
      as [suggestion|] eqn:Hs; cbn [bind]; [|discriminate].
    apply text_field_value in Hs. intros H. exists failure, suggestion.
    split; [now left|].
    destruct (lookup (lit "prompt_index") failure) as [[| |k| | | |]|];
      try discriminate; injection H as <- <-;
      (split; [reflexivity|]); (split; [tauto|]); eauto.
  - cbn [text_field lookup bind]. intros [= <- <-]. exists [], [].
    split; [now right|]. repeat split; auto.
Qed.

(** X6. Every entry of the attempt history carries an error summary of at
    most 100 characters: the beginning of the refinement suggestion of the
    failure it was recorded for, or nothing when that failure had none. *)
Theorem X6_error_summary_bounded (E : Env) (a : LoopArgs) (max_attempts : Z)
        (w : World E) :
  let logs := attempts_of (run_refinement_loop E a max_attempts w) in
  (forall log h, In log logs -> In h (attempt_history (al_before log)) ->
     length (error_summary h) <= 100)
  /\ (forall log fx next,
        In log logs -> al_step log = Fixed fx next ->
        exists h failure suggestion,
          attempt_history next = attempt_history (al_before log) ++ [h]
          /\ attempt h = al_attempt log
          /\ error_summary h = prefix 100 suggestion
          /\ (lookup (lit "failure") (fx_context fx) = Some (JObject failure)
              \/ lookup (lit "failure") (fx_context fx) = None /\ failure = [])
          /\ (lookup (lit "refinement_suggestion") failure = None
              /\ suggestion = []
              \/ lookup (lit "refinement_suggestion") failure
                 = Some (JString suggestion))).
Proof.
  intros logs.
  pose proof (loop_is_Run E a max_attempts w) as Hrun. fold logs in Hrun.
  assert (Hstep : forall log fx next,
            In log logs -> al_step log = Fixed fx next ->
            exists h failure suggestion,
              attempt_history next = attempt_history (al_before log) ++ [h]
              /\ attempt h = al_attempt log
              /\ error_summary h = prefix 100 suggestion
              /\ (lookup (lit "failure") (fx_context fx) = Some (JObject failure)
                  \/ lookup (lit "failure") (fx_context fx) = None
                     /\ failure = [])
              /\ (lookup (lit "refinement_suggestion") failure = None
                  /\ suggestion = []
                  \/ lookup (lit "refinement_suggestion") failure
                     = Some (JString suggestion))).
  { intros log fx next Hin Hfixed.
    destruct (Run_In_body Hrun log Hin) as (st & w' & n & ->).
    destruct (attempt_body_log E a st w' n) as (Hn & Hst & _ & _ & HS).
    rewrite Hfixed in HS.
    inversion HS; subst.
    match goal with
    | Hread : read_failure _ = Ok _ |- _ =>
        destruct (@read_failure_value _ _ _ Hread)
          as (failure & whole & Hf & Hsum & Hsug & _)
    end.
    eexists _, failure, whole. rewrite Hst, Hn. cbn.
    repeat split; eauto. }
  split; [|exact Hstep].
  intros log h Hin Hh.
  apply In_nth_error in Hin. destruct Hin as [i Hi].
  destruct (Run_history Hrun i Hi) as (Hhist & _ & _).
  cbn [initial_state attempt_history app] in Hhist.
  rewrite Hhist in Hh. apply in_flat_map in Hh.
  destruct Hh as (earlier & Hearlier & Hrec).
  assert (Hin' : In earlier logs).
  { apply In_nth_error in Hearlier. destruct Hearlier as [k Hk].
    rewrite nth_error_firstn in Hk. destruct (k <? i); [|discriminate].
    eapply nth_error_In; eauto. }
  unfold record_of in Hrec.
  destruct (al_step earlier) as [| |fx next|fx e] eqn:Hst; try destruct Hrec.
  destruct (fx_result fx) as [r|e]; [|destruct Hrec].
  destruct (read_failure (fx_context fx)) as [[index summary]|e] eqn:Hread;
    [|destruct Hrec].
  destruct Hrec as [<-|[]]. cbn [error_summary].
  destruct (@read_failure_value _ _ _ Hread) as (_ & suggestion & _ & -> & _).
  unfold prefix. rewrite length_firstn. lia.
Qed.

(** X7. The result of a fix agent whose process ran to its end: the summary
    is the text of the answer when that has at most 500 characters, and
    otherwise its last 500 characters; the success flag tells whether the
    exit code was 0, whatever the files found; and files are only reported
    for a text that says Edit, edited or updated. *)
Theorem X7_fix_result_of_completed_run (E : Env) (session : option str)
        (stdout stderr : str) (rc : Z) (r : FixResult) :
  fix_agent_result E session (Completed stdout stderr rc) = Ok r ->
  exists text,
    _extract_text_from_output stdout = Ok text
    /\ length (summary r) <= 500
    /\ (exists cut, text = cut ++ summary r)
    /\ (length text <= 500 -> summary r = text)
    /\ success r = (rc =? 0)%Z
    /\ (files_changed r <> [] ->
        contains (lit "Edit") text = true
        \/ contains (lit "edited") (lower text) = true
        \/ contains (lit "updated") (lower text) = true).
Proof.
  unfold fix_agent_result.
  destruct (_parse_fix_agent_output stdout session) as [sid|e]; cbn [bind];
    [|discriminate].
  destruct (_extract_text_from_output stdout) as [text|e]; cbn [bind];
    [|discriminate].
  intros [= <-]. exists text. cbn [summary success files_changed].
  split; [reflexivity|].
  unfold last_chars. destruct (Nat.ltb_spec 500 (length text)) as [Hlong|Hshort].
  - split; [rewrite length_skipn; lia|].
    split; [exists (firstn (length text - 500) text);
            now rewrite firstn_skipn|].
    split; [lia|]. split; [reflexivity|].
    intros Hfiles.
    destruct (contains (lit "Edit") text); [now left|].
    destruct (contains (lit "edited") (lower text)); [right; now left|].
    destruct (contains (lit "updated") (lower text)); [right; now right|].
    now elim Hfiles.
  - split; [lia|]. split; [now exists []|]. split; [reflexivity|].
    split; [reflexivity|].
    intros Hfiles.
    destruct (contains (lit "Edit") text); [now left|].
    destruct (contains (lit "edited") (lower text)); [right; now left|].
    destruct (contains (lit "updated") (lower text)); [right; now right|].
    now elim Hfiles.
Qed.


Lemma last_reported_app (l1 l2 : list AttemptLog) (current : option Z) :
  last_reported (l1 ++ l2) current = last_reported l2 (last_reported l1 current).
Proof.
  revert current; induction l1 as [|log l1 IH]; intros current; cbn;
    [reflexivity | apply IH].
Qed.

Lemma firstn_S_nth (A : Type) (l : list A) (i : nat) (x : A) :
  nth_error l i = Some x -> firstn (S i) l = firstn i l ++ [x].
Proof.
  revert i; induction l as [|y l IH]; intros [|i] H; cbn in H |- *;
    try discriminate.
  - now injection H as <-.
  - f_equal. now apply IH.
Qed.

(** X9. From one attempt to the next: when the test of an attempt fails
    with a context that names the failing prompt k, the next attempt is
    called with fork point k - 1 and prompt index k if k > 0, and with no
    fork point and prompt index 0 otherwise; when the context names no
    prompt, the next attempt is called with neither. *)
Theorem X9_next_attempt_resumes (E : Env) (a : LoopArgs) (max_attempts : Z)
        (w : World E) :
  let logs := attempts_of (run_refinement_loop E a max_attempts w) in
  forall i log next,
    nth_error logs i = Some log -> nth_error logs (S i) = Some next ->
    (forall k, reported_index log = Some (Some k) ->
       al_call next
       = test_call a (al_attempt log + 1) (Some k)
       /\ (0 < k ->
           st_fork_from (al_call next) = Some (k - 1)
           /\ st_prompt_index (al_call next) = Some k)%Z
       /\ (k <= 0 ->
           st_fork_from (al_call next) = None
           /\ st_prompt_index (al_call next) = Some 0)%Z)
    /\ (reported_index log = Some None ->
        st_fork_from (al_call next) = None
        /\ st_prompt_index (al_call next) = None).
Proof.
  intros logs i log next Hi Hnext.
  pose proof (loop_is_Run E a max_attempts w) as Hrun. fold logs in Hrun.
  destruct (Run_index Hrun (S i) Hnext) as [Hidx Hcall].
  cbn [initial_state last_failing_prompt_index] in Hidx.
  rewrite (firstn_S_nth _ _ Hi), last_reported_app in Hidx.
  cbn [last_reported] in Hidx.
  destruct (run_attempt_number E a max_attempts w i Hi) as [Hn _].
  destruct (run_attempt_number E a max_attempts w (S i) Hnext) as [Hn' _].
  assert (Hsucc : al_attempt next = (al_attempt log + 1)%Z) by lia.
  assert (Hgt : (1 < al_attempt next)%Z) by lia.
  split.
  - intros k Hk. rewrite Hk in Hidx. rewrite Hcall, Hidx, <- Hsucc.
    split; [reflexivity|]. cbn [test_call st_fork_from st_prompt_index].
    split; intros Hsign.
    + now rewrite fork_args_positive.
    + unfold fork_args. replace (al_attempt next >? 1)%Z with true by lia.
      now replace (k >? 0)%Z with false by lia.
  - intros Hk. rewrite Hk in Hidx. rewrite Hcall, Hidx.
    cbn [test_call st_fork_from st_prompt_index].
    now rewrite fork_args_unknown.
Qed.

Lemma Run_true_last (E : Env) (a : LoopArgs) (numbers : list Z)
      (st : LoopState) (logs : list AttemptLog) (r : res bool) :
  Run E a numbers st logs r -> r = Ok true ->
  exists log, In log logs /\ al_step log = Passed
              /\ forall d, last logs d = log.
Proof.
  induction 1 as [st | n rest st w0 log r Hlog Hstop
                 | n rest st w0 log next logs r Hlog Hnext Hrun IH];
    intros Hr.
  - discriminate.
  - exists log. split; [now left|]. split; [|reflexivity].
    unfold stops_with in Hstop. destruct (al_step log); try discriminate;
      [reflexivity | congruence].
  - destruct (IH Hr) as (l & Hin & Hp & Hl). exists l.
    split; [now right|]. split; [exact Hp|]. intros d.
    destruct logs as [|x logs]; [destruct Hin|]. exact (Hl d).
Qed.

(** X10. The loop returns True only on an explicit pass: the test process
    of the last attempt, run in the world that attempt started from, ran to
    its end and its output holds, whole or from its first opening brace, a
    JSON object whose status is all_passed.  A timeout, an exit code or
    output without such an object never counts as success. *)
Theorem X10_success_needs_all_passed (E : Env) (a : LoopArgs)
        (max_attempts : Z) (w : World E) :
  outcome_of (run_refinement_loop E a max_attempts w) = Ok true ->
  exists log w' stdout stderr rc object,
    (forall d, last (attempts_of (run_refinement_loop E a max_attempts w)) d
               = log)
    /\ In log (attempts_of (run_refinement_loop E a max_attempts w))
    /\ al_step log = Passed
    /\ log = fst (attempt_body E a (al_before log) w' (al_attempt log))
    /\ fst (docker_run E w' (al_call log) TEST_TIMEOUT)
       = Completed stdout stderr rc
    /\ extractJson stdout = Some object
    /\ is_all_passed object = true.
Proof.
  pose proof (loop_is_Run E a max_attempts w) as Hrun.
  intros Hr.
  destruct (Run_true_last Hrun Hr) as (log & Hin & Hp & Hl).
  destruct (Run_In_body Hrun log Hin) as (st & w' & n & Hlog).
  assert (Hpass : fst (al_verdict log) = true)
    by (subst log; now apply passed_iff).
  destruct (attempt_body_log E a st w' n) as (Hn & Hst & Hcall & Hverdict & _).
  rewrite <- Hlog in Hn, Hst, Hcall, Hverdict.
  assert (Hbody : log = fst (attempt_body E a (al_before log) w' (al_attempt log)))
    by (rewrite Hn, Hst; exact Hlog).
  unfold run_skill_test in Hverdict.
  destruct (docker_run E w' (al_call log) TEST_TIMEOUT) as [p w''] eqn:Hdocker.
  cbn [fst] in Hverdict. rewrite Hverdict in Hpass.
  destruct p as [stdout stderr rc| |message]; cbn in Hpass; try discriminate.
  assert (Hfix : st_fix_context (al_call log) = true) by now rewrite Hcall.
  rewrite Hfix, read_fix_context_extract in Hpass.
  destruct (extractJson stdout) as [object|] eqn:Hex; [|discriminate].
  cbn [verdict_of] in Hpass.
  destruct (is_all_passed object) eqn:Hall; [|discriminate].
  exists log, w', stdout, stderr, rc, object.
  rewrite Hdocker. repeat (split; [assumption|]). split; [reflexivity|].
  now split.
Qed.

Lemma text_blocks_of (blocks : list (str * str)) (content : list json) :
  Forall2 (fun b v => is_block (fst b) (snd b) v) blocks content ->
  text_blocks content = Ok (map JString (texts_of blocks)).
Proof.
  induction 1 as [|[kind text] v blocks content (members & -> & Hkind & Htext) _ IH].
  - reflexivity.
  - cbn [text_blocks fst snd] in *. rewrite IH. cbn [bind].
    rewrite Hkind. unfold texts_of. cbn [filter fst].
    destruct (str_eqb kind (lit "text")); [|reflexivity].
    now rewrite (Htext eq_refl).
Qed.

Lemma all_strings_map (texts : list str) :
  all_strings (map JString texts) = Ok texts.
Proof.
  induction texts as [|s texts IH]; cbn; [reflexivity|]. now rewrite IH.
Qed.

(** X11. The text of the agent's answer, when its output is a JSON object:
    a string under "result" is the answer, whatever "content" holds;
    otherwise, for a list of content blocks, the answer is the texts of the
    blocks of type "text", in their order, joined by newlines, blocks of
    other types being skipped; with neither, the raw output is the answer. *)
Theorem X11_text_of_answer (output : str) (data : dict) :
  json_loads output = Some (JObject data) ->
  (forall r, lookup (lit "result") data = Some (JString r) ->
     _extract_text_from_output output = Ok r)
  /\ (forall content blocks,
        (forall r, lookup (lit "result") data <> Some (JString r)) ->
        lookup (lit "content") data = Some (JArray content) ->
        Forall2 (fun b v => is_block (fst b) (snd b) v) blocks content ->
        _extract_text_from_output output = Ok (join [10%N] (texts_of blocks)))
  /\ ((forall r, lookup (lit "result") data <> Some (JString r)) ->
      (forall content, lookup (lit "content") data <> Some (JArray content)) ->
      _extract_text_from_output output = Ok output).
Proof.
  intros Hdoc. unfold _extract_text_from_output. rewrite Hdoc.
  split; [|split].
  - intros r Hr. now rewrite Hr.
  - intros content blocks Hnone Hcontent Hblocks.
    rewrite Hcontent, (text_blocks_of Hblocks). cbn [bind].
    rewrite all_strings_map. cbn [bind].
    destruct (lookup (lit "result") data) as [[]|]; try reflexivity.
    now elim (Hnone s).
  - intros Hnone Hno.
    assert (Hc : match lookup (lit "content") data with
                 | Some (JArray content) =>
                     (blocks <- text_blocks content ;;
                      texts <- all_strings blocks ;;
                      Ok (join [10%N] texts))%py
                 | _ => Ok output
                 end = Ok output).
    { destruct (lookup (lit "content") data) as [[]|]; try reflexivity.
      now elim (Hno items). }
    destruct (lookup (lit "result") data) as [[]|]; try exact Hc.
    now elim (Hnone s).
Qed.


Lemma Run_crash_last (E : Env) (a : LoopArgs) (numbers : list Z)
      (st : LoopState) (logs : list AttemptLog) (r : res bool) :
  Run E a numbers st logs r ->
  forall log fx e, In log logs -> al_step log = Crashed fx e ->
    r = Raise e /\ forall d, last logs d = log.
Proof.
  induction 1 as [st | n rest st w0 log r Hlog Hstop
                 | n rest st w0 log next logs r Hlog Hnext Hrun IH];
    intros l fx e Hin Hstep.
  - destruct Hin.
  - destruct Hin as [<-|[]]. unfold stops_with in Hstop.
    rewrite Hstep in Hstop. injection Hstop as <-. now split.
  - destruct Hin as [<-|Hin].
    + unfold state_after in Hnext. now rewrite Hstep in Hnext.
    + destruct (IH l fx e Hin Hstep) as [Hr Hl]. split; [exact Hr|].
      intros d. destruct logs as [|x logs]; [destruct Hin|]. exact (Hl d).
Qed.

(** X13. An exception of the fix agent is not caught by the loop: the
    attempt in which the call raised is the last one and the loop ends with
    that exception.  In particular, when the agent's process prints a valid
    JSON document that is not an object (a list, a string, a number, true,
    false or null), reading its session id raises AttributeError. *)
Theorem X13_fix_agent_crash_ends_run (E : Env) (a : LoopArgs)
        (max_attempts : Z) (w : World E) :
  let run := run_refinement_loop E a max_attempts w in
  (forall log fx e,
     In log (attempts_of run) -> fix_of log = Some fx ->
     fx_result fx = Raise e ->
     outcome_of run = Raise e /\ forall d, last (attempts_of run) d = log)
  /\ (forall session stdout stderr rc v,
        json_loads stdout = Some v -> (forall members, v <> JObject members) ->
        fix_agent_result E session (Completed stdout stderr rc)
        = Raise AttributeError).
Proof.
  intros run. split.
  - intros log fx e Hin Hfix Hres.
    pose proof (loop_is_Run E a max_attempts w) as Hrun. fold run in Hrun.
    assert (Hstep : al_step log = Crashed (Some fx) e).
    { destruct (Run_In_body Hrun log Hin) as (st & w' & n & ->).
      destruct (attempt_body_log E a st w' n) as (_ & _ & _ & _ & HS).
      unfold fix_of in Hfix.
      destruct HS; try discriminate; injection Hfix as <-; cbn in Hres;
        [congruence | discriminate]. }
    exact (Run_crash_last Hrun log Hin Hstep).
  - intros session stdout stderr rc v Hdoc Hv.
    unfold fix_agent_result, _parse_fix_agent_output. rewrite Hdoc.
    destruct v; try reflexivity. now elim (Hv members).
Qed.

(* ---------------------------------------------------------------------- *)
(** ** The docker command *)

Lemma flags_app (a b : list (str * str)) : flags (a ++ b) = flags a ++ flags b.
Proof. apply flat_map_app. Qed.

Lemma flags_map (flag : str) (value : str -> str) (l : list str) :
  flat_map (fun x => [flag; value x]) l = flags (map (fun x => (flag, value x)) l).
Proof. induction l as [|x l IH]; cbn; [reflexivity | now rewrite IH]. Qed.

Lemma credential_options_flags (h : Host) (mock_mode : bool)
      (platforms : list str) (l : list str) :
  credential_options h mock_mode platforms = Ok l ->
  exists options, l = flags options /\ Forall env_option options.
Proof.
  revert l; induction platforms as [|p rest IH]; intros l; cbn [credential_options].
  - intros [= <-]. now exists [].
  - destruct (config_of p) as [config|e]; cbn [bind]; [|discriminate].
    destruct (credential_options h mock_mode rest) as [more|e]; cbn [bind];
      [|discriminate].
    destruct (IH more eq_refl) as (options & -> & Hall). intros [= <-].
    exists (map (fun var => (lit "-e", var ++ lit "=" ++ environ_get h var))
                (env_vars config)
            ++ (if mock_mode
                then [(lit "-e", mock_env_var config ++ lit "=true")] else [])
            ++ options).
    split.
    + rewrite !flags_app, <- flags_map. now destruct mock_mode.
    + apply Forall_app. split; [apply Forall_forall; intros o Ho|].
      * apply in_map_iff in Ho. now destruct Ho as (var & <- & _).
      * apply Forall_app. split; [|exact Hall].
        destruct mock_mode; repeat constructor.
Qed.

Lemma secret_mounts_flags (h : Host) (AS_DEMO_PATH : str) :
  exists options,
    secret_mounts h AS_DEMO_PATH = flags options
    /\ Forall read_only_mount options.
Proof.
  unfold secret_mounts.
  set (secrets_dir := path_join AS_DEMO_PATH (lit "secrets")).
  exists ((if path_exists h (path_join secrets_dir (lit ".credentials.json"))
           then [(lit "-v",
                  secrets_dir
                  ++ lit "/.credentials.json:/home/devuser/.claude/.credentials.json:ro")]
           else [])
          ++ (if path_exists h (path_join secrets_dir (lit ".claude.json"))
              then [(lit "-v",
                     secrets_dir
                     ++ lit "/.claude.json:/home/devuser/.claude/.claude.json:ro")]
              else [])).
  split.
  - rewrite flags_app.
    now destruct (path_exists h (path_join secrets_dir (lit ".credentials.json"))),
      (path_exists h (path_join secrets_dir (lit ".claude.json"))).
  - apply Forall_app. split.
    + destruct (path_exists h (path_join secrets_dir (lit ".credentials.json")));
        repeat constructor. cbn [snd].
      exists (secrets_dir
              ++ lit "/.credentials.json:/home/devuser/.claude/.credentials.json").
      now rewrite <- app_assoc.
    + destruct (path_exists h (path_join secrets_dir (lit ".claude.json")));
        repeat constructor. cbn [snd].
      exists (secrets_dir
              ++ lit "/.claude.json:/home/devuser/.claude/.claude.json").
      now rewrite <- app_assoc.
Qed.

Lemma source_mounts_flags (h : Host) (platforms : list str) (l : list str) :
  source_mounts h platforms = Ok l ->
  exists options, l = flags options /\ Forall read_only_mount options.
Proof.
  revert l; induction platforms as [|p rest IH]; intros l; cbn [source_mounts].
  - intros [= <-]. now exists [].
  - destruct (config_of p) as [config|e]; cbn [bind]; [|discriminate].
    destruct (get_skills_path h p) as [skills_path|e]; cbn [bind];
      [|discriminate].
    cbv zeta.
    set (plugin_path :=
           if path_exists h
                (path_join (path_join skills_path (lit "plugins"))
                           (plugin_name config))
           then path_join (path_join skills_path (lit "plugins"))
                          (plugin_name config)
           else path_join skills_path (plugin_name config)).
    set (lib_path := path_join skills_path (lib_name config)).
    destruct (source_mounts h rest) as [more|e]; cbn [bind]; [|discriminate].
    destruct (IH more eq_refl) as (options & -> & Hall). intros [= <-].
    exists ((if path_exists h plugin_path
             then [(lit "-v",
                    plugin_path ++ lit ":/home/devuser/.claude/plugins/cache/"
                    ++ plugin_name config ++ lit "/" ++ plugin_name config
                    ++ lit "/dev:ro")]
             else [])
            ++ (if path_exists h lib_path
                then [(lit "-v",
                       lib_path ++ lit ":/opt/" ++ lib_name config ++ lit ":ro")]
                else [])
            ++ options).
    split.
    + rewrite !flags_app.
      now destruct (path_exists h plugin_path), (path_exists h lib_path).
    + apply Forall_app. split; [|apply Forall_app; split; [|exact Hall]].
      * destruct (path_exists h plugin_path); repeat constructor. cbn [snd].
        exists (plugin_path ++ lit ":/home/devuser/.claude/plugins/cache/"
                ++ plugin_name config ++ lit "/" ++ plugin_name config
                ++ lit "/dev").
        now rewrite <- !app_assoc.
      * destruct (path_exists h lib_path); repeat constructor. cbn [snd].
        exists (lib_path ++ lit ":/opt/" ++ lib_name config).
        now rewrite <- !app_assoc.
Qed.

(** X14. The command of a test run is [docker run --rm], a list of options,
    the entry point [bash] of the image as-demo-container:latest, and one
    inner command.  Every option is a variable of the environment or a
    mount, and every mount is read-only except the checkpoint directory:
    the container cannot write to the skills, the libraries or the
    credential files of the host. *)
Theorem X14_mounts_read_only (h : Host) (AS_DEMO_PATH : str)
        (c : SkillTestCall) (cmd : list str) :
  docker_command h AS_DEMO_PATH c = Ok cmd ->
  exists options inner_cmd,
    cmd = [lit "docker"; lit "run"; lit "--rm"]
          ++ flags options
          ++ [lit "--entrypoint"; lit "bash"; lit "as-demo-container:latest";
              lit "-c"; inner_cmd]
    /\ inner_command h c = Ok inner_cmd
    /\ forall flag value, In (flag, value) options ->
         flag = lit "-e"
         \/ (flag = lit "-v"
             /\ (value = lit "/tmp/checkpoints:/tmp/checkpoints"
                 \/ exists source, value = source ++ lit ":ro")).
Proof.
  unfold docker_command.
  destruct (credential_options h (st_mock_mode c)
              (get_required_platforms (st_platform c))) as [credentials|e] eqn:Hc;
    cbn [bind]; [|discriminate].
  destruct (source_mounts h (get_required_platforms (st_platform c)))
    as [sources|e] eqn:Hs; cbn [bind]; [|discriminate].
  destruct (inner_command h c) as [inner_cmd|e]; cbn [bind]; [|discriminate].
  intros [= <-].
  destruct (credential_options_flags _ _ _ Hc) as (o1 & -> & H1).
  destruct (secret_mounts_flags h AS_DEMO_PATH) as (o2 & -> & H2).
  destruct (source_mounts_flags _ _ Hs) as (o3 & -> & H3).
  exists (o1 ++ [(lit "-e", lit "SKILL_TEST_PLATFORM=" ++ st_platform c)]
          ++ o2 ++ o3
          ++ [(lit "-v", lit "/tmp/checkpoints:/tmp/checkpoints")]),
    inner_cmd.
  split; [|split; [reflexivity|]].
  - rewrite !flags_app. unfold flags at 2 6. cbn [flat_map fst snd].
    rewrite <- !app_assoc. reflexivity.
  - intros flag value Hin.
    rewrite !in_app_iff in Hin.
    destruct Hin as [Hin | [[Hin | []] | [Hin | [Hin | [Hin | []]]]]].
    + left. exact (proj1 (Forall_forall _ _) H1 _ Hin).
    + left. now injection Hin as <- _.
    + right. destruct (proj1 (Forall_forall _ _) H2 _ Hin) as [Hf Hv].
      split; [exact Hf | right; exact Hv].
    + right. destruct (proj1 (Forall_forall _ _) H3 _ Hin) as [Hf Hv].
      split; [exact Hf | right; exact Hv].
    + right. injection Hin as <- <-. split; [reflexivity | now left].
Qed.

Lemma Ok_inj (A : Type) (x y : A) : Ok x = Ok y -> x = y.
Proof. now intros [= ->]. Qed.

Lemma has_option_app_l (flag value : str) (a b : list str) :
  has_option flag value a -> has_option flag value (a ++ b).
Proof.
  intros (before & after & ->). exists before, (after ++ b).
  now rewrite <- app_assoc.
Qed.

Lemma has_option_app_r (flag value : str) (a b : list str) :
  has_option flag value b -> has_option flag value (a ++ b).
Proof.
  intros (before & after & ->). exists (a ++ before), after.
  now rewrite <- app_assoc.
Qed.

Lemma has_option_here (flag value : str) (after : list str) :
  has_option flag value (flag :: value :: after).
Proof. now exists [], after. Qed.

Lemma has_option_flat_map (flag : str) (value : str -> str) (l : list str)
      (x : str) :
  In x l -> has_option flag (value x) (flat_map (fun y => [flag; value y]) l).
Proof.
  induction l as [|y l IH]; intros Hin; [destruct Hin|].
  cbn [flat_map]. destruct Hin as [->|Hin].
  - apply has_option_app_l, has_option_here.
  - now apply has_option_app_r, IH.
Qed.

Lemma credential_options_has (h : Host) (mock_mode : bool)
      (platforms : list str) (l : list str) (p : str)
      (config : PlatformConfig) :
  credential_options h mock_mode platforms = Ok l ->
  In p platforms -> platform_config PLATFORM_CONFIG p = Some config ->
  (forall var, In var (env_vars config) ->
     has_option (lit "-e") (var ++ lit "=" ++ environ_get h var) l)
  /\ (mock_mode = true ->
      has_option (lit "-e") (mock_env_var config ++ lit "=true") l).
Proof.
  revert l; induction platforms as [|q rest IH]; intros l Hl Hin Hp;
    [destruct Hin|].
  cbn [credential_options] in Hl.
  destruct (config_of q) as [config'|e] eqn:Hq; cbn [bind] in Hl;
    [|discriminate].
  destruct (credential_options h mock_mode rest) as [more|e]; cbn [bind] in Hl;
    [|discriminate].
  injection Hl as <-. destruct Hin as [->|Hin].
  - unfold config_of in Hq. rewrite Hp in Hq. injection Hq as <-. split.
    + intros var Hvar. apply has_option_app_l.
      exact (has_option_flat_map (lit "-e")
               (fun var => var ++ lit "=" ++ environ_get h var) _ _ Hvar).
    + intros ->. apply has_option_app_r, has_option_app_l, has_option_here.
  - destruct (IH more eq_refl Hin Hp) as [Hvars Hmock]. split.
    + intros var Hvar. now apply has_option_app_r, has_option_app_r, Hvars.
    + intros Hm. now apply has_option_app_r, has_option_app_r, Hmock.
Qed.

(** X15. The command of a test run hands the container, for every required
    platform, each credential variable of that platform with the value it
    has on the host, and with the empty value when it is not set there; in
    mock mode it also sets the mock switch of every required platform; and
    it names the platform under test. *)
Theorem X15_credentials_forwarded (h : Host) (AS_DEMO_PATH : str)
        (c : SkillTestCall) (cmd : list str) :
  docker_command h AS_DEMO_PATH c = Ok cmd ->
  has_option (lit "-e") (lit "SKILL_TEST_PLATFORM=" ++ st_platform c) cmd
  /\ forall p config,
       In p (get_required_platforms (st_platform c)) ->
       platform_config PLATFORM_CONFIG p = Some config ->
       (forall var value, In var (env_vars config) ->
          environ h var = Some value ->
          has_option (lit "-e") (var ++ lit "=" ++ value) cmd)
       /\ (forall var, In var (env_vars config) -> environ h var = None ->
             has_option (lit "-e") (var ++ lit "=") cmd)
       /\ (st_mock_mode c = true ->
           has_option (lit "-e") (mock_env_var config ++ lit "=true") cmd).
Proof.
  unfold docker_command.
  destruct (credential_options h (st_mock_mode c)
              (get_required_platforms (st_platform c))) as [credentials|e] eqn:Hc;
    cbn [bind]; [|discriminate].
  destruct (source_mounts h (get_required_platforms (st_platform c)))
    as [sources|e]; cbn [bind]; [|discriminate].
  destruct (inner_command h c) as [inner_cmd|e]; cbn [bind]; [|discriminate].
  intros Hcmd. apply Ok_inj in Hcmd. subst cmd. split.
  - apply has_option_app_r, has_option_app_r, has_option_app_l.
    apply has_option_here.
  - intros p config Hin Hp.
    destruct (@credential_options_has _ _ _ _ _ _ Hc Hin Hp) as [Hvars Hmock].
    assert (Hlift : forall value,
               has_option (lit "-e") value credentials ->
               has_option (lit "-e") value
                 ([lit "docker"; lit "run"; lit "--rm"] ++
                  credentials ++
                  [lit "-e"; lit "SKILL_TEST_PLATFORM=" ++ st_platform c] ++
                  secret_mounts h AS_DEMO_PATH ++
                  sources ++
                  [lit "-v"; lit "/tmp/checkpoints:/tmp/checkpoints"] ++
                  [lit "--entrypoint"; lit "bash";
                   lit "as-demo-container:latest"; lit "-c"] ++ [inner_cmd]))
      by (intros value Hv; now apply has_option_app_r, has_option_app_l).
    split; [|split].
    + intros var value Hvar Hset. specialize (Hvars var Hvar).
      unfold environ_get in Hvars. rewrite Hset in Hvars. now apply Hlift.
    + intros var Hvar Hunset. specialize (Hvars var Hvar).
      unfold environ_get in Hvars. rewrite Hunset in Hvars.
      rewrite app_nil_r in Hvars. now apply Hlift.
    + intros Hm. now apply Hlift, Hmock.
Qed.

Lemma known_config (p : str) :
  In p CROSS_PLATFORM_REQUIRED ->
  exists config, platform_config PLATFORM_CONFIG p = Some config.
Proof.
  intros [<- | [<- | [<- | []]]]; vm_compute; eauto.
Qed.

Lemma required_configured (platform : str) :
  known_platform platform = true ->
  forall p, In p (get_required_platforms platform) ->
    exists config, platform_config PLATFORM_CONFIG p = Some config.
Proof.
  unfold known_platform, get_required_platforms. intros Hknown p.
  destruct (str_eqb platform (lit "cross-platform") || str_eqb platform (lit "all")).
  - apply known_config.
  - intros [<-|[]]. cbn [orb] in Hknown.
    destruct (platform_config PLATFORM_CONFIG platform); [eauto | discriminate].
Qed.

Section CommandBuilt.

Context (h : Host).

Lemma config_of_known (p : str) (config : PlatformConfig) :
  platform_config PLATFORM_CONFIG p = Some config -> config_of p = Ok config.
Proof. unfold config_of. now intros ->. Qed.

Lemma get_skills_path_known (p : str) (config : PlatformConfig) :
  platform_config PLATFORM_CONFIG p = Some config ->
  exists path, get_skills_path h p = Ok path.
Proof.
  unfold get_skills_path. intros ->.
  destruct (environ h (skills_path_env config)); eauto.
Qed.

Lemma credential_options_built (mock_mode : bool) (platforms : list str) :
  (forall p, In p platforms ->
     exists config, platform_config PLATFORM_CONFIG p = Some config) ->
  exists l, credential_options h mock_mode platforms = Ok l.
Proof.
  induction platforms as [|p rest IH]; intros Hall; cbn [credential_options];
    [eauto|].
  destruct (Hall p (or_introl eq_refl)) as [config Hp].
  rewrite (config_of_known _ Hp). cbn [bind].
  destruct IH as [more ->]; [intros q Hq; apply Hall; now right|].
  cbn [bind]. eauto.
Qed.

Lemma source_mounts_built (platforms : list str) :
  (forall p, In p platforms ->
     exists config, platform_config PLATFORM_CONFIG p = Some config) ->
  exists l, source_mounts h platforms = Ok l.
Proof.
  induction platforms as [|p rest IH]; intros Hall; cbn [source_mounts];
    [eauto|].
  destruct (Hall p (or_introl eq_refl)) as [config Hp].
  rewrite (config_of_known _ Hp). cbn [bind].
  destruct (get_skills_path_known _ Hp) as [path ->]. cbn [bind].
  destruct IH as [more ->]; [intros q Hq; apply Hall; now right|].
  cbn [bind]. eauto.
Qed.

Lemma setup_commands_built (platforms : list str) :
  (forall p, In p platforms ->
     exists config, platform_config PLATFORM_CONFIG p = Some config) ->
  exists setup, setup_commands platforms = Ok setup.
Proof.
  induction platforms as [|p rest IH]; intros Hall; cbn [setup_commands];
    [eauto|].
  destruct (Hall p (or_introl eq_refl)) as [config Hp].
  rewrite (config_of_known _ Hp). cbn [bind].
  destruct IH as [more ->]; [intros q Hq; apply Hall; now right|].
  cbn [bind]. eauto.
Qed.

Lemma skills_paths_built (platforms : list str) :
  (forall p, In p platforms ->
     exists config, platform_config PLATFORM_CONFIG p = Some config) ->
  exists paths, skills_paths_of h platforms = Ok paths.
Proof.
  induction platforms as [|p rest IH]; intros Hall; cbn [skills_paths_of];
    [eauto|].
  destruct (Hall p (or_introl eq_refl)) as [config Hp].
  destruct (get_skills_path_known _ Hp) as [path ->]. cbn [bind].
  destruct IH as [more ->]; [intros q Hq; apply Hall; now right|].
  cbn [bind]. eauto.
Qed.

Lemma scenario_file_built (platform scenario : str) :
  known_platform platform = true ->
  exists path, scenario_file platform scenario = Ok path.
Proof.
  unfold known_platform, scenario_file.
  destruct (str_eqb platform (lit "cross-platform") || str_eqb platform (lit "all"));
    [eauto|].
  cbn [orb]. unfold config_of.
  destruct (platform_config PLATFORM_CONFIG platform); [|discriminate].
  cbn [bind]. eauto.
Qed.

(** The inner command ends with the options of the call. *)
Lemma inner_command_options (c : SkillTestCall) (inner_cmd : str) :
  inner_command h c = Ok inner_cmd ->
  exists front paths,
    inner_cmd = front ++ test_options c (join (lit ",") paths)
    /\ (st_fix_context c = true ->
        skills_paths_of h (get_required_platforms (st_platform c)) = Ok paths).
Proof.
  unfold inner_command.
  destruct (setup_commands (get_required_platforms (st_platform c)))
    as [setup|e]; cbn [bind]; [|discriminate].
  destruct (scenario_file (st_platform c) (st_scenario c)) as [path|e];
    cbn [bind]; [|discriminate].
  destruct (if st_fix_context c
            then skills_paths_of h (get_required_platforms (st_platform c))
            else Ok []) as [paths|e] eqn:Hpaths; cbn [bind]; [|discriminate].
  intros [= <-].
  exists (join (lit "; ") (fst setup) ++ lit "; "
          ++ join (lit "; ") (snd setup) ++ lit "; "
          ++ lit "mkdir -p /tmp/checkpoints; "
          ++ lit "python /workspace/skill-test.py " ++ path ++ lit " "
          ++ lit "--model " ++ st_model c
          ++ lit " --judge-model " ++ st_judge_model c), paths.
  split; [now rewrite <- !app_assoc|].
  intros Hfix. now rewrite Hfix in Hpaths.
Qed.

Lemma inner_command_built (c : SkillTestCall) :
  known_platform (st_platform c) = true ->
  exists inner_cmd, inner_command h c = Ok inner_cmd.
Proof.
  intros Hknown. pose proof (required_configured _ Hknown) as Hall.
  unfold inner_command.
  destruct (setup_commands_built _ Hall) as [setup ->]. cbn [bind].
  destruct (scenario_file_built (st_platform c) (st_scenario c) Hknown)
    as [path ->]. cbn [bind].
  destruct (st_fix_context c).
  - destruct (skills_paths_built _ Hall) as [paths ->]. cbn [bind]. eauto.
  - cbn [bind]. eauto.
Qed.

End CommandBuilt.

Lemma choice_known (choice : PlatformChoice) :
  known_platform (platform_name choice) = true.
Proof. now destruct choice; vm_compute. Qed.

Lemma docker_command_built (h : Host) (AS_DEMO_PATH : str) (c : SkillTestCall) :
  known_platform (st_platform c) = true ->
  exists cmd, docker_command h AS_DEMO_PATH c = Ok cmd.
Proof.
  intros Hknown. pose proof (required_configured _ Hknown) as Hall.
  unfold docker_command.
  destruct (credential_options_built h (st_mock_mode c) _ Hall) as [l1 ->].
  cbn [bind].
  destruct (source_mounts_built h _ Hall) as [l2 ->]. cbn [bind].
  destruct (inner_command_built h c Hknown) as [inner_cmd ->]. cbn [bind].
  eauto.
Qed.


Lemma docker_command_last (h : Host) (AS_DEMO_PATH : str) (c : SkillTestCall)
      (cmd : list str) :
  docker_command h AS_DEMO_PATH c = Ok cmd ->
  exists front inner_cmd,
    cmd = front ++ [inner_cmd] /\ inner_command h c = Ok inner_cmd.
Proof.
  unfold docker_command.
  destruct (credential_options h (st_mock_mode c)
              (get_required_platforms (st_platform c))) as [credentials|e];
    cbn [bind]; [|discriminate].
  destruct (source_mounts h (get_required_platforms (st_platform c)))
    as [sources|e]; cbn [bind]; [|discriminate].
  destruct (inner_command h c) as [inner_cmd|e]; cbn [bind]; [|discriminate].
  intros Hcmd. apply Ok_inj in Hcmd. subst cmd.
  eexists _, inner_cmd. split; [|reflexivity].
  rewrite !app_assoc. reflexivity.
Qed.

(** The options of the calls the loop makes. *)
Lemma test_options_loop (a : LoopArgs) (n : Z) (index : option Z) (paths : str) :
  test_options (test_call a n index) paths
  = lit " --conversation --fail-fast --checkpoint-file /tmp/checkpoints/"
    ++ platform a ++ lit "_" ++ scenario a ++ lit ".json"
    ++ match fst (fork_args n index) with
       | Some k => lit " --fork-from " ++ str_of_int k
       | None => []
       end
    ++ match snd (fork_args n index) with
       | Some k => lit " --prompt-index " ++ str_of_int k
       | None => []
       end
    ++ lit " --fix-context " ++ paths
    ++ (if verbose a then lit " --verbose" else [])
    ++ (if mock_mode a then lit " --mock" else []).
Proof.
  unfold test_options, test_call, checkpoint_path.
  cbn [st_conversation st_fail_fast st_checkpoint_file st_fork_from
       st_prompt_index st_fix_context st_verbose st_mock_mode].
  change (lit "/tmp/checkpoints/") with (47%N :: lit "tmp/checkpoints/").
  cbn [app].
  change (lit " --conversation --fail-fast --checkpoint-file /tmp/checkpoints/")
    with (lit " --conversation" ++ lit " --fail-fast"
          ++ lit " --checkpoint-file " ++ 47%N :: lit "tmp/checkpoints/").
  rewrite <- !app_assoc. cbn [app]. rewrite <- !app_assoc. reflexivity.
Qed.


Lemma Run_raise_last (E : Env) (a : LoopArgs) (numbers : list Z)
      (st : LoopState) (logs : list AttemptLog) (r : res bool) :
  Run E a numbers st logs r -> forall e, r = Raise e ->
  exists log fx, In log logs /\ al_step log = Crashed fx e
                 /\ forall d, last logs d = log.
Proof.
  induction 1 as [st | n rest st w0 log r Hlog Hstop
                 | n rest st w0 log next logs r Hlog Hnext Hrun IH];
    intros e Hr.
  - discriminate.
  - unfold stops_with in Hstop. exists log.
    destruct (al_step log) as [| |fx next|fx e'] eqn:Hstep; try discriminate;
      [congruence|].
    exists fx. split; [now left|]. split; [congruence | reflexivity].
  - destruct (IH e Hr) as (l & fx & Hin & Hp & Hl). exists l, fx.
    split; [now right|]. split; [exact Hp|]. intros d.
    destruct logs as [|x logs]; [destruct Hin|]. exact (Hl d).
Qed.

Lemma Run_false_all_failed (E : Env) (a : LoopArgs) (numbers : list Z)
      (st : LoopState) (logs : list AttemptLog) :
  Run E a numbers st logs (Ok false) ->
  forall log, In log logs -> fst (al_verdict log) = false.
Proof.
  intros Hrun log Hin. destruct (In_nth_error _ _ Hin) as [i Hi].
  destruct (fst (al_verdict log)) eqn:Hv; [|reflexivity].
  now destruct (Run_success_last Hrun i Hi Hv) as [Hr _].
Qed.


Lemma has_option_cons (flag value x : str) (l : list str) :
  has_option flag value l -> has_option flag value (x :: l).
Proof. apply (has_option_app_r [x]). Qed.

Lemma checked_plugins_mounted (h : Host) (platforms : list str)
      (l : list str) :
  plugins_found h platforms = Ok true ->
  source_mounts h platforms = Ok l ->
  forall p config, In p platforms ->
    platform_config PLATFORM_CONFIG p = Some config ->
    exists skills_path plugin_path,
      get_skills_path h p = Ok skills_path
      /\ (plugin_path
          = path_join (path_join skills_path (lit "plugins")) (plugin_name config)
          \/ plugin_path = path_join skills_path (plugin_name config))
      /\ path_exists h plugin_path = true
      /\ has_option (lit "-v")
           (plugin_path ++ lit ":/home/devuser/.claude/plugins/cache/"
            ++ plugin_name config ++ lit "/" ++ plugin_name config
            ++ lit "/dev:ro") l.
Proof.
  revert l; induction platforms as [|q rest IH]; intros l Hfound Hl p config Hin Hp;
    [destruct Hin|].
  cbn [plugins_found source_mounts] in Hfound, Hl.
  unfold plugin_found in Hfound.
  destruct (config_of q) as [config'|e] eqn:Hq; cbn [bind] in Hl;
    [|discriminate].
  unfold config_of in Hq.
  destruct (platform_config PLATFORM_CONFIG q) as [cq|] eqn:Hcq;
    [|discriminate]. injection Hq as ->.
  destruct (get_skills_path h q) as [skills_path|e] eqn:Hpath;
    cbn [bind] in Hfound, Hl; [|discriminate].
  cbv zeta in Hfound, Hl.
  destruct (source_mounts h rest) as [more|e]; cbn [bind] in Hl;
    [|discriminate].
  apply Ok_inj in Hl. subst l.
  destruct Hin as [->|Hin].
  - rewrite Hp in Hcq. injection Hcq as <-.
    exists skills_path.
    destruct (path_exists h
                (path_join (path_join skills_path (lit "plugins"))
                           (plugin_name config))) eqn:Hunder.
    + exists (path_join (path_join skills_path (lit "plugins"))
                        (plugin_name config)).
      split; [exact Hpath|]. split; [now left|]. split; [exact Hunder|].
      rewrite Hunder. apply has_option_app_l, has_option_here.
    + cbn [bind] in Hfound.
      destruct (path_exists h (path_join skills_path (plugin_name config)))
        eqn:Hdirect; [|discriminate].
      exists (path_join skills_path (plugin_name config)).
      split; [exact Hpath|]. split; [now right|]. split; [exact Hdirect|].
      apply has_option_app_l, has_option_here.
  - assert (Hrest : plugins_found h rest = Ok true).
    { destruct (path_exists h
                  (path_join (path_join skills_path (lit "plugins"))
                             (plugin_name config'))); cbn [bind] in Hfound;
        [exact Hfound|].
      destruct (path_exists h (path_join skills_path (plugin_name config')));
        [exact Hfound | discriminate]. }
    destruct (IH more Hrest eq_refl p config Hin Hp)
      as (sp & pp & H1 & H2 & H3 & H4).
    exists sp, pp. repeat (split; [assumption|]).
    now apply has_option_app_r, has_option_app_r.
Qed.


(* ====================================================================== *)
(** * The further properties on scripted inputs *)
(* ====================================================================== *)

Import Samples.



(** The pass of [all_passed] comes without a context. *)
Lemma X3_test_result_shape_witness :
  fst (skill_test_result (test_call args 1 None) all_passed) = true
  /\ snd (skill_test_result (test_call args 1 None) all_passed) = None.
Proof.
  assert (H : fst (skill_test_result (test_call args 1 None) all_passed) = true)
    by (vm_compute; reflexivity).
  destruct (@X3_test_result_shape (test_call args 1 None) all_passed)
    as (Hpass & _ & _).
  exact (conj H (proj1 (Hpass H))).
Defined.

(** With [--max-attempts 0] nothing is run and the status is 1. *)
Lemma X4_no_attempts_witness :
  run_refinement_loop env args 0 three_steps = (Ok false, [], three_steps)
  /\ exit (fst (main env host_without_credentials no_attempts_line three_steps))
     = ExitStatus 1.
Proof.
  destruct (@X4_no_attempts env 0%Z ltac:(lia)) as [Hloop Hmain].
  assert (Hfound : plugins_found host_without_credentials
                     (get_required_platforms
                        (platform_name (arg_platform no_attempts_line)))
                   = Ok true) by (vm_compute; reflexivity).
  destruct (Hmain host_without_credentials no_attempts_line three_steps
              eq_refl Hfound) as (Hexit & _ & _).
  exact (conj (Hloop args three_steps Confluence eq_refl) Hexit).
Defined.

(** In [agent_stalls] the history before the third attempt extends the one
    before the second. *)
Lemma X5_history_grows_witness :
  nth_error (attempts_of run_agent_stalls) 1 = Some (log_at 1 run_agent_stalls)
  /\ nth_error (attempts_of run_agent_stalls) 2 = Some (log_at 2 run_agent_stalls)
  /\ (exists added,
        attempt_history (al_before (log_at 2 run_agent_stalls))
        = attempt_history (al_before (log_at 1 run_agent_stalls)) ++ added)
  /\ (Z.of_nat (length (attempt_history (al_before (log_at 1 run_agent_stalls))))
      < al_attempt (log_at 1 run_agent_stalls))%Z.
Proof.
  assert (H1 : nth_error (attempts_of run_agent_stalls) 1
               = Some (log_at 1 run_agent_stalls))
    by (vm_compute; reflexivity).
  assert (H2 : nth_error (attempts_of run_agent_stalls) 2
               = Some (log_at 2 run_agent_stalls))
    by (vm_compute; reflexivity).
  destruct (@X5_history_grows env args 3%Z agent_stalls 1 2 _ _ ltac:(lia) H1 H2)
    as (Hgrows & Hlen & _).
  exact (conj H1 (conj H2 (conj Hgrows Hlen))).
Defined.

(** The record of the first attempt of [three_steps]. *)
Lemma X6_error_summary_bounded_witness :
  In (log_at 0 run_three_steps) (attempts_of run_three_steps)
  /\ exists fx next h,
       al_step (log_at 0 run_three_steps) = Fixed fx next
       /\ attempt_history next = [h]
       /\ attempt h = 1%Z
       /\ length (error_summary h) <= 100.
Proof.
  assert (Hin : In (log_at 0 run_three_steps) (attempts_of run_three_steps))
    by (vm_compute; left; reflexivity).
  destruct (al_step (log_at 0 run_three_steps)) as [| |fx next|fx e] eqn:Hstep;
    try (vm_compute in Hstep; discriminate Hstep).
  destruct (@X6_error_summary_bounded env args 3%Z three_steps) as [_ Hrecord].
  destruct (Hrecord _ fx next Hin Hstep)
    as (h & failure & suggestion & Hnext & Hn & Hsum & _).
  assert (Hbefore : attempt_history (al_before (log_at 0 run_three_steps)) = [])
    by (vm_compute; reflexivity).
  assert (Hnumber : al_attempt (log_at 0 run_three_steps) = 1%Z)
    by (vm_compute; reflexivity).
  rewrite Hbefore in Hnext. rewrite Hnumber in Hn.
  assert (Hlen : length (error_summary h) <= 100)
    by (rewrite Hsum; apply firstn_le_length).
  exact (conj Hin
           (ex_intro _ fx (ex_intro _ next (ex_intro _ h
              (conj eq_refl (conj Hnext (conj Hn Hlen))))))).
Defined.

(** The result read from the answer [fixed_new_session]. *)
Lemma X7_fix_result_of_completed_run_witness :
  fix_agent_result env None fixed_new_session = Ok new_session_result
  /\ length (summary new_session_result) <= 500
  /\ success new_session_result = true.
Proof.
  assert (H : fix_agent_result env None fixed_new_session = Ok new_session_result)
    by (vm_compute; reflexivity).
  destruct (@X7_fix_result_of_completed_run env None _ _ _ _ H)
    as (text & _ & Hlen & _ & _ & Hok & _).
  exact (conj H (conj Hlen Hok)).
Defined.


(** In [three_steps] the first attempt fails at prompt 2, so the second is
    forked from checkpoint 1 and runs prompt 2. *)
Lemma X9_next_attempt_resumes_witness :
  nth_error (attempts_of run_three_steps) 0 = Some (log_at 0 run_three_steps)
  /\ nth_error (attempts_of run_three_steps) 1 = Some (log_at 1 run_three_steps)
  /\ reported_index (log_at 0 run_three_steps) = Some (Some 2%Z)
  /\ st_fork_from (al_call (log_at 1 run_three_steps)) = Some (2 - 1)%Z
  /\ st_prompt_index (al_call (log_at 1 run_three_steps)) = Some 2%Z.
Proof.
  assert (H0 : nth_error (attempts_of run_three_steps) 0
               = Some (log_at 0 run_three_steps))
    by (vm_compute; reflexivity).
  assert (H1 : nth_error (attempts_of run_three_steps) 1
               = Some (log_at 1 run_three_steps))
    by (vm_compute; reflexivity).
  assert (Hk : reported_index (log_at 0 run_three_steps) = Some (Some 2%Z))
    by (vm_compute; reflexivity).
  destruct (@X9_next_attempt_resumes env args 3%Z three_steps 0 _ _ H0 H1)
    as [Hnamed _].
  destruct (Hnamed 2%Z Hk) as (_ & Hpos & _).
  destruct (Hpos ltac:(lia)) as [Hf Hp].
  exact (conj H0 (conj H1 (conj Hk (conj Hf Hp)))).
Defined.

(** [three_steps] ends well: its last attempt printed an all_passed object. *)
Lemma X10_success_needs_all_passed_witness :
  outcome_of run_three_steps = Ok true
  /\ exists log stdout object,
       In log (attempts_of run_three_steps)
       /\ al_step log = Passed
       /\ extractJson stdout = Some object
       /\ is_all_passed object = true.
Proof.
  assert (H : outcome_of (run_refinement_loop env args 3 three_steps) = Ok true)
    by (vm_compute; reflexivity).
  destruct (@X10_success_needs_all_passed env args 3%Z three_steps H)
    as (log & w' & stdout & stderr & rc & object
        & _ & Hin & Hstep & _ & _ & Hex & Hall).
  exact (conj H
           (ex_intro _ log (ex_intro _ stdout (ex_intro _ object
              (conj Hin (conj Hstep (conj Hex Hall))))))).
Defined.

(** The text of an answer in three blocks, the second a tool call. *)
Lemma X11_text_of_answer_witness :
  json_loads answer_in_blocks = Some (JObject answer_data)
  /\ _extract_text_from_output answer_in_blocks
     = Ok (lit "I edited the skill." ++ [10%N] ++ lit "Done.").
Proof.
  assert (Hdoc : json_loads answer_in_blocks = Some (JObject answer_data))
    by (vm_compute; reflexivity).
  assert (Hnone : forall r, lookup (lit "result") answer_data <> Some (JString r))
    by (intros r Hr; vm_compute in Hr; discriminate Hr).
  assert (Hcontent : lookup (lit "content") answer_data
                     = Some (JArray answer_content))
    by (vm_compute; reflexivity).
  assert (Hblocks : Forall2 (fun b v => is_block (fst b) (snd b) v)
                            answer_blocks answer_content).
  { repeat constructor.
    - eexists. split; [reflexivity|]. split; [reflexivity|].
      intros _. reflexivity.
    - eexists. split; [reflexivity|]. split; [reflexivity|].
      intros Hkind. vm_compute in Hkind. discriminate Hkind.
    - eexists. split; [reflexivity|]. split; [reflexivity|].
      intros _. reflexivity. }
  destruct (@X11_text_of_answer answer_in_blocks answer_data Hdoc)
    as (_ & Hjoin & _).
  exact (conj Hdoc (Hjoin answer_content answer_blocks Hnone Hcontent Hblocks)).
Defined.


(** When the fix agent prints a JSON list, the run ends at that attempt
    with AttributeError, although the next test would have passed. *)
Lemma X13_fix_agent_crash_ends_run_witness :
  In (log_at 0 (run_refinement_loop env args 3 agent_prints_list))
     (attempts_of (run_refinement_loop env args 3 agent_prints_list))
  /\ fx_result (fix_at 0 (run_refinement_loop env args 3 agent_prints_list))
     = Raise AttributeError
  /\ outcome_of (run_refinement_loop env args 3 agent_prints_list)
     = Raise AttributeError.
Proof.
  assert (Hin : In (log_at 0 (run_refinement_loop env args 3 agent_prints_list))
                   (attempts_of (run_refinement_loop env args 3 agent_prints_list)))
    by (vm_compute; left; reflexivity).
  assert (Hfix : fix_of (log_at 0 (run_refinement_loop env args 3 agent_prints_list))
                 = Some (fix_at 0 (run_refinement_loop env args 3 agent_prints_list)))
    by (vm_compute; reflexivity).
  assert (Hres : fx_result (fix_at 0 (run_refinement_loop env args 3 agent_prints_list))
                 = Raise AttributeError)
    by (vm_compute; reflexivity).
  destruct (@X13_fix_agent_crash_ends_run env args 3%Z agent_prints_list)
    as [Hcrash _].
  destruct (Hcrash _ _ _ Hin Hfix Hres) as [Hout _].
  exact (conj Hin (conj Hres Hout)).
Defined.

(** The command of the second call on a host where every path exists. *)
Lemma X14_mounts_read_only_witness :
  docker_command host_without_credentials as_demo second_call
  = Ok (command_on host_without_credentials)
  /\ exists options inner_cmd,
       command_on host_without_credentials
       = [lit "docker"; lit "run"; lit "--rm"]
         ++ flags options
         ++ [lit "--entrypoint"; lit "bash"; lit "as-demo-container:latest";
             lit "-c"; inner_cmd]
       /\ forall flag value, In (flag, value) options ->
            flag = lit "-e"
            \/ (flag = lit "-v"
                /\ (value = lit "/tmp/checkpoints:/tmp/checkpoints"
                    \/ exists source, value = source ++ lit ":ro")).
Proof.
  assert (H : docker_command host_without_credentials as_demo second_call
              = Ok (command_on host_without_credentials))
    by (vm_compute; reflexivity).
  destruct (@X14_mounts_read_only host_without_credentials as_demo second_call
              _ H) as (options & inner_cmd & Hcmd & _ & Hall).
  exact (conj H (ex_intro _ options (ex_intro _ inner_cmd (conj Hcmd Hall)))).
Defined.

(** On a host that holds the Confluence token only, the token is handed
    over, the e-mail address is handed over empty, and the mock switch is
    set. *)
Lemma X15_credentials_forwarded_witness :
  docker_command host_without_plugins as_demo second_call
  = Ok (command_on host_without_plugins)
  /\ has_option (lit "-e") (lit "CONFLUENCE_API_TOKEN" ++ lit "=" ++ lit "token")
       (command_on host_without_plugins)
  /\ has_option (lit "-e") (lit "CONFLUENCE_EMAIL" ++ lit "=")
       (command_on host_without_plugins)
  /\ has_option (lit "-e") (mock_env_var confluence_config ++ lit "=true")
       (command_on host_without_plugins).
Proof.
  assert (H : docker_command host_without_plugins as_demo second_call
              = Ok (command_on host_without_plugins))
    by (vm_compute; reflexivity).
  assert (Hin : In (lit "confluence")
                   (get_required_platforms (st_platform second_call)))
    by (vm_compute; left; reflexivity).
  assert (Hp : platform_config PLATFORM_CONFIG (lit "confluence")
               = Some confluence_config)
    by (vm_compute; reflexivity).
  destruct (@X15_credentials_forwarded host_without_plugins as_demo second_call
              _ H) as [_ Hvars].
  destruct (Hvars _ _ Hin Hp) as (Hset & Hunset & Hmock).
  assert (Htoken : has_option (lit "-e")
                     (lit "CONFLUENCE_API_TOKEN" ++ lit "=" ++ lit "token")
                     (command_on host_without_plugins)).
  { apply Hset; [vm_compute; left; reflexivity | vm_compute; reflexivity]. }
  assert (Hemail : has_option (lit "-e") (lit "CONFLUENCE_EMAIL" ++ lit "=")
                     (command_on host_without_plugins)).
  { apply Hunset; [vm_compute; right; left; reflexivity
                  | vm_compute; reflexivity]. }
  exact (conj H (conj Htoken (conj Hemail (Hmock eq_refl)))).
Defined.




